(** * praxis router: proxies, endpoints and the manifest build hash

    A shallow embedding of [manifest/service.go] (the [manifest] package's
    [Service.BuildHash] and the [router] package's proxy subsystem) and the
    properties of it that the design document states.

    Conventions of the embedding:
    - Go strings are byte strings: [string] (a list of [ascii] bytes);
    - Go's [int] is a 64-bit integer carried in [Z];
    - a Go [map] is a [gmap];
    - a function returning [(T, error)] returns [result T];
    - calls that reach the outside (network, rack client, TLS) are recorded
      as [event]s in a trace, their answers are supplied by a [World]. *)

From Stdlib Require Import ZArith Ascii String List Lia Bool.
From stdpp Require Import base gmap strings list fin_maps.

Local Open Scope Z_scope.

(** ** Bytes and strings *)

Definition byte_val (c : ascii) : Z := Z.of_N (N_of_ascii c).

Definition byte_of_Z (z : Z) : ascii := ascii_of_N (Z.to_N z).

Definition str1 (c : ascii) : string := String c EmptyString.

Fixpoint concat_strings (l : list string) : string :=
  match l with
  | [] => EmptyString
  | s :: r => s +:+ concat_strings r
  end.

(** [strings.Join]. *)
Fixpoint Join (l : list string) (sep : string) : string :=
  match l with
  | [] => EmptyString
  | [s] => s
  | s :: r => s +:+ sep +:+ Join r sep
  end.

(** [strings.Split(s, sep)] for a one-byte separator, which is how both call
    sites use it ([Split(path, "/")] and [Split(segment, ":")]): the result
    has one more element than [s] has separators, so it is never empty. *)
Fixpoint Split (s : string) (sep : ascii) : list string :=
  match s with
  | EmptyString => [EmptyString]
  | String c r =>
      if Ascii.eqb c sep then EmptyString :: Split r sep
      else match Split r sep with
           | [] => [str1 c]
           | h :: t => String c h :: t
           end
  end.

(** Indexing a slice: Go panics out of range, every use below is behind a
    length check, so the default is never read. *)
Definition idx (l : list string) (i : nat) : string := nth i l EmptyString.

(** ** [strconv.Atoi] *)

Definition max_int : Z := 9223372036854775807.
Definition min_int : Z := -9223372036854775808.

Definition digit_of (c : ascii) : option Z :=
  let n := byte_val c in
  if (48 <=? n) && (n <=? 57) then Some (n - 48) else None.

Fixpoint parse_digits (s : string) (acc : Z) : option Z :=
  match s with
  | EmptyString => Some acc
  | String c r =>
      match digit_of c with
      | Some d => parse_digits r (acc * 10 + d)
      | None => None
      end
  end.

(** An optional sign, then one or more decimal digits; [None] stands for the
    [*strconv.NumError] (syntax or range). *)
Definition Atoi (s : string) : option Z :=
  let '(neg, body) :=
    match s with
    | String "+"%char r => (false, r)
    | String "-"%char r => (true, r)
    | _ => (false, s)
    end in
  match body with
  | EmptyString => None
  | _ =>
      match parse_digits body 0 with
      | Some n =>
          let v := if neg then - n else n in
          if (min_int <=? v) && (v <=? max_int) then Some v else None
      | None => None
      end
  end.

(** [%d] of an [int]. *)
Fixpoint digits_of_pos (fuel : nat) (n : Z) (acc : string) : string :=
  match fuel with
  | O => acc
  | S f =>
      let acc' := String (byte_of_Z (48 + n mod 10)) acc in
      if n <? 10 then acc' else digits_of_pos f (n / 10) acc'
  end.

Definition Itoa (z : Z) : string :=
  if z <? 0 then String "-"%char (digits_of_pos 20 (- z) EmptyString)
  else digits_of_pos 20 z EmptyString.

(** ** [net/url]: [url.URL], [Hostname] and [Port] *)

Module url.

(** [url.Userinfo]. *)
Record Userinfo := {
  username : string;
  password : string;
  passwordSet : bool
}.

(** [url.URL], field for field; [User] is a pointer, [None] when nil. *)
Record URL := {
  Scheme : string;
  Opaque : string;
  User : option Userinfo;
  Host : string;
  Path : string;
  RawPath : string;
  OmitHost : bool;
  ForceQuery : bool;
  RawQuery : string;
  Fragment : string;
  RawFragment : string
}.

(** The URL [scheme://host/path], every other field at its zero value. *)
Definition simple (scheme host path : string) : URL :=
  {| Scheme := scheme; Opaque := EmptyString; User := None; Host := host;
     Path := path; RawPath := EmptyString; OmitHost := false;
     ForceQuery := false; RawQuery := EmptyString; Fragment := EmptyString;
     RawFragment := EmptyString |}.

(** [u.Scheme = scheme] and [u.Host = host]: assignments to one field. *)
Definition set_Scheme (u : URL) (scheme : string) : URL :=
  {| Scheme := scheme; Opaque := Opaque u; User := User u; Host := Host u;
     Path := Path u; RawPath := RawPath u; OmitHost := OmitHost u;
     ForceQuery := ForceQuery u; RawQuery := RawQuery u;
     Fragment := Fragment u; RawFragment := RawFragment u |}.

Definition set_Host (u : URL) (host : string) : URL :=
  {| Scheme := Scheme u; Opaque := Opaque u; User := User u; Host := host;
     Path := Path u; RawPath := RawPath u; OmitHost := OmitHost u;
     ForceQuery := ForceQuery u; RawQuery := RawQuery u;
     Fragment := Fragment u; RawFragment := RawFragment u |}.

Fixpoint last_colon (s : string) : option (string * string) :=
  match s with
  | EmptyString => None
  | String c r =>
      match last_colon r with
      | Some (h, p) => Some (String c h, p)
      | None => if Ascii.eqb c ":"%char then Some (EmptyString, r) else None
      end
  end.

Fixpoint all_digits (s : string) : bool :=
  match s with
  | EmptyString => true
  | String c r => match digit_of c with Some _ => all_digits r | None => false end
  end.

Fixpoint last_byte (s : string) : option ascii :=
  match s with
  | EmptyString => None
  | String c EmptyString => Some c
  | String _ r => last_byte r
  end.

Fixpoint drop_last (s : string) : string :=
  match s with
  | EmptyString => EmptyString
  | String _ EmptyString => EmptyString
  | String c r => String c (drop_last r)
  end.

(** [splitHostPort]: the text after the last colon is the port when it is
    all digits; square brackets around the host are removed. *)
Definition splitHostPort (hostPort : string) : string * string :=
  let '(host, port) :=
    match last_colon hostPort with
    | Some (h, p) => if all_digits p then (h, p) else (hostPort, EmptyString)
    | None => (hostPort, EmptyString)
    end in
  match host with
  | String "["%char r =>
      match last_byte r with
      | Some "]"%char => (drop_last r, port)
      | _ => (host, port)
      end
  | _ => (host, port)
  end.

Definition Hostname (u : URL) : string := fst (splitHostPort (Host u)).
Definition Port (u : URL) : string := snd (splitHostPort (Host u)).

End url.

Abbreviation URL := url.URL.

(** ** Errors *)

(** One constructor per [fmt.Errorf] site of the router, and two for the
    errors that come from outside it. *)
Inductive error : Type :=
  | ErrAtoi (s : string)
  | ErrProxyExists (port : Z)
  | ErrUnknownListenerScheme (scheme : string)
  | ErrInvalidRackEndpointFor (target : URL)
  | ErrInvalidRackEndpoint
  | ErrInvalidEndpoint (kind part2 : string)
  | ErrUnknownProxyType (kind : string)
  | ErrNoProcesses (service : string)
  | ErrExternal (msg : string).

Inductive result (A : Type) : Type :=
  | Ok (a : A)
  | Err (e : error).
Arguments Ok {A} a.
Arguments Err {A} e.

(** ** Proxy and Endpoint *)

(** A pointer to an [Endpoint]; the endpoint it points to is passed along
    wherever the code dereferences it. *)
Definition EndpointRef := nat.

Record Proxy := {
  Listen : URL;
  Target : URL;
  endpoint : EndpointRef
}.

(** Modelled from the spec: the declaration of the [Endpoint] struct is not
    part of the source at hand, which only uses it. It holds the hostname
    and the mapping from listen port to proxy; its reference to the owning
    router, used for certificate issuance alone, is the [w_certificate]
    answer of the world below. *)
Record Endpoint := {
  Host : string;
  Proxies : gmap Z Proxy
}.

Definition set_Proxies (e : Endpoint) (m : gmap Z Proxy) : Endpoint :=
  {| Host := Host e; Proxies := m |}.

(** [(e *Endpoint) NewProxy]: [e] is the pointer, [ev] what it points to; the
    second component is the endpoint after the call. *)
Definition NewProxy (e : EndpointRef) (ev : Endpoint) (host : string)
    (listen target : URL) : result Proxy * Endpoint :=
  let p := {| Listen := listen; Target := target; endpoint := e |} in
  match Atoi (url.Port listen) with
  | None => (Err (ErrAtoi (url.Port listen)), ev)
  | Some pi =>
      match Proxies ev !! pi with
      | Some _ => (Err (ErrProxyExists pi), ev)
      | None => (Ok p, set_Proxies ev (<[pi := p]> (Proxies ev)))
      end
  end.

(** A request to create a proxy, and a run of requests against one endpoint,
    in order; the results are kept with the final endpoint. *)
Record NewProxyArgs := { np_host : string; np_listen : URL; np_target : URL }.

Fixpoint NewProxies (e : EndpointRef) (ev : Endpoint) (reqs : list NewProxyArgs)
    : list (result Proxy) * Endpoint :=
  match reqs with
  | [] => ([], ev)
  | r :: rest =>
      let '(res, ev1) := NewProxy e ev (np_host r) (np_listen r) (np_target r) in
      let '(ress, ev2) := NewProxies e ev1 rest in
      (res :: ress, ev2)
  end.

(** The port a created proxy listens on. *)
Definition listen_port (p : Proxy) : option Z := Atoi (url.Port (Listen p)).

Fixpoint created (rs : list (result Proxy)) : list Proxy :=
  match rs with
  | [] => []
  | Ok p :: r => p :: created r
  | Err _ :: r => created r
  end.

(** ** UTF-8 decoding ([unicode/utf8]) *)

Definition RuneError : Z := 65533.

Definition in_range (lo hi : Z) (c : ascii) : bool :=
  (lo <=? byte_val c) && (byte_val c <=? hi).

Definition cont (c : ascii) : Z := Z.land (byte_val c) 63.

(** [utf8.DecodeRuneInString]: the first rune of [s] and its width in bytes;
    [(RuneError, 1)] for a byte that starts no valid encoding (overlong forms,
    surrogates and values above U+10FFFF are invalid), [(RuneError, 0)] for
    the empty string. *)
Definition DecodeRuneInString (s : string) : Z * nat :=
  match s with
  | EmptyString => (RuneError, 0%nat)
  | String b0 r =>
      let x := byte_val b0 in
      if x <? 128 then (x, 1%nat)
      else if in_range 194 223 b0 then
        match r with
        | String b1 _ =>
            if in_range 128 191 b1
            then (Z.lor (Z.shiftl (Z.land x 31) 6) (cont b1), 2%nat)
            else (RuneError, 1%nat)
        | _ => (RuneError, 1%nat)
        end
      else if in_range 224 239 b0 then
        match r with
        | String b1 (String b2 _) =>
            let lo := if x =? 224 then 160 else 128 in
            let hi := if x =? 237 then 159 else 191 in
            if in_range lo hi b1 && in_range 128 191 b2
            then (Z.lor (Z.shiftl (Z.land x 15) 12)
                    (Z.lor (Z.shiftl (cont b1) 6) (cont b2)), 3%nat)
            else (RuneError, 1%nat)
        | _ => (RuneError, 1%nat)
        end
      else if in_range 240 244 b0 then
        match r with
        | String b1 (String b2 (String b3 _)) =>
            let lo := if x =? 240 then 144 else 128 in
            let hi := if x =? 244 then 143 else 191 in
            if in_range lo hi b1 && in_range 128 191 b2 && in_range 128 191 b3
            then (Z.lor (Z.shiftl (Z.land x 7) 18)
                    (Z.lor (Z.shiftl (cont b1) 12)
                       (Z.lor (Z.shiftl (cont b2) 6) (cont b3))), 4%nat)
            else (RuneError, 1%nat)
        | _ => (RuneError, 1%nat)
        end
      else (RuneError, 1%nat)
  end.

(** What a rune-by-rune loop does with the bytes after the first byte of the
    rune it has just handled: copy them or leave them out. *)
Inductive pending : Type := Keep (n : nat) | Drop (n : nat).

Definition hex_digit (upper : bool) (n : Z) : ascii :=
  if n <? 10 then byte_of_Z (48 + n)
  else byte_of_Z ((if upper then 55 else 87) + n).

(** Two hexadecimal digits of a byte. *)
Definition hex2 (upper : bool) (n : Z) : string :=
  String (hex_digit upper (Z.shiftr n 4 mod 16))
    (String (hex_digit upper (n mod 16)) EmptyString).

Fixpoint hexN (digits : nat) (n : Z) : string :=
  match digits with
  | O => EmptyString
  | S d => String (hex_digit false (Z.shiftr n (4 * Z.of_nat d) mod 16)) (hexN d n)
  end.

Definition is_alnum (c : ascii) : bool :=
  in_range 97 122 c || in_range 65 90 c || in_range 48 57 c.

Definition mem_byte (c : ascii) (s : string) : bool :=
  existsb (Ascii.eqb c) (list_ascii_of_string s).

Definition dquote : ascii := "034"%char.
Definition backslash : ascii := "\"%char.

(** A text between double quotes. *)
Definition quoted (s : string) : string := String dquote (s +:+ str1 dquote).

(** ** [url.URL.String] *)

Module urlfmt.

Inductive encoding :=
  | encodePath
  | encodeHost
  | encodeUserPassword
  | encodeFragment.

(** [shouldEscape] for the modes [String] uses. *)
Definition shouldEscape (c : ascii) (mode : encoding) : bool :=
  if is_alnum c then false
  else if match mode with
          | encodeHost => mem_byte c ("!$&'()*+,;=:[]<>" +:+ str1 dquote)
          | _ => false
          end then false
  else if mem_byte c "-_.~" then false
  else if mem_byte c "$&+,/:;=?@" then
    match mode with
    | encodePath => Ascii.eqb c "?"%char
    | encodeUserPassword => mem_byte c "@/?:"
    | encodeFragment => false
    | encodeHost => true
    end
  else match mode with
       | encodeFragment => negb (mem_byte c "!()*")
       | _ => true
       end.

Fixpoint escape (s : string) (mode : encoding) : string :=
  match s with
  | EmptyString => EmptyString
  | String c r =>
      if shouldEscape c mode
      then String "%"%char (hex2 true (byte_val c) +:+ escape r mode)
      else String c (escape r mode)
  end.

Definition ishex (c : ascii) : bool :=
  in_range 48 57 c || in_range 97 102 c || in_range 65 70 c.

Definition unhex (c : ascii) : Z :=
  if in_range 48 57 c then byte_val c - 48
  else if in_range 97 102 c then byte_val c - 97 + 10
  else if in_range 65 70 c then byte_val c - 65 + 10
  else 0.

(** [unescape] in the path and fragment modes: every [%] must be followed
    by two hexadecimal digits, which it replaces; [None] is the
    [EscapeError]. *)
Fixpoint unescape (s : string) : option string :=
  match s with
  | EmptyString => Some EmptyString
  | String c r =>
      if Ascii.eqb c "%"%char then
        match r with
        | String h1 (String h2 r') =>
            if ishex h1 && ishex h2 then
              match unescape r' with
              | Some t => Some (String (byte_of_Z (unhex h1 * 16 + unhex h2)) t)
              | None => None
              end
            else None
        | _ => None
        end
      else
        match unescape r with
        | Some t => Some (String c t)
        | None => None
        end
  end.

(** [validEncoded]. *)
Fixpoint validEncoded (s : string) (mode : encoding) : bool :=
  match s with
  | EmptyString => true
  | String c r =>
      (mem_byte c "!$&'()*+,;=:@[]%" || negb (shouldEscape c mode))
      && validEncoded r mode
  end.

Definition nonempty (s : string) : bool :=
  match s with EmptyString => false | _ => true end.

Definition unescapes_to (raw plain : string) : bool :=
  match unescape raw with
  | Some p => String.eqb p plain
  | None => false
  end.

(** [(u *URL) EscapedPath]. *)
Definition EscapedPath (u : URL) : string :=
  if nonempty (url.RawPath u) && validEncoded (url.RawPath u) encodePath
     && unescapes_to (url.RawPath u) (url.Path u)
  then url.RawPath u
  else if String.eqb (url.Path u) "*" then "*"
  else escape (url.Path u) encodePath.

(** [(u *URL) EscapedFragment]. *)
Definition EscapedFragment (u : URL) : string :=
  if nonempty (url.RawFragment u)
     && validEncoded (url.RawFragment u) encodeFragment
     && unescapes_to (url.RawFragment u) (url.Fragment u)
  then url.RawFragment u
  else escape (url.Fragment u) encodeFragment.

(** [(u *Userinfo) String]. *)
Definition Userinfo_String (ui : url.Userinfo) : string :=
  escape (url.username ui) encodeUserPassword
  +:+ (if url.passwordSet ui
       then ":" +:+ escape (url.password ui) encodeUserPassword
       else "").

Definition is_some {A} (o : option A) : bool :=
  match o with Some _ => true | None => false end.

Definition first_segment_has_colon (path : string) : bool :=
  mem_byte ":"%char (idx (Split path "/"%char) 0).

(** What [String] writes when [Opaque] is empty: authority and path. *)
Definition hierarchy (u : URL) (written : bool) : string :=
  let authority :=
    if nonempty (url.Scheme u) || nonempty (url.Host u) || is_some (url.User u)
    then
      if url.OmitHost u && negb (nonempty (url.Host u))
         && negb (is_some (url.User u))
      then ""
      else
        (if nonempty (url.Host u) || nonempty (url.Path u)
            || is_some (url.User u) then "//" else "")
        +:+ match url.User u with
            | Some ui => Userinfo_String ui +:+ "@"
            | None => ""
            end
        +:+ (if nonempty (url.Host u) then escape (url.Host u) encodeHost
             else "")
    else "" in
  let path := EscapedPath u in
  let slash :=
    match path with
    | String c _ =>
        if negb (Ascii.eqb c "/"%char) && nonempty (url.Host u) then "/" else ""
    | EmptyString => ""
    end in
  let buf := authority +:+ slash in
  let dot :=
    if negb written && negb (nonempty buf) && first_segment_has_colon path
    then "./" else "" in
  buf +:+ dot +:+ path.

(** [(u *URL) String]. *)
Definition String_ (u : URL) : string :=
  let scheme := if nonempty (url.Scheme u) then url.Scheme u +:+ ":" else "" in
  scheme
  +:+ (if nonempty (url.Opaque u) then url.Opaque u
       else hierarchy u (nonempty scheme))
  +:+ (if url.ForceQuery u || nonempty (url.RawQuery u)
       then "?" +:+ url.RawQuery u else "")
  +:+ (if nonempty (url.Fragment u) then "#" +:+ EscapedFragment u else "").

End urlfmt.

(** ** [encoding/json]: marshaling a [map[string]string] *)

Module json.

(** [htmlSafeSet]: the bytes below 0x80 that are written as they are with
    HTML escaping on, which are those from the space to DEL without the
    quote, the backslash and [<], [>], [&]. *)
Definition htmlSafe (c : ascii) : bool :=
  in_range 32 127 c
  && negb (mem_byte c (String dquote (String backslash "<>&"))).

Definition escape_ascii (c : ascii) : string :=
  if Ascii.eqb c backslash || Ascii.eqb c dquote then String backslash (str1 c)
  else if Ascii.eqb c "008"%char then String backslash "b"
  else if Ascii.eqb c "012"%char then String backslash "f"
  else if Ascii.eqb c "010"%char then String backslash "n"
  else if Ascii.eqb c "013"%char then String backslash "r"
  else if Ascii.eqb c "009"%char then String backslash "t"
  else String backslash ("u00" +:+ hex2 false (byte_val c)).

(** The body of [appendString] with [escapeHTML] set: safe ASCII is copied,
    other ASCII escaped, an invalid byte is written as the escape of
    U+FFFD, U+2028 and U+2029 are escaped, every other rune is copied byte
    for byte. *)
Fixpoint appendString_from (s : string) (p : pending) : string :=
  match s with
  | EmptyString => EmptyString
  | String b r =>
      match p with
      | Keep (S k) => String b (appendString_from r (Keep k))
      | Drop (S k) => appendString_from r (Drop k)
      | _ =>
          if byte_val b <? 128 then
            (if htmlSafe b then str1 b else escape_ascii b)
            +:+ appendString_from r (Keep 0)
          else
            let '(c, size) := DecodeRuneInString s in
            if (c =? RuneError) && Nat.eqb size 1 then
              String backslash "ufffd" +:+ appendString_from r (Keep 0)
            else if (c =? 8232) || (c =? 8233) then
              String backslash ("u202" +:+ str1 (hex_digit false (Z.land c 15)))
              +:+ appendString_from r (Drop (size - 1))
            else String b (appendString_from r (Keep (size - 1)))
      end
  end.

Definition encodeString (s : string) : string :=
  String dquote (appendString_from s (Keep 0) +:+ str1 dquote).

Fixpoint insert_sorted (kv : string * string) (l : list (string * string))
    : list (string * string) :=
  match l with
  | [] => [kv]
  | h :: t =>
      if String.leb (fst kv) (fst h) then kv :: l else h :: insert_sorted kv t
  end.

(** The entries of the map, ordered by key as the encoder orders them. *)
Definition sorted_entries (m : gmap string string) : list (string * string) :=
  foldr insert_sorted [] (map_to_list m).

Definition encodeEntry (kv : string * string) : string :=
  encodeString (fst kv) +:+ ":" +:+ encodeString (snd kv).

(** [json.Marshal] of a [map[string]string]; it cannot fail. *)
Definition Marshal (m : gmap string string) : result string :=
  Ok ("{" +:+ Join (encodeEntry <$> sorted_entries m) "," +:+ "}").

End json.

(** [(p Proxy) MarshalJSON]. *)
Definition MarshalJSON (p : Proxy) : result string :=
  json.Marshal
    (<["target" := urlfmt.String_ (Target p)]>
       (<["listen" := urlfmt.String_ (Listen p)]> ∅)).

(** ** The outside world: connections, the rack client, handlers *)

Inductive Conn : Type :=
  | Sock (id : nat)
  | NopDeadlineConn (c : Conn).

(** An [io.ReadCloser] handed out by the rack client. *)
Definition Stream := nat.

(** The rack client [rack.NewFromEnv] returns. *)
Definition Rack := nat.

(** [types.Process]; the router reads its [Id] only. *)
Record Process := { Id : string }.

Record Certificate := { cert_host : string }.

Record tlsConfig := {
  Certificates : list Certificate;
  NextProtos : list string
}.

Inductive Listener : Type :=
  | TCPListener (addr : string)
  | TLSListener (inner : Listener) (cfg : tlsConfig).

(** [http.Header]. *)
Abbreviation Header := (gmap string (list string)).

Record Request := {
  RemoteAddr : string;
  reqURL : URL;
  reqHeader : Header
}.

Inductive Transport : Type :=
  | DefaultTransport
  | ServiceTransport (app service : string) (port : Z).

Inductive Director : Type :=
  | SingleHostDirector (target : URL)
  | RackDirector (p : Proxy).

Record Route := {
  route_path : string;
  route_methods : list string;
  route_headers : list (string * string)
}.

(** The handlers [proxyHTTP] builds: a reverse proxy (its transport wrapped
    in [logTransport]), the WebSocket bridge [p.ws(app, service, port)], and
    a [mux] router: [NewRouter] is the router without routes, [Handle] adds
    a route after the ones it has. *)
Inductive Handler : Type :=
  | ReverseProxy (d : Director) (t : Transport)
  | WebsocketHandler (p : Proxy) (app service : string) (port : Z)
  | NewRouter
  | Handle (px : Handler) (r : Route) (h : Handler).

(** What a [go] statement starts. *)
Inductive Task : Type :=
  | GoProxyRackTCP (cn : Conn) (target : URL)
  | GoServiceProxy (rk : Rack) (app pid : string) (port : Z) (rw : Conn)
  | GoCopy (dst src : Conn).

Inductive event : Type :=
  | EvListen (network addr : string)
  | EvListenerClose (ln : Listener)
  | EvGenerateCertificate (host : string)
  | EvHTTPServe (ln : Listener) (h : Handler)
  | EvAccept (ln : Listener)
  | EvGo (t : Task)
  | EvConnClose (c : Conn)
  | EvDial (network addr : string)
  | EvPipe (a b : Conn)
  | EvRackNewFromEnv
  | EvResourceProxy (app resource : string) (cn : Conn)
  | EvProcessProxy (app pid : string) (port : Z) (rw : Conn)
  | EvStreamClose (pr : Stream)
  | EvStream (cn : Conn) (pr : Stream)
  | EvCopyStream (dst : Conn) (src : Stream)
  | EvCopy (dst src : Conn)
  | EvSend (err : option error)
  | EvRecv
  | EvProcessList (app service : string)
  | EvIntn (n : nat)
  | EvNetPipe
  | EvUpgrade
  | EvWSDial (u : string) (headers : Header)
  | EvPrint (at_ : string) (err : error).

(** The answers of everything the router calls but does not implement. *)
Record World := {
  w_listen : string → option error;
  w_accepts : list Conn;
  w_accept_err : error;
  w_certificate : string → result Certificate;
  w_http_serve : option error;
  w_dial : string → result Conn;
  w_pipe : Conn → Conn → option error;
  w_rack : result Rack;
  w_resource_proxy : string → string → result Stream;
  w_process_proxy : string → string → Z → result Stream;
  w_stream : option error;
  w_copy : option error;
  w_process_list : string → string → result (list Process);
  w_intn : nat → nat;
  w_net_pipe : Conn * Conn;
  w_upgrade : result Conn;
  w_handshake : result Conn;
  w_errc : option error
}.

(** ** A trace-and-error monad *)

Record M (A : Type) : Type := Run { trace : list event; outcome : result A }.
Arguments Run {A} trace outcome.
Arguments trace {A} m.
Arguments outcome {A} m.

#[global] Instance M_ret : MRet M := λ A a, Run [] (Ok a).

#[global] Instance M_bind : MBind M := λ A B f m,
  match outcome m with
  | Ok a => Run (trace m ++ trace (f a)) (outcome (f a))
  | Err e => Run (trace m) (Err e)
  end.

Definition emit (ev : event) : M unit := Run [ev] (Ok tt).

Definition fail {A} (e : error) : M A := Run [] (Err e).

Definition lift {A} (r : result A) : M A := Run [] r.

(** A call to the outside: the event, then the world's answer. *)
Definition call {A} (ev : event) (r : result A) : M A := Run [ev] r.

Definition of_err (o : option error) : result unit :=
  match o with None => Ok tt | Some e => Err e end.

(** [defer]: the clean-up runs when the body is left, whatever its outcome. *)
Definition defer {A} (cleanup : event) (body : M A) : M A :=
  Run (trace body ++ [cleanup]) (outcome body).

(** ** Collaborators, as calls *)

Definition net_Listen (w : World) (network addr : string) : M Listener :=
  call (EvListen network addr)
    (match w_listen w addr with None => Ok (TCPListener addr) | Some e => Err e end).

Definition generateCertificate (w : World) (host : string) : M Certificate :=
  call (EvGenerateCertificate host) (w_certificate w host).

Definition http_Serve (w : World) (ln : Listener) (h : Handler) : M unit :=
  call (EvHTTPServe ln h) (of_err (w_http_serve w)).

Definition net_Dial (w : World) (network addr : string) : M Conn :=
  call (EvDial network addr) (w_dial w addr).

Definition helpers_Pipe (w : World) (a b : Conn) : M unit :=
  call (EvPipe a b) (of_err (w_pipe w a b)).

Definition helpers_Stream (w : World) (cn : Conn) (pr : Stream) : M unit :=
  call (EvStream cn pr) (of_err (w_stream w)).

Definition rack_NewFromEnv (w : World) : M Rack :=
  call EvRackNewFromEnv (w_rack w).

Definition ResourceProxy (w : World) (r : Rack) (app resource : string) (cn : Conn)
    : M Stream :=
  call (EvResourceProxy app resource cn) (w_resource_proxy w app resource).

Definition ProcessProxy (w : World) (r : Rack) (app pid : string) (port : Z)
    (rw : Conn) : M Stream :=
  call (EvProcessProxy app pid port rw) (w_process_proxy w app pid port).

Definition ProcessList (w : World) (r : Rack) (app service : string)
    : M (list Process) :=
  call (EvProcessList app service) (w_process_list w app service).

(** [mrand.Intn(n)]: panics for [n <= 0] (never the case below), otherwise a
    draw that the library promises to be in [[0, n)]. *)
Definition Intn (w : World) (n : nat) : M nat :=
  call (EvIntn n) (Ok (w_intn w n)).

Definition net_Pipe (w : World) : M (Conn * Conn) :=
  call EvNetPipe (Ok (w_net_pipe w)).

(** ** Forwarders *)

(** [proxyRackTCP]. *)
Definition proxyRackTCP (w : World) (cn : Conn) (target : URL) : M unit :=
  defer (EvConnClose cn) (
    let parts := Split (url.Path target) "/"%char in
    if (length parts <? 4)%nat then fail (ErrInvalidRackEndpointFor target) else
    let app := idx parts 1 in
    let kind := idx parts 2 in
    let rp := Split (idx parts 3) ":"%char in
    if (length rp <? 2)%nat then fail (ErrInvalidEndpoint kind (idx parts 2)) else
    let resource := idx rp 0 in
    r ← rack_NewFromEnv w;
    pr ← (if String.eqb kind "resource"
          then ResourceProxy w r app resource cn
          else fail (ErrUnknownProxyType kind));
    defer (EvStreamClose pr) (helpers_Stream w cn pr)).

(** [proxyTCPConnection]. *)
Definition proxyTCPConnection (w : World) (cn : Conn) (target : URL) : M unit :=
  if String.eqb (url.Hostname target) "rack" then proxyRackTCP w cn target
  else
    defer (EvConnClose cn) (
      oc ← net_Dial w "tcp" (url.Host target);
      defer (EvConnClose oc) (helpers_Pipe w cn oc)).

(** The accept loop of [proxyTCP]: the listener yields the connections of
    [accepts] and then fails with [aerr], which ends the loop. *)
Fixpoint accept_loop (ln : Listener) (accepts : list Conn) (aerr : error)
    (target : URL) : M unit :=
  match accepts with
  | [] => call (EvAccept ln) (Err aerr)
  | cn :: rest =>
      emit (EvAccept ln);;
      emit (EvGo (GoProxyRackTCP cn target));;
      accept_loop ln rest aerr target
  end.

(** [proxyTCP]. *)
Definition proxyTCP (w : World) (listener : Listener) (target : URL) : M unit :=
  accept_loop listener (w_accepts w) (w_accept_err w) target.

(** [serviceProxy]. *)
Definition serviceProxy (w : World) (rk : Rack) (app pid : string) (port : Z)
    (rw : Conn) : M unit :=
  pr ← ProcessProxy w rk app pid port rw;
  defer (EvStreamClose pr) (call (EvCopyStream rw pr) (of_err (w_copy w))).

(** The [cp] closure of the WebSocket bridge: copy, then send the result. *)
Definition cp (w : World) (dst src : Conn) : M unit :=
  emit (EvCopy dst src);; emit (EvSend (w_copy w)).

(** What a started goroutine does. *)
Definition run_task (w : World) (t : Task) : M unit :=
  match t with
  | GoProxyRackTCP cn target => proxyRackTCP w cn target
  | GoServiceProxy rk app pid port rw => serviceProxy w rk app pid port rw
  | GoCopy dst src => cp w dst src
  end.

(** The goroutines a trace starts, in order. *)
Fixpoint spawned (t : list event) : list Task :=
  match t with
  | [] => []
  | EvGo k :: r => k :: spawned r
  | _ :: r => spawned r
  end.

(** [(p *Proxy) proxyRackHTTP]. *)
Definition proxyRackHTTP (p : Proxy) : result Handler :=
  let parts := Split (url.Path (Target p)) "/"%char in
  if (length parts <? 4)%nat then Err ErrInvalidRackEndpoint else
  let app := idx parts 1 in
  let kind := idx parts 2 in
  let sp := Split (idx parts 3) ":"%char in
  if (length sp <? 2)%nat then Err (ErrInvalidEndpoint kind (idx parts 2)) else
  let service := idx sp 0 in
  match Atoi (idx sp 1) with
  | None => Err (ErrAtoi (idx sp 1))
  | Some pi =>
      if String.eqb kind "service" then
        let rp := ReverseProxy (RackDirector p) (ServiceTransport app service pi) in
        let px := NewRouter in
        let px := Handle px
                    {| route_path := "/{path:.*}"; route_methods := ["GET"];
                       route_headers := [("Upgrade", "websocket")] |}
                    (WebsocketHandler p app service pi) in
        let px := Handle px
                    {| route_path := "/{path:.*}"; route_methods := [];
                       route_headers := [] |} rp in
        Ok px
      else Err (ErrUnknownProxyType kind)
  end.

(** [(p *Proxy) proxyHTTP]. *)
Definition proxyHTTP (p : Proxy) (listen target : URL) : result Handler :=
  if String.eqb (url.Hostname target) "rack" then
    match proxyRackHTTP p with
    | Err e => Err e
    | Ok h => Ok h
    end
  else Ok (ReverseProxy (SingleHostDirector target) DefaultTransport).

(** [(p *Proxy) Serve]; [ev] is the endpoint [p.endpoint] points to. *)
Definition Serve (w : World) (ev : Endpoint) (p : Proxy) : M unit :=
  ln ← net_Listen w "tcp" (url.Host (Listen p));
  defer (EvListenerClose ln) (
    let scheme := url.Scheme (Listen p) in
    ln' ← (if String.eqb scheme "https" || String.eqb scheme "tls" then
             cert ← generateCertificate w (Host ev);
             mret (TLSListener ln {| Certificates := [cert]; NextProtos := ["h2"] |})
           else mret ln);
    if String.eqb scheme "http" || String.eqb scheme "https" then
      h ← lift (proxyHTTP p (Listen p) (Target p));
      http_Serve w ln' h
    else if String.eqb scheme "tcp" then
      proxyTCP w ln' (Target p)
    else fail (ErrUnknownListenerScheme scheme)).

(** ** Backend selection *)

(** Indexing the process list; out of range is a run-time panic. *)
Definition process_at (pss : list Process) (i : nat) : result Process :=
  match pss !! i with
  | Some ps => Ok ps
  | None => Err (ErrExternal "panic: index out of range")
  end.

(** The [DialContext] closure [serviceTransport] installs. *)
Definition serviceTransport_DialContext (w : World) (app service : string)
    (port : Z) (network address : string) : M Conn :=
  r ← rack_NewFromEnv w;
  pss ← ProcessList w r app service;
  if (length pss <? 1)%nat then fail (ErrNoProcesses service) else
  i ← Intn w (length pss);
  ps ← lift (process_at pss i);
  ab ← net_Pipe w;
  emit (EvGo (GoServiceProxy r app (Id ps) port (fst ab)));;
  mret (snd ab).

(** The [NetDial] closure of the WebSocket dialer in [ws]. *)
Definition ws_NetDial (w : World) (app service : string) (port : Z)
    (network address : string) : M Conn :=
  r ← rack_NewFromEnv w;
  pss ← ProcessList w r app service;
  if (length pss <? 1)%nat then fail (ErrNoProcesses service) else
  i ← Intn w (length pss);
  ps ← lift (process_at pss i);
  ab ← net_Pipe w;
  emit (EvGo (GoServiceProxy r app (Id ps) port (fst ab)));;
  mret (NopDeadlineConn (snd ab)).

(** The world with the draw of [mrand.Intn] fixed to [d]. *)
Definition with_draw (w : World) (d : nat) : World :=
  {| w_listen := w_listen w; w_accepts := w_accepts w;
     w_accept_err := w_accept_err w; w_certificate := w_certificate w;
     w_http_serve := w_http_serve w; w_dial := w_dial w; w_pipe := w_pipe w;
     w_rack := w_rack w; w_resource_proxy := w_resource_proxy w;
     w_process_proxy := w_process_proxy w; w_stream := w_stream w;
     w_copy := w_copy w; w_process_list := w_process_list w;
     w_intn := λ _, d;
     w_net_pipe := w_net_pipe w; w_upgrade := w_upgrade w;
     w_handshake := w_handshake w; w_errc := w_errc w |}.

Definition dials (ev : event) : bool :=
  match ev with EvDial _ _ => true | _ => false end.

(** The process ids of the tunnels a trace starts. *)
Fixpoint selected (t : list event) : list string :=
  match t with
  | [] => []
  | EvGo (GoServiceProxy _ _ pid _ _) :: r => pid :: selected r
  | _ :: r => selected r
  end.

(** ** Header keys ([net/textproto]) and the WebSocket handshake headers *)

Definition validHeaderFieldByte (c : ascii) : bool :=
  is_alnum c || mem_byte c "!#$%&'*+-.^_`|~".

Fixpoint all_valid (s : string) : bool :=
  match s with
  | EmptyString => true
  | String c r => validHeaderFieldByte c && all_valid r
  end.

Definition canon_byte (upper : bool) (c : ascii) : ascii :=
  if upper && in_range 97 122 c then byte_of_Z (byte_val c - 32)
  else if negb upper && in_range 65 90 c then byte_of_Z (byte_val c + 32)
  else c.

Fixpoint canon_from (upper : bool) (s : string) : string :=
  match s with
  | EmptyString => EmptyString
  | String c r =>
      let c' := canon_byte upper c in
      String c' (canon_from (Ascii.eqb c' "-"%char) r)
  end.

(** [textproto.CanonicalMIMEHeaderKey]: a key of header-field bytes gets an
    upper-case first letter and upper case after each hyphen, lower case
    elsewhere; any other key is returned as it is. *)
Definition CanonicalMIMEHeaderKey (s : string) : string :=
  if all_valid s then canon_from true s else s.

Definition lower_byte (c : ascii) : ascii :=
  if in_range 65 90 c then byte_of_Z (byte_val c + 32) else c.

Fixpoint lower (s : string) : string :=
  match s with
  | EmptyString => EmptyString
  | String c r => String (lower_byte c) (lower r)
  end.

(** Header names are compared without regard to case. *)
Definition same_header (a b : string) : bool := String.eqb (lower a) (lower b).

Definition values (h : Header) (k : string) : list string := default [] (h !! k).

(** [Header.Add]. *)
Definition Header_Add (h : Header) (key value : string) : Header :=
  let k := CanonicalMIMEHeaderKey key in
  <[k := values h k ++ [value]]> h.

(** The six negotiation headers, as the design names them. *)
Definition negotiation_headers : list string :=
  ["Upgrade"; "Connection"; "Sec-WebSocket-Key"; "Sec-WebSocket-Version";
   "Sec-WebSocket-Extensions"; "Sec-WebSocket-Protocol"].

Definition is_negotiation (name : string) : bool :=
  existsb (same_header name) negotiation_headers.

(** The test of the copy loop in [ws]. *)
Definition ws_skip (k : string) : bool :=
  String.eqb k "Upgrade" || String.eqb k "Connection"
  || String.eqb k "Sec-Websocket-Key" || String.eqb k "Sec-Websocket-Version"
  || String.eqb k "Sec-Websocket-Extensions"
  || String.eqb k "Sec-Websocket-Protocol".

Fixpoint add_all (headers : Header) (k : string) (v : list string) : Header :=
  match v with
  | [] => headers
  | s :: r => add_all (Header_Add headers k s) k r
  end.

(** [for k, v := range r.Header]: [entries] is the order in which the range
    yields the entries of the map, which Go leaves unspecified. *)
Fixpoint ws_copy (entries : list (string * list string)) (headers : Header)
    : Header :=
  match entries with
  | [] => headers
  | (k, v) :: rest =>
      if ws_skip k then ws_copy rest headers
      else ws_copy rest (add_all headers k v)
  end.

Definition ws_forwarded (p : Proxy) (r : Request) : Header :=
  Header_Add
    (Header_Add
       (Header_Add ∅ "X-Forwarded-For" (RemoteAddr r))
       "X-Forwarded-Port" (url.Port (Listen p)))
    "X-Forwarded-Proto" (url.Scheme (Listen p)).

(** The headers [ws] hands to the outbound handshake. *)
Definition ws_headers (p : Proxy) (r : Request)
    (entries : list (string * list string)) : Header :=
  ws_copy entries (ws_forwarded p r).

(** What the copy loop adds under key [k], entry by entry. *)
Definition copied (k : string) (entries : list (string * list string))
    : list string :=
  mjoin ((λ kv, if ws_skip (fst kv) then []
                 else if decide (CanonicalMIMEHeaderKey (fst kv) = k)
                      then snd kv else []) <$> entries).

(** The keys of a header map are in canonical form, as they are in every
    request the HTTP server hands to a handler. *)
Definition canonical_keys (h : Header) : bool :=
  forallb (λ kv, String.eqb (CanonicalMIMEHeaderKey (fst kv)) (fst kv))
    (map_to_list h).

(** ** The WebSocket bridge *)

(** [(p *Proxy) ws], the handler it returns, as run by the goroutine that
    serves the request; [entries] as in [ws_copy]. *)
Definition ws (w : World) (ev : Endpoint) (p : Proxy) (app service : string)
    (port : Z) (r : Request) (entries : list (string * list string)) : M unit :=
  match w_upgrade w with
  | Err e => emit EvUpgrade;; emit (EvPrint "ws.upgrader" e)
  | Ok frontend =>
      emit EvUpgrade;;
      let u := url.set_Scheme (url.set_Host (reqURL r) (Host ev)) "wss" in
      let headers := ws_headers p r entries in
      let dial :=
        emit (EvWSDial (urlfmt.String_ u) headers);;
        ws_NetDial w app service port "tcp" (url.Host u);;
        lift (w_handshake w) in
      match outcome dial with
      | Err e => Run (trace dial ++ [EvPrint "ws.dial" e]) (Ok tt)
      | Ok backend =>
          Run (trace dial) (Ok tt);;
          emit (EvGo (GoCopy frontend backend));;
          emit (EvGo (GoCopy backend frontend));;
          emit EvRecv;;
          match w_errc w with
          | Some e => emit (EvPrint "ws.cp" e)
          | None => mret tt
          end
      end
  end.

Fixpoint Conn_eqb (a b : Conn) : bool :=
  match a, b with
  | Sock i, Sock j => Nat.eqb i j
  | NopDeadlineConn a', NopDeadlineConn b' => Conn_eqb a' b'
  | _, _ => false
  end.

(** Whether an event closes connection [c]. *)
Definition closes (c : Conn) (ev : event) : bool :=
  match ev with
  | EvConnClose c' => Conn_eqb c c'
  | _ => false
  end.

(** *** The two copiers and the handler, interleaved *)

Inductive copier : Type :=
  | Copying
  | Finished (err : option error)
  | Exited.

Inductive waiter : Type :=
  | Waiting
  | Returned (first : option error).

(** [errc] is the buffered channel (capacity 2). *)
Record pump := {
  cp_down : copier;
  cp_up : copier;
  errc : list (option error);
  handler : waiter
}.

Definition pump_init : pump :=
  {| cp_down := Copying; cp_up := Copying; errc := []; handler := Waiting |}.

Inductive action : Type :=
  | CopyEnds (down : bool) (err : option error)
  | Sends (down : bool)
  | Receives.

Definition get_cp (down : bool) (s : pump) : copier :=
  if down then cp_down s else cp_up s.

Definition set_cp (down : bool) (c : copier) (s : pump) : pump :=
  if down
  then {| cp_down := c; cp_up := cp_up s; errc := errc s; handler := handler s |}
  else {| cp_down := cp_down s; cp_up := c; errc := errc s; handler := handler s |}.

(** One step of one goroutine; [None] when that goroutine cannot move. *)
Definition pump_step (a : action) (s : pump) : option pump :=
  match a with
  | CopyEnds d err =>
      match get_cp d s with
      | Copying => Some (set_cp d (Finished err) s)
      | _ => None
      end
  | Sends d =>
      match get_cp d s with
      | Finished err =>
          if (length (errc s) <? 2)%nat then
            Some (set_cp d Exited
                    {| cp_down := cp_down s; cp_up := cp_up s;
                       errc := errc s ++ [err]; handler := handler s |})
          else None
      | _ => None
      end
  | Receives =>
      match handler s, errc s with
      | Waiting, err :: rest =>
          Some {| cp_down := cp_down s; cp_up := cp_up s; errc := rest;
                  handler := Returned err |}
      | _, _ => None
      end
  end.

Fixpoint pump_run (sched : list action) (s : pump) : option pump :=
  match sched with
  | [] => Some s
  | a :: r =>
      match pump_step a s with
      | Some s' => pump_run r s'
      | None => None
      end
  end.

Definition exited (c : copier) : bool :=
  match c with Exited => true | _ => false end.

Definition count_exited (s : pump) : nat :=
  ((if exited (cp_down s) then 1 else 0)
   + (if exited (cp_up s) then 1 else 0))%nat.

(** Every result sent is still in the channel or is the one the handler
    received. *)
Definition pump_inv (s : pump) : Prop :=
  count_exited s
  = (length (errc s) + match handler s with Returned _ => 1 | Waiting => 0 end)%nat.

Definition returned (s : pump) : bool :=
  match handler s with Returned _ => true | Waiting => false end.

(** ** Target paths: the three ways a rack target is rejected *)

Inductive ParseErrorKind : Type :=
  | MalformedPath
  | MalformedInstanceSelector
  | UnknownKind.

Definition parse_error_kind (e : error) : option ParseErrorKind :=
  match e with
  | ErrInvalidRackEndpointFor _ | ErrInvalidRackEndpoint => Some MalformedPath
  | ErrInvalidEndpoint _ _ => Some MalformedInstanceSelector
  | ErrUnknownProxyType _ => Some UnknownKind
  | _ => None
  end.

Definition kind_of {A} (r : result A) : option ParseErrorKind :=
  match r with
  | Ok _ => None
  | Err e => parse_error_kind e
  end.

Definition segments (path : string) : list string := Split path "/"%char.
Definition selector_tokens (path : string) : list string :=
  Split (idx (segments path) 3) ":"%char.
Definition kind_segment (path : string) : string := idx (segments path) 2.

(** The messages of the errors, as [fmt.Errorf] builds them; the message of
    the conversion error goes on with its reason (syntax or range). *)
Definition error_message (e : error) : string :=
  match e with
  | ErrAtoi s =>
      "strconv.Atoi: parsing " +:+ str1 dquote +:+ s +:+ str1 dquote
  | ErrProxyExists pi => "proxy already exists for port: " +:+ Itoa pi
  | ErrUnknownListenerScheme s => "unknown listener scheme: " +:+ s
  | ErrInvalidRackEndpointFor t => "invalid rack endpoint: " +:+ urlfmt.String_ t
  | ErrInvalidRackEndpoint => "invalid rack endpoint"
  | ErrInvalidEndpoint kind part2 =>
      "invalid " +:+ kind +:+ " endpoint: " +:+ part2
  | ErrUnknownProxyType kind => "unknown proxy type: " +:+ kind
  | ErrNoProcesses service => "no processes available for service: " +:+ service
  | ErrExternal msg => msg
  end.

(** ** [crypto/sha1] *)

Module sha1.

Definition w32 (x : Z) : Z := x mod 4294967296.

Definition rotl (n : Z) (x : Z) : Z :=
  w32 (Z.lor (Z.shiftl x n) (Z.shiftr x (32 - n))).

Definition not32 (x : Z) : Z := Z.lxor x 4294967295.

Definition be_bytes (nbytes : nat) (x : Z) : list Z :=
  map (λ i, Z.shiftr x (8 * Z.of_nat i) mod 256) (rev (seq 0 nbytes)).

(** The message, a one bit, zeros up to 56 modulo 64, the bit length. *)
Definition pad (msg : list Z) : list Z :=
  let len := Z.of_nat (length msg) in
  msg ++ [128] ++ repeat 0 (Z.to_nat ((55 - len) mod 64)) ++ be_bytes 8 (8 * len).

Fixpoint be_word (bs : list Z) (acc : Z) : Z :=
  match bs with
  | [] => acc
  | b :: r => be_word r (acc * 256 + b)
  end.

Fixpoint words (n : nat) (bs : list Z) : list Z :=
  match n with
  | O => []
  | S k => be_word (take 4 bs) 0 :: words k (drop 4 bs)
  end.

(** The schedule, newest word first. *)
Fixpoint extend (n : nat) (ws : list Z) : list Z :=
  match n with
  | O => ws
  | S k =>
      let x := Z.lxor (Z.lxor (nth 2 ws 0) (nth 7 ws 0))
                 (Z.lxor (nth 13 ws 0) (nth 15 ws 0)) in
      extend k (rotl 1 x :: ws)
  end.

Definition schedule (block : list Z) : list Z :=
  rev (extend 64 (rev (words 16 block))).

Definition state : Type := Z * Z * Z * Z * Z.

Definition round (t : nat) (s : state) (wt : Z) : state :=
  let '(a, b, c, d, e) := s in
  let '(f, k) :=
    if (t <? 20)%nat then
      (Z.lor (Z.land b c) (Z.land (not32 b) d), 1518500249)
    else if (t <? 40)%nat then
      (Z.lxor (Z.lxor b c) d, 1859775393)
    else if (t <? 60)%nat then
      (Z.lor (Z.lor (Z.land b c) (Z.land b d)) (Z.land c d), 2400959708)
    else (Z.lxor (Z.lxor b c) d, 3395469782) in
  (w32 (rotl 5 a + f + e + k + wt), a, rotl 30 b, c, d).

Fixpoint rounds (t : nat) (ws : list Z) (s : state) : state :=
  match ws with
  | [] => s
  | wt :: r => rounds (S t) r (round t s wt)
  end.

Definition block (h : state) (blk : list Z) : state :=
  let '(h0, h1, h2, h3, h4) := h in
  let '(a, b, c, d, e) := rounds 0 (schedule blk) h in
  (w32 (h0 + a), w32 (h1 + b), w32 (h2 + c), w32 (h3 + d), w32 (h4 + e)).

Fixpoint blocks (n : nat) (bs : list Z) (h : state) : state :=
  match n with
  | O => h
  | S k => blocks k (drop 64 bs) (block h (take 64 bs))
  end.

Definition init : state :=
  (1732584193, 4023233417, 2562383102, 271733878, 3285377520).

(** [sha1.Sum]: the 20 bytes of the digest. *)
Definition Sum (data : list Z) : list Z :=
  let padded := pad data in
  let '(h0, h1, h2, h3, h4) := blocks (length padded / 64) padded init in
  be_bytes 4 h0 ++ be_bytes 4 h1 ++ be_bytes 4 h2 ++ be_bytes 4 h3
  ++ be_bytes 4 h4.

End sha1.

(** ** [fmt.Sprintf] verbs used by [BuildHash] *)

Module fmt.

Definition bytes_of (s : string) : list Z := map byte_val (list_ascii_of_string s).

Definition is_lower_hex (c : ascii) : bool :=
  in_range 48 57 c || in_range 97 102 c.

(** [%x] of a byte array. *)
Definition hex_bytes (bs : list Z) : string := concat_strings (hex2 false <$> bs).

(** [strconv.IsPrint] up to U+00FF; above that it is given by the Unicode
    tables, which are the parameter [table]. *)
Definition IsPrint (table : Z → bool) (r : Z) : bool :=
  if r <? 128 then (32 <=? r) && (r <? 127)
  else if r <? 256 then (161 <=? r) && negb (r =? 173)
  else table r.

Definition escape_rune (r : Z) : string :=
  if r =? 7 then String backslash "a"
  else if r =? 8 then String backslash "b"
  else if r =? 12 then String backslash "f"
  else if r =? 10 then String backslash "n"
  else if r =? 13 then String backslash "r"
  else if r =? 9 then String backslash "t"
  else if r =? 11 then String backslash "v"
  else if (r <? 32) || (r =? 127) then String backslash ("x" +:+ hex2 false r)
  else if r <? 65536 then String backslash ("u" +:+ hexN 4 r)
  else String backslash ("U" +:+ hexN 8 r).

(** The body of [strconv.Quote]: the quote and the backslash get a
    backslash, printable runes are copied, an invalid byte is written
    [\xNN], every other rune is escaped. *)
Fixpoint quote_from (table : Z → bool) (s : string) (p : pending) : string :=
  match s with
  | EmptyString => EmptyString
  | String b rest =>
      match p with
      | Keep (S k) => String b (quote_from table rest (Keep k))
      | Drop (S k) => quote_from table rest (Drop k)
      | _ =>
          let '(r, width) := DecodeRuneInString s in
          if Nat.eqb width 1 && (r =? RuneError) then
            String backslash ("x" +:+ hex2 false (byte_val b))
            +:+ quote_from table rest (Keep 0)
          else if (r =? byte_val dquote) || (r =? byte_val backslash) then
            String backslash (str1 b) +:+ quote_from table rest (Keep 0)
          else if IsPrint table r then
            String b (quote_from table rest (Keep (width - 1)))
          else
            escape_rune r +:+ quote_from table rest (Drop (width - 1))
      end
  end.

(** [%q] of a string. *)
Definition q (table : Z → bool) (s : string) : string :=
  String dquote (quote_from table s (Keep 0) +:+ str1 dquote).

(** [%v] of a [[]string]. *)
Definition v_strings (l : list string) : string := "[" +:+ Join l " " +:+ "]".

End fmt.

(** ** The manifest: [Service] and [BuildHash] *)

Record ServiceBuild := {
  Args : list string;
  Path : string
}.

Record Service := {
  Name : string;
  Build : ServiceBuild;
  Environment : list string;
  Image : string;
  Test : string
}.

(** The text [BuildHash] hashes. *)
Definition build_text (table : Z → bool) (s : Service) : string :=
  "build[path=" +:+ fmt.q table (Path (Build s))
  +:+ ", args=" +:+ fmt.v_strings (Args (Build s))
  +:+ "] image=" +:+ fmt.q table (Image s).

(** [(s Service) BuildHash]. *)
Definition BuildHash (table : Z → bool) (s : Service) : string :=
  fmt.hex_bytes (sha1.Sum (fmt.bytes_of (build_text table s))).

(** ** Sample values *)

Module sample.

Definition listen : URL :=
  url.simple "tcp" "0.0.0.0:5000" "".

Definition listen_tls : URL :=
  url.simple "tls" "0.0.0.0:5000" "".

Definition listen_https : URL :=
  url.simple "https" "0.0.0.0:443" "".

Definition listen_other : URL :=
  url.simple "tcp" "0.0.0.0:6000" "".

(** [tcp://rack/myapp/service/web:3000] *)
Definition target_service : URL :=
  url.simple "tcp" "rack" "/myapp/service/web:3000".

(** [tcp://rack/myapp/resource/db:5432] *)
Definition target_resource : URL :=
  url.simple "tcp" "rack" "/myapp/resource/db:5432".

(** [tcp://127.0.0.1:9000] *)
Definition target_direct : URL :=
  url.simple "tcp" "127.0.0.1:9000" "".

Definition with_path (path : string) : URL :=
  url.simple "https" "rack" path.

Definition proxy_to (t : URL) : Proxy :=
  {| Listen := listen; Target := t; endpoint := 0%nat |}.

Definition proxy : Proxy := proxy_to target_service.

Definition endpoint0 : Endpoint := {| Host := "web.myapp.convox"; Proxies := ∅ |}.

(** The endpoint after [proxy] is created on it, two further requests (one
    for another port, one for the same port), and the endpoint after
    them. *)
Definition endpoint1 : Endpoint :=
  snd (NewProxy 0%nat endpoint0 "web.myapp.convox" listen target_service).

Definition requests : list NewProxyArgs :=
  [ {| np_host := "web.myapp.convox"; np_listen := listen_other;
       np_target := target_direct |};
    {| np_host := "web.myapp.convox"; np_listen := listen;
       np_target := target_resource |} ].

Definition endpoint2 : Endpoint :=
  snd (NewProxies 0%nat endpoint1 requests).

Definition processes : list Process :=
  [ {| Id := "p-one" |}; {| Id := "p-two" |}; {| Id := "p-three" |} ].

(** A world in which every call succeeds, three processes are listed and
    the draw is 1. *)
Definition world : World :=
  {| w_listen := λ _, None;
     w_accepts := [Sock 1; Sock 2];
     w_accept_err := ErrExternal "use of closed network connection";
     w_certificate := λ h, Ok {| cert_host := h |};
     w_http_serve := Some (ErrExternal "http: Server closed");
     w_dial := λ _, Ok (Sock 10);
     w_pipe := λ _ _, None;
     w_rack := Ok 7%nat;
     w_resource_proxy := λ _ _, Ok 20%nat;
     w_process_proxy := λ _ _ _, Ok 21%nat;
     w_stream := None;
     w_copy := None;
     w_process_list := λ _ _, Ok processes;
     w_intn := λ _, 1%nat;
     w_net_pipe := (Sock 30, Sock 31);
     w_upgrade := Ok (Sock 40);
     w_handshake := Ok (Sock 41);
     w_errc := None |}.

Definition request : Request :=
  {| RemoteAddr := "10.0.0.9:51234";
     reqURL := url.simple "" "" "/socket";
     reqHeader :=
       <["Upgrade" := ["websocket"]]>
         (<["Connection" := ["Upgrade"]]>
            (<["Sec-Websocket-Key" := ["dGhlIHNhbXBsZSBub25jZQ=="]]>
               (<["Sec-Websocket-Version" := ["13"]]>
                  (<["Cookie" := ["a=1"; "b=2"]]>
                     (<["Origin" := ["https://myapp.example"]]> ∅))))) |}.

Definition service : Service :=
  {| Name := "web";
     Build := {| Args := ["A=1"; "B=2"]; Path := "." |};
     Environment := ["PORT=3000"];
     Image := "";
     Test := "make test" |}.

Definition service' : Service :=
  {| Name := "worker";
     Build := {| Args := ["A=1"; "B=2"]; Path := "." |};
     Environment := [];
     Image := "";
     Test := "" |}.

End sample.

(** ** The reverse proxy's director *)

(** [(p *Proxy) rackDirector]: the request after the director has rewritten
    it; [ev] is the endpoint [p.endpoint] points to. *)
Definition rackDirector (ev : Endpoint) (p : Proxy) (r : Request) : Request :=
  {| RemoteAddr := RemoteAddr r;
     reqURL := url.set_Scheme (url.set_Host (reqURL r) (Host ev))
                 (url.Scheme (Target p));
     reqHeader :=
       Header_Add
         (Header_Add
            (Header_Add (reqHeader r) "X-Forwarded-For" (RemoteAddr r))
            "X-Forwarded-Port" (url.Port (Listen p)))
         "X-Forwarded-Proto" (url.Scheme (Listen p)) |}.

(** ** Readings of a trace *)

Definition serves (ev : event) : bool :=
  match ev with EvHTTPServe _ _ => true | _ => false end.

Definition accepts (ev : event) : bool :=
  match ev with EvAccept _ => true | _ => false end.

Definition issues_certificate (ev : event) : bool :=
  match ev with EvGenerateCertificate _ => true | _ => false end.

Definition closes_listener (ev : event) : bool :=
  match ev with EvListenerClose _ => true | _ => false end.

Definition makes_pipe (ev : event) : bool :=
  match ev with EvNetPipe => true | _ => false end.

Definition closes_any (ev : event) : bool :=
  match ev with EvConnClose _ => true | _ => false end.

(** The copiers among the goroutines a trace starts. *)
Fixpoint copiers (t : list event) : list (Conn * Conn) :=
  match t with
  | [] => []
  | EvGo (GoCopy dst src) :: r => (dst, src) :: copiers r
  | _ :: r => copiers r
  end.

(** The failures a trace reports. *)
Fixpoint printed (t : list event) : list (string * error) :=
  match t with
  | [] => []
  | EvPrint at_ e :: r => (at_, e) :: printed r
  | _ :: r => printed r
  end.

(** ** More sample values *)

Module cases.

Definition listen_udp : URL :=
url.simple "udp" "0.0.0.0:5000" "".

Definition listen_http : URL :=
url.simple "http" "0.0.0.0:80" "".

(** [https://rack/myapp/service] has too few segments. *)
Definition target_short : URL := sample.with_path "/myapp/service".

(** A resource target with segments after the selector and tokens after the
  port, and one whose port token is not a number. *)
Definition target_trailing : URL :=
sample.with_path "/myapp/resource/db:5432:x/more/segments".

Definition target_no_port : URL := sample.with_path "/myapp/resource/db:".

(** A service target whose port token is a name. *)
Definition target_named_port : URL :=
sample.with_path "/myapp/service/web:http".

(** [https://rack/my!app/service/web:3000?a=1&b=2#top] as [url.Parse]
  gives it: the raw path is kept, because [!] is not what an escaped path
  is written with by default. *)
Definition target_parsed : URL :=
{| url.Scheme := "https"; url.Opaque := ""; url.User := None;
   url.Host := "rack"; url.Path := "/my!app/service/web:3000";
   url.RawPath := "/my!app/service/web:3000"; url.OmitHost := false;
   url.ForceQuery := false; url.RawQuery := "a=1&b=2";
   url.Fragment := "top"; url.RawFragment := "" |}.

(** A target with a user and a password. *)
Definition target_user : URL :=
{| url.Scheme := "tcp"; url.Opaque := "";
   url.User := Some {| url.username := "ad min"; url.password := "p@ss";
                       url.passwordSet := true |};
   url.Host := "db:5432"; url.Path := ""; url.RawPath := "";
   url.OmitHost := false; url.ForceQuery := false; url.RawQuery := "";
   url.Fragment := ""; url.RawFragment := "" |}.

(** The sample service target with a query whose last byte, 0xE9, is the
  Latin-1 code of e acute and not valid UTF-8. *)
Definition target_latin1 : URL :=
{| url.Scheme := "tcp"; url.Opaque := ""; url.User := None;
   url.Host := "rack"; url.Path := "/myapp/service/web:3000";
   url.RawPath := ""; url.OmitHost := false; url.ForceQuery := false;
   url.RawQuery := "q=caf" +:+ str1 (byte_of_Z 233);
   url.Fragment := ""; url.RawFragment := "" |}.

(** The sample world without a rack client: [rack.NewFromEnv] fails. *)
Definition world_no_rack : World :=
{| w_listen := w_listen sample.world;
   w_accepts := w_accepts sample.world;
   w_accept_err := w_accept_err sample.world;
   w_certificate := w_certificate sample.world;
   w_http_serve := w_http_serve sample.world;
   w_dial := w_dial sample.world;
   w_pipe := w_pipe sample.world;
   w_rack := Err (ErrExternal "rack: no endpoint in the environment");
   w_resource_proxy := w_resource_proxy sample.world;
   w_process_proxy := w_process_proxy sample.world;
   w_stream := w_stream sample.world;
   w_copy := w_copy sample.world;
   w_process_list := w_process_list sample.world;
   w_intn := w_intn sample.world;
   w_net_pipe := w_net_pipe sample.world;
   w_upgrade := w_upgrade sample.world;
   w_handshake := w_handshake sample.world;
   w_errc := w_errc sample.world |}.

Definition proxy_on (l t : URL) : Proxy :=
{| Listen := l; Target := t; endpoint := 0%nat |}.

Definition request_forwarded : Request :=
{| RemoteAddr := "10.0.0.9:51234";
   reqURL := url.simple "" "" "/index";
   reqHeader :=
     <["X-Forwarded-For" := ["203.0.113.7"]]>
       (<["Accept" := ["text/html"]]> ∅) |}.

Definition service_joined : Service :=
{| Name := "web";
   Build := {| Args := ["A=1 B=2"]; Path := "." |};
   Environment := [];
   Image := "";
   Test := "" |}.

Definition req (l t : URL) : NewProxyArgs :=
{| np_host := "web.myapp.convox"; np_listen := l; np_target := t |}.

End cases.

(** ** Valid UTF-8 ([unicode/utf8]) *)

Module utf8.

(** [utf8.ValidString], rune by rune; [skip] counts the bytes that are
    left of the rune being read. *)
Fixpoint valid_from (s : string) (skip : nat) : bool :=
  match s with
  | EmptyString => true
  | String _ r =>
      match skip with
      | S k => valid_from r k
      | O =>
          let '(c, size) := DecodeRuneInString s in
          negb ((c =? RuneError) && Nat.eqb size 1)
          && valid_from r (size - 1)
      end
  end.

Definition ValidString (s : string) : bool := valid_from s 0.

(** The encoding of U+FFFD. *)
Definition replacement : string :=
  String (byte_of_Z 239) (String (byte_of_Z 191) (String (byte_of_Z 189) "")).

(** [s] with every byte that starts no valid encoding replaced by U+FFFD,
    one replacement per byte. *)
Fixpoint coerce_from (s : string) (skip : nat) : string :=
  match s with
  | EmptyString => EmptyString
  | String b r =>
      match skip with
      | S k => String b (coerce_from r k)
      | O =>
          let '(c, size) := DecodeRuneInString s in
          if (c =? RuneError) && Nat.eqb size 1
          then replacement +:+ coerce_from r 0
          else String b (coerce_from r (size - 1))
      end
  end.

Definition coerce (s : string) : string := coerce_from s 0.

End utf8.

(** ** Reading a JSON text (RFC 8259)

    Not code of the router: the grammar of RFC 8259 for an object whose
    members are strings, used to say what the bytes [MarshalJSON] writes
    denote. A string is given by the UTF-8 encoding of its characters. *)

Module rfc8259.

Definition hexval (c : ascii) : option Z :=
  if in_range 48 57 c then Some (byte_val c - 48)
  else if in_range 97 102 c then Some (byte_val c - 87)
  else if in_range 65 70 c then Some (byte_val c - 55)
  else None.

Definition hex4 (h1 h2 h3 h4 : ascii) : option Z :=
  match hexval h1, hexval h2, hexval h3, hexval h4 with
  | Some a, Some b, Some c, Some d => Some (((a * 16 + b) * 16 + c) * 16 + d)
  | _, _, _, _ => None
  end.

(** The UTF-8 encoding of a code point of the basic plane. *)
Definition utf8_encode (c : Z) : string :=
  if c <? 128 then str1 (byte_of_Z c)
  else if c <? 2048 then
    String (byte_of_Z (192 + c / 64)) (str1 (byte_of_Z (128 + c mod 64)))
  else
    String (byte_of_Z (224 + c / 4096))
      (String (byte_of_Z (128 + (c / 64) mod 64))
         (str1 (byte_of_Z (128 + c mod 64)))).

(** The character a two-character escape stands for. *)
Definition simple_escape (e : ascii) : option ascii :=
  if Ascii.eqb e dquote then Some dquote
  else if Ascii.eqb e backslash then Some backslash
  else if Ascii.eqb e "/"%char then Some "/"%char
  else if Ascii.eqb e "b"%char then Some "008"%char
  else if Ascii.eqb e "f"%char then Some "012"%char
  else if Ascii.eqb e "n"%char then Some "010"%char
  else if Ascii.eqb e "r"%char then Some "013"%char
  else if Ascii.eqb e "t"%char then Some "009"%char
  else None.

Definition prepend (t : string) (o : option (string * string))
    : option (string * string) :=
  match o with
  | Some (v, rest) => Some (t +:+ v, rest)
  | None => None
  end.

(** The characters of a string, after its opening quote and up to its
    closing quote, and the text after it. A control character must be
    escaped; the escape of a surrogate code point is not read. *)
Fixpoint read_chars (s : string) : option (string * string) :=
  match s with
  | EmptyString => None
  | String c r =>
      if Ascii.eqb c dquote then Some (EmptyString, r)
      else if Ascii.eqb c backslash then
        match r with
        | String e r1 =>
            match simple_escape e with
            | Some b => prepend (str1 b) (read_chars r1)
            | None =>
                if Ascii.eqb e "u"%char then
                  match r1 with
                  | String h1 (String h2 (String h3 (String h4 r2))) =>
                      match hex4 h1 h2 h3 h4 with
                      | Some cp =>
                          if (55296 <=? cp) && (cp <=? 57343) then None
                          else prepend (utf8_encode cp) (read_chars r2)
                      | None => None
                      end
                  | _ => None
                  end
                else None
            end
        | EmptyString => None
        end
      else if byte_val c <? 32 then None
      else prepend (str1 c) (read_chars r)
  end.

Definition is_ws (c : ascii) : bool :=
  Ascii.eqb c " "%char || Ascii.eqb c "009"%char
  || Ascii.eqb c "010"%char || Ascii.eqb c "013"%char.

Fixpoint skip_ws (s : string) : string :=
  match s with
  | String c r => if is_ws c then skip_ws r else s
  | EmptyString => EmptyString
  end.

(** A string token, after insignificant whitespace. *)
Definition read_string (s : string) : option (string * string) :=
  match skip_ws s with
  | String c r => if Ascii.eqb c dquote then read_chars r else None
  | EmptyString => None
  end.

(** The members of an object after its opening brace or after a comma, up
    to the closing brace, which must end the text. *)
Fixpoint read_members (fuel : nat) (s : string)
    : option (list (string * string)) :=
  match fuel with
  | O => None
  | S fuel' =>
      match read_string s with
      | Some (key, s1) =>
          match skip_ws s1 with
          | String colon s2 =>
              if Ascii.eqb colon ":"%char then
                match read_string s2 with
                | Some (value, s3) =>
                    match skip_ws s3 with
                    | String sep s4 =>
                        if Ascii.eqb sep ","%char then
                          match read_members fuel' s4 with
                          | Some ms => Some ((key, value) :: ms)
                          | None => None
                          end
                        else if Ascii.eqb sep "}"%char then
                          match skip_ws s4 with
                          | EmptyString => Some [(key, value)]
                          | _ => None
                          end
                        else None
                    | EmptyString => None
                    end
                | None => None
                end
              else None
          | EmptyString => None
          end
      | None => None
      end
  end.

(** The members, in the order of the text, of a JSON text that is an
    object of strings. *)
Definition read_object (s : string) : option (list (string * string)) :=
  match skip_ws s with
  | String c r =>
      if Ascii.eqb c "{"%char then
        match skip_ws r with
        | String c' r' =>
            if Ascii.eqb c' "}"%char then
              match skip_ws r' with
              | EmptyString => Some []
              | _ => None
              end
            else read_members (String.length s) r
        | EmptyString => None
        end
      else None
  | EmptyString => None
  end.

End rfc8259.

(** ** Checks over every byte

    Facts about single bytes and about the bytes of one rune are checked by
    running a boolean test on all of them. *)

Module bytewise.

Definition bytes : list ascii := List.map ascii_of_nat (seq 0 256).

Definition all (P : ascii → bool) : bool := forallb P bytes.

(** [P] on the bytes from [lo] to [hi]. *)
Definition all_in (lo hi : Z) (P : ascii → bool) : bool :=
  forallb (λ b, if in_range lo hi b then P b else true) bytes.

End bytewise.

(** U+2028 and U+2029, the two runes the encoder escapes. *)
Definition is_separator (c : Z) : bool := (c =? 8232) || (c =? 8233).

(** The runes [DecodeRuneInString] computes from two, three and four
    bytes. *)
Definition rune2 (b0 b1 : ascii) : Z :=
  Z.lor (Z.shiftl (Z.land (byte_val b0) 31) 6) (cont b1).

Definition rune3 (b0 b1 b2 : ascii) : Z :=
  Z.lor (Z.shiftl (Z.land (byte_val b0) 15) 12)
    (Z.lor (Z.shiftl (cont b1) 6) (cont b2)).

Definition rune4 (b0 b1 b2 b3 : ascii) : Z :=
  Z.lor (Z.shiftl (Z.land (byte_val b0) 7) 18)
    (Z.lor (Z.shiftl (cont b1) 12) (Z.lor (Z.shiftl (cont b2) 6) (cont b3))).

(** The shapes of a rune that starts with a byte above 0x7F: an invalid
    byte, or two, three or four bytes of which the later ones are above 0x7F;
    only the encodings of U+2028 and U+2029 give these runes. *)
Inductive rune_shape (b : ascii) (r : string) : Z → nat → Prop :=
  | shape_invalid : rune_shape b r RuneError 1
  | shape_two b1 r1 c :
      r = String b1 r1 → (128 <=? byte_val b1) = true →
      is_separator c = false → rune_shape b r c 2
  | shape_three b1 b2 r2 c :
      r = String b1 (String b2 r2) →
      (128 <=? byte_val b1) = true → (128 <=? byte_val b2) = true →
      (is_separator c = true →
       b = byte_of_Z 226 ∧ b1 = byte_of_Z 128
       ∧ (b2 = byte_of_Z 168 ∧ c = 8232 ∨ b2 = byte_of_Z 169 ∧ c = 8233)) →
      rune_shape b r c 3
  | shape_four b1 b2 b3 r3 c :
      r = String b1 (String b2 (String b3 r3)) →
      (128 <=? byte_val b1) = true → (128 <=? byte_val b2) = true →
      (128 <=? byte_val b3) = true →
      is_separator c = false → rune_shape b r c 4.

(** The escape the encoder writes for an ASCII byte it does not copy is one
    the reader takes back to that byte. *)
Definition escape_reads (b : ascii) : bool :=
  implb ((byte_val b <? 128) && negb (json.htmlSafe b))
    match json.escape_ascii b with
    | String c (String e r) =>
        Ascii.eqb c backslash
        && match rfc8259.simple_escape e with
           | Some b' => Ascii.eqb b' b && String.eqb r ""
           | None =>
               Ascii.eqb e "u"%char
               && match r with
                  | String h1 (String h2 (String h3 (String h4 EmptyString))) =>
                      match rfc8259.hex4 h1 h2 h3 h4 with
                      | Some cp =>
                          negb ((55296 <=? cp) && (cp <=? 57343))
                          && String.eqb (rfc8259.utf8_encode cp) (str1 b)
                      | None => false
                      end
                  | _ => false
                  end
           end
    | _ => false
    end.

(** * Properties *)

(** ** The library models, on known values *)

Example Split_examples :
  Split "/myapp/service/web:3000" "/" = [""; "myapp"; "service"; "web:3000"]
  ∧ Split "web:3000" ":" = ["web"; "3000"]
  ∧ Split "" "/" = [""]
  ∧ Split "a//b/" "/" = ["a"; ""; "b"; ""].
Proof. repeat split; reflexivity. Qed.

Example Atoi_examples :
  Atoi "3000" = Some 3000 ∧ Atoi "-7" = Some (-7) ∧ Atoi "+80" = Some 80
  ∧ Atoi "" = None ∧ Atoi "-" = None ∧ Atoi "80a" = None ∧ Atoi "http" = None
  ∧ Atoi "9223372036854775807" = Some max_int
  ∧ Atoi "9223372036854775808" = None.
Proof. repeat split; reflexivity. Qed.

Example url_examples :
  url.Hostname sample.listen = "0.0.0.0" ∧ url.Port sample.listen = "5000"
  ∧ url.Hostname sample.target_service = "rack"
  ∧ url.Port sample.target_service = ""
  ∧ url.splitHostPort "[::1]:8080" = ("::1", "8080")
  ∧ url.splitHostPort "host:name" = ("host:name", "")
  ∧ urlfmt.String_ sample.target_direct = "tcp://127.0.0.1:9000"
  ∧ urlfmt.String_ (sample.with_path "/a b?c") = "https://rack/a%20b%3Fc".
Proof. repeat split; reflexivity. Qed.

Example String_examples :
  urlfmt.String_ cases.target_parsed
  = "https://rack/my!app/service/web:3000?a=1&b=2#top"
  ∧ urlfmt.String_ (url.simple "https" "rack" "/my!app/service/web:3000")
    = "https://rack/my%21app/service/web:3000"
  ∧ urlfmt.String_ cases.target_user = "tcp://ad%20min:p%40ss@db:5432"
  ∧ urlfmt.String_ (url.simple "http" "example.com" "x") = "http://example.com/x"
  ∧ urlfmt.String_ (url.simple "file" "" "/foo") = "file:///foo"
  ∧ urlfmt.String_ (url.simple "" "" "this:that") = "./this:that"
  ∧ urlfmt.String_ (url.simple "" "" "*") = "*"
  ∧ urlfmt.String_ (url.set_Scheme (url.set_Host sample.request.(reqURL)
                                      "web.myapp.convox") "wss")
    = "wss://web.myapp.convox/socket".
Proof. repeat split; reflexivity. Qed.

Example MarshalJSON_examples :
  MarshalJSON (cases.proxy_on sample.listen cases.target_parsed)
  = Ok ("{" +:+ quoted "listen" +:+ ":" +:+ quoted "tcp://0.0.0.0:5000"
        +:+ "," +:+ quoted "target" +:+ ":"
        +:+ quoted "https://rack/my!app/service/web:3000?a=1\u0026b=2#top"
        +:+ "}")
  ∧ rfc8259.read_object
      ("{" +:+ quoted "listen" +:+ ":" +:+ quoted "tcp://0.0.0.0:5000"
       +:+ "," +:+ quoted "target" +:+ ":"
       +:+ quoted "https://rack/my!app/service/web:3000?a=1\u0026b=2#top"
       +:+ "}")
    = Some [("listen", "tcp://0.0.0.0:5000");
            ("target", "https://rack/my!app/service/web:3000?a=1&b=2#top")]
  ∧ rfc8259.read_object "{}" = Some []
  ∧ rfc8259.read_object "{ }x" = None.
Proof. repeat split; vm_compute; reflexivity. Qed.

Example json_string_examples :
  json.encodeString "tcp://rack/web:3000" = quoted "tcp://rack/web:3000"
  ∧ json.encodeString "a<b&c" = quoted "a\u003cb\u0026c"
  ∧ json.encodeString (String "010" (String "200" "")) = quoted "\n\ufffd".
Proof. repeat split; reflexivity. Qed.

Example Canonical_examples :
  CanonicalMIMEHeaderKey "sec-websocket-key" = "Sec-Websocket-Key"
  ∧ CanonicalMIMEHeaderKey "SEC-WEBSOCKET-KEY" = "Sec-Websocket-Key"
  ∧ CanonicalMIMEHeaderKey "Sec-WebSocket-Key" = "Sec-Websocket-Key"
  ∧ CanonicalMIMEHeaderKey "x-forwarded-for" = "X-Forwarded-For"
  ∧ CanonicalMIMEHeaderKey "not a token" = "not a token".
Proof. repeat split; reflexivity. Qed.

Example sha1_vectors :
  fmt.hex_bytes (sha1.Sum (fmt.bytes_of "")) = "da39a3ee5e6b4b0d3255bfef95601890afd80709"
  ∧ fmt.hex_bytes (sha1.Sum (fmt.bytes_of "abc"))
    = "a9993e364706816aba3e25717850c26c9cd0d89d"
  ∧ fmt.hex_bytes
      (sha1.Sum
         (fmt.bytes_of "abcdbcdecdefdefgefghfghighijhijkijkljklmklmnlmnomnopnopq"))
    = "84983e441c3bd26ebaae4aa1f95129e5e54670f1".
Proof. repeat split; vm_compute; reflexivity. Qed.

Example build_text_example :
  build_text (λ _, true) sample.service
  = "build[path=" +:+ quoted "." +:+ ", args=[A=1 B=2]] image=" +:+ quoted "".
Proof. reflexivity. Qed.

Example error_message_examples :
  error_message (ErrProxyExists 5000) = "proxy already exists for port: 5000"
  ∧ error_message (ErrInvalidRackEndpointFor sample.target_direct)
    = "invalid rack endpoint: tcp://127.0.0.1:9000"
  ∧ error_message (ErrInvalidEndpoint "service" "service")
    = "invalid service endpoint: service"
  ∧ error_message (ErrUnknownProxyType "timer") = "unknown proxy type: timer"
  ∧ error_message (ErrUnknownListenerScheme "tls") = "unknown listener scheme: tls".
Proof. repeat split; reflexivity. Qed.

(** ** Endpoint.NewProxy: the port registry *)

Section NewProxy_facts.

Variables (e : EndpointRef).

Lemma NewProxy_ok ev host listen target p ev1 :
  NewProxy e ev host listen target = (Ok p, ev1) →
  ∃ pi, Atoi (url.Port listen) = Some pi
        ∧ Proxies ev !! pi = None
        ∧ p = {| Listen := listen; Target := target; endpoint := e |}
        ∧ ev1 = set_Proxies ev (<[pi := p]> (Proxies ev)).
Proof.
  unfold NewProxy. intros H.
  destruct (Atoi (url.Port listen)) as [pi|]; [|discriminate].
  destruct (Proxies ev !! pi) eqn:Hl; [discriminate|].
  inversion H; subst. exists pi. auto.
Qed.

Lemma NewProxy_taken ev host listen target pi q :
  Atoi (url.Port listen) = Some pi →
  Proxies ev !! pi = Some q →
  NewProxy e ev host listen target = (Err (ErrProxyExists pi), ev).
Proof. unfold NewProxy. intros -> ->. reflexivity. Qed.

(** Whatever the outcome, a port that is taken keeps its proxy. *)
Lemma NewProxy_keeps ev host listen target res ev1 pi q :
  NewProxy e ev host listen target = (res, ev1) →
  Proxies ev !! pi = Some q →
  Proxies ev1 !! pi = Some q.
Proof.
  unfold NewProxy. intros H Hq.
  destruct (Atoi (url.Port listen)) as [pj|]; [|by inversion H; subst].
  destruct (Proxies ev !! pj) eqn:Hl; inversion H; subst; [done|].
  simpl. rewrite lookup_insert_ne; [done|]. intros ->. congruence.
Qed.

Lemma NewProxies_keeps reqs : ∀ ev ress ev1 pi q,
  NewProxies e ev reqs = (ress, ev1) →
  Proxies ev !! pi = Some q →
  Proxies ev1 !! pi = Some q.
Proof.
  induction reqs as [|r rest IH]; simpl; intros ev ress ev1 pi q H Hq.
  - by inversion H; subst.
  - destruct (NewProxy e ev (np_host r) (np_listen r) (np_target r))
      as [res eva] eqn:E1.
    destruct (NewProxies e eva rest) as [ress' evb] eqn:E2.
    inversion H; subst.
    eapply IH; [exact E2|]. eapply NewProxy_keeps; eauto.
Qed.

(** Every proxy a run creates is registered under its own listen port, and
    that port was free before the run. *)
Lemma NewProxies_created reqs : ∀ ev ress ev1 p,
  NewProxies e ev reqs = (ress, ev1) →
  p ∈ created ress →
  ∃ pi, listen_port p = Some pi
        ∧ Proxies ev !! pi = None
        ∧ Proxies ev1 !! pi = Some p.
Proof.
  induction reqs as [|r rest IH]; simpl; intros ev ress ev1 p H Hin.
  - inversion H; subst. simpl in Hin. by apply elem_of_nil in Hin.
  - destruct (NewProxy e ev (np_host r) (np_listen r) (np_target r))
      as [res eva] eqn:E1.
    destruct (NewProxies e eva rest) as [ress' evb] eqn:E2.
    inversion H; subst. destruct res as [p0|err]; simpl in Hin.
    + destruct (NewProxy_ok _ _ _ _ _ _ E1) as (pi & Hat & Hfree & Hp & Hev).
      apply elem_of_cons in Hin as [->|Hin].
      * exists pi. split; [by rewrite Hp|]. split; [done|].
        eapply NewProxies_keeps; [exact E2|].
        rewrite Hev. simpl. apply lookup_insert_eq.
      * destruct (IH _ _ _ _ E2 Hin) as (pj & Hpj & Hfree' & Hreg).
        exists pj. split; [done|]. split; [|done].
        rewrite Hev in Hfree'. simpl in Hfree'.
        apply lookup_insert_None in Hfree'. tauto.
    + destruct (IH _ _ _ _ E2 Hin) as (pj & Hpj & Hfree' & Hreg).
      exists pj. split; [done|]. split; [|done].
      unfold NewProxy in E1.
      destruct (Atoi (url.Port (np_listen r))); [|by inversion E1; subst].
      destruct (Proxies ev !! z); inversion E1; by subst.
Qed.

Lemma NewProxies_ports_NoDup reqs : ∀ ev ress ev1,
  NewProxies e ev reqs = (ress, ev1) →
  NoDup (listen_port <$> created ress).
Proof.
  induction reqs as [|r rest IH]; simpl; intros ev ress ev1 H.
  - inversion H; subst. constructor.
  - destruct (NewProxy e ev (np_host r) (np_listen r) (np_target r))
      as [res eva] eqn:E1.
    destruct (NewProxies e eva rest) as [ress' evb] eqn:E2.
    inversion H; subst. destruct res as [p0|err]; simpl; [|eauto].
    constructor; [|eauto].
    destruct (NewProxy_ok _ _ _ _ _ _ E1) as (pi & Hat & Hfree & Hp & Hev).
    intros Hin. apply list_elem_of_fmap in Hin as (p' & Hp' & Hin').
    destruct (NewProxies_created _ _ _ _ _ E2 Hin') as (pj & Hpj & Hfree' & _).
    assert (listen_port p0 = Some pi) as Hp0 by by rewrite Hp.
    rewrite Hp0 in Hp'. rewrite Hpj in Hp'. inversion Hp'; subst pj.
    rewrite Hev in Hfree'. simpl in Hfree'.
    by rewrite lookup_insert_eq in Hfree'.
Qed.

End NewProxy_facts.

(** C5. Once a proxy is registered on port [pi] of an endpoint, then after
    any further run of creations on that endpoint a creation whose listen
    port is [pi] fails with the port-conflict error and leaves the endpoint
    as it is, the first proxy is still the one registered on [pi], and over
    the whole run no two created proxies share a port: each one is the
    single entry of the port map under its port. *)
Theorem NewProxy_port_conflict
    (e : EndpointRef) (ev ev1 ev2 : Endpoint) (host host' : string)
    (listen target listen' target' : URL) (p1 : Proxy) (pi : Z)
    (reqs : list NewProxyArgs) (ress : list (result Proxy)) :
  NewProxy e ev host listen target = (Ok p1, ev1) →
  Atoi (url.Port listen) = Some pi →
  NewProxies e ev1 reqs = (ress, ev2) →
  Atoi (url.Port listen') = Some pi →
  NewProxy e ev2 host' listen' target' = (Err (ErrProxyExists pi), ev2)
  ∧ Proxies ev1 !! pi = Some p1
  ∧ Proxies ev2 !! pi = Some p1
  ∧ NoDup (listen_port <$> (p1 :: created ress))
  ∧ (∀ p, p ∈ p1 :: created ress →
       ∃ pj, listen_port p = Some pj ∧ Proxies ev2 !! pj = Some p).
Proof.
  intros H1 Hpi Hrun Hpi'.
  pose (all := {| np_host := host; np_listen := listen; np_target := target |}
               :: reqs).
  assert (NewProxies e ev all = (Ok p1 :: ress, ev2)) as Hall.
  { simpl. rewrite H1, Hrun. reflexivity. }
  destruct (NewProxy_ok _ _ _ _ _ _ _ H1) as (pj & Hat & Hfree & Hp & Hev).
  assert (pj = pi) as -> by congruence.
  assert (Proxies ev1 !! pi = Some p1) as Hreg1.
  { rewrite Hev. simpl. apply lookup_insert_eq. }
  assert (Proxies ev2 !! pi = Some p1) as Hreg2.
  { eapply NewProxies_keeps; [exact Hrun | exact Hreg1]. }
  split; [by eapply NewProxy_taken|].
  split; [done|]. split; [done|]. split.
  - apply (NewProxies_ports_NoDup e all ev _ ev2 Hall).
  - intros p Hin.
    destruct (NewProxies_created e all ev _ ev2 p Hall Hin) as (pk & ? & ? & ?).
    eauto.
Qed.

(** ** The monad, unfolded *)

Lemma bind_ok {A B} (m : M A) (f : A → M B) a :
  outcome m = Ok a → mbind f m = Run (trace m ++ trace (f a)) (outcome (f a)).
Proof. unfold mbind, M_bind. intros ->. reflexivity. Qed.

Lemma bind_err {A B} (m : M A) (f : A → M B) e :
  outcome m = Err e → mbind f m = Run (trace m) (Err e).
Proof. unfold mbind, M_bind. intros ->. reflexivity. Qed.

Lemma bind_call_ok {A B} ev (a : A) (f : A → M B) :
  mbind f (call ev (Ok a)) = Run (ev :: trace (f a)) (outcome (f a)).
Proof. reflexivity. Qed.

Lemma bind_call_err {A B} ev e (f : A → M B) :
  mbind f (call ev (Err e : result A)) = Run [ev] (Err e).
Proof. reflexivity. Qed.

Lemma M_eta {A} (m : M A) : Run (trace m) (outcome m) = m.
Proof. by destruct m. Qed.

(** Case analysis on every answer of the world met in the goal. *)
Ltac world_cases :=
  repeat match goal with
         | |- context [match ?x with _ => _ end] =>
             lazymatch x with
             | context [match _ with _ => _ end] => fail
             | _ => destruct x eqn:?; simpl
             end
         end.

(** ** The TCP forwarder *)

Lemma accept_loop_spawned ln accepts aerr target :
  spawned (trace (accept_loop ln accepts aerr target))
  = (λ c, GoProxyRackTCP c target) <$> accepts.
Proof.
  induction accepts as [|c rest IH]; simpl; [reflexivity|].
  unfold mbind, M_bind; simpl. by rewrite IH.
Qed.

Lemma proxyRackTCP_never_dials w cn target :
  existsb dials (trace (proxyRackTCP w cn target)) = false.
Proof.
  unfold proxyRackTCP, defer, rack_NewFromEnv, ResourceProxy, helpers_Stream,
    call, fail, mbind, M_bind, of_err; simpl.
  world_cases; reflexivity.
Qed.

(** C1. What [proxyTCP] does with accepted connections: every one of them is
    handed to a goroutine that runs [proxyRackTCP], whatever the target; that
    goroutine never dials. On the direct target [tcp://127.0.0.1:9000] (its
    host name is not [rack]) it closes the connection and fails with the
    invalid-rack-endpoint error, while [proxyTCPConnection], which nothing
    calls, is the function that dials the target host and pipes the two
    connections. *)
Theorem proxyTCP_direct_target_not_dialed
    (w : World) (ln : Listener) (target : URL) (cn : Conn) :
  spawned (trace (proxyTCP w ln target))
    = (λ c, GoProxyRackTCP c target) <$> w_accepts w
  ∧ existsb dials (trace (run_task w (GoProxyRackTCP cn target))) = false
  ∧ url.Hostname sample.target_direct = "127.0.0.1"
  ∧ run_task w (GoProxyRackTCP cn sample.target_direct)
    = Run [EvConnClose cn] (Err (ErrInvalidRackEndpointFor sample.target_direct))
  ∧ proxyTCPConnection w cn sample.target_direct
    = match w_dial w "127.0.0.1:9000" with
      | Ok oc =>
          Run [EvDial "tcp" "127.0.0.1:9000"; EvPipe cn oc; EvConnClose oc;
               EvConnClose cn] (of_err (w_pipe w cn oc))
      | Err e => Run [EvDial "tcp" "127.0.0.1:9000"; EvConnClose cn] (Err e)
      end.
Proof.
  split; [apply accept_loop_spawned|].
  split; [apply proxyRackTCP_never_dials|].
  split; [reflexivity|]. split; [reflexivity|].
  unfold proxyTCPConnection, defer, net_Dial, helpers_Pipe, call, mbind, M_bind.
  simpl. destruct (w_dial w "127.0.0.1:9000"); reflexivity.
Qed.

(** ** Proxy.Serve *)

(** C2. [Serve] on a proxy whose listen URL has scheme [tls], whatever its
    other fields: once the listener
    is bound and the certificate issued, the call closes the listener and
    returns the unknown-listener-scheme error for [tls]; it never accepts a
    connection. The full outcome, by the answers of listen and certificate
    issuance. *)
Theorem Serve_tls_unknown_scheme
    (w : World) (ev : Endpoint) (listen target : URL) (e : EndpointRef) :
  Serve w ev {| Listen := url.set_Scheme listen "tls";
                Target := target; endpoint := e |}
  = match w_listen w (url.Host listen) with
    | Some err => Run [EvListen "tcp" (url.Host listen)] (Err err)
    | None =>
        Run [EvListen "tcp" (url.Host listen);
             EvGenerateCertificate (Host ev);
             EvListenerClose (TCPListener (url.Host listen))]
          (match w_certificate w (Host ev) with
           | Err err => Err err
           | Ok _ => Err (ErrUnknownListenerScheme "tls")
           end)
    end.
Proof.
  unfold Serve, defer, net_Listen, generateCertificate, call, fail, mbind,
    M_bind, mret, M_ret; simpl.
  destruct (w_listen w (url.Host listen)); simpl; [reflexivity|].
  destruct (w_certificate w (Host ev)); reflexivity.
Qed.

(** ** Rack targets: kinds and rejections *)

Section rack_target.

Variables (w : World) (cn : Conn) (p : Proxy).

Let path := url.Path (Target p).
Let kind := kind_segment path.
Let app := idx (segments path) 1.
Let name := idx (selector_tokens path) 0.
Let port := idx (selector_tokens path) 1.

Lemma proxyRackHTTP_short :
  (length (segments path) < 4)%nat →
  proxyRackHTTP p = Err ErrInvalidRackEndpoint.
Proof.
  intros H. unfold proxyRackHTTP. fold path. unfold segments in H.
  apply Nat.ltb_lt in H. by rewrite H.
Qed.

Lemma proxyRackTCP_short :
  (length (segments path) < 4)%nat →
  proxyRackTCP w cn (Target p)
  = Run [EvConnClose cn] (Err (ErrInvalidRackEndpointFor (Target p))).
Proof.
  intros H. unfold proxyRackTCP. fold path. unfold segments in H.
  apply Nat.ltb_lt in H. by rewrite H.
Qed.

Lemma proxyRackHTTP_selector :
  (4 ≤ length (segments path))%nat →
  (length (selector_tokens path) < 2)%nat →
  proxyRackHTTP p = Err (ErrInvalidEndpoint kind kind).
Proof.
  intros H4 H2. unfold proxyRackHTTP. fold path.
  unfold selector_tokens, segments in *.
  apply Nat.ltb_ge in H4. apply Nat.ltb_lt in H2. by rewrite H4, H2.
Qed.

Lemma proxyRackTCP_selector :
  (4 ≤ length (segments path))%nat →
  (length (selector_tokens path) < 2)%nat →
  proxyRackTCP w cn (Target p)
  = Run [EvConnClose cn] (Err (ErrInvalidEndpoint kind kind)).
Proof.
  intros H4 H2. unfold proxyRackTCP. fold path.
  unfold selector_tokens, segments in *.
  apply Nat.ltb_ge in H4. apply Nat.ltb_lt in H2. by rewrite H4, H2.
Qed.

(** Past the two length checks, [proxyRackHTTP] is decided by the port
    token and the kind. *)
Lemma proxyRackHTTP_long :
  (4 ≤ length (segments path))%nat →
  (2 ≤ length (selector_tokens path))%nat →
  proxyRackHTTP p
  = match Atoi port with
    | None => Err (ErrAtoi port)
    | Some pi =>
        if String.eqb kind "service" then
          Ok (Handle
                (Handle NewRouter
                   {| route_path := "/{path:.*}"; route_methods := ["GET"];
                      route_headers := [("Upgrade", "websocket")] |}
                   (WebsocketHandler p app name pi))
                {| route_path := "/{path:.*}"; route_methods := [];
                   route_headers := [] |}
                (ReverseProxy (RackDirector p) (ServiceTransport app name pi)))
        else Err (ErrUnknownProxyType kind)
    end.
Proof.
  intros H4 H2. unfold proxyRackHTTP. fold path.
  unfold selector_tokens, segments in *.
  apply Nat.ltb_ge in H4. apply Nat.ltb_ge in H2. by rewrite H4, H2.
Qed.

(** Past the two length checks, [proxyRackTCP] is decided by the rack
    client and the kind. *)
Lemma proxyRackTCP_long :
  (4 ≤ length (segments path))%nat →
  (2 ≤ length (selector_tokens path))%nat →
  proxyRackTCP w cn (Target p)
  = match w_rack w with
    | Err e => Run [EvRackNewFromEnv; EvConnClose cn] (Err e)
    | Ok _ =>
        if String.eqb kind "resource" then
          match w_resource_proxy w app name with
          | Err e =>
              Run [EvRackNewFromEnv; EvResourceProxy app name cn;
                   EvConnClose cn] (Err e)
          | Ok pr =>
              Run [EvRackNewFromEnv; EvResourceProxy app name cn;
                   EvStream cn pr; EvStreamClose pr; EvConnClose cn]
                (of_err (w_stream w))
          end
        else Run [EvRackNewFromEnv; EvConnClose cn]
               (Err (ErrUnknownProxyType kind))
    end.
Proof.
  intros H4 H2. unfold proxyRackTCP. fold path.
  unfold selector_tokens, segments in *.
  apply Nat.ltb_ge in H4. apply Nat.ltb_ge in H2. rewrite H4, H2.
  unfold defer, rack_NewFromEnv, ResourceProxy, helpers_Stream, call, fail,
    mbind, M_bind; simpl.
  destruct (w_rack w); simpl; [|reflexivity].
  fold path. unfold kind, kind_segment, segments.
  destruct (String.eqb (idx (Split path "/") 2) "resource"); simpl;
    [|reflexivity].
  unfold app, name, selector_tokens, segments.
  destruct (w_resource_proxy w _ _); reflexivity.
Qed.

(** A tunnel is opened only for a well-formed [resource] path, and for the
    application and resource the path names. *)
Lemma proxyRackTCP_tunnel a r c :
  EvResourceProxy a r c ∈ trace (proxyRackTCP w cn (Target p)) →
  (4 ≤ length (segments path))%nat
  ∧ (2 ≤ length (selector_tokens path))%nat
  ∧ kind = "resource" ∧ a = app ∧ r = name ∧ c = cn.
Proof.
  destruct (Nat.lt_ge_cases (length (segments path)) 4) as [H4|H4].
  { rewrite (proxyRackTCP_short H4). simpl. intros H.
    apply list_elem_of_singleton in H. discriminate. }
  destruct (Nat.lt_ge_cases (length (selector_tokens path)) 2) as [H2|H2].
  { rewrite (proxyRackTCP_selector H4 H2). simpl. intros H.
    apply list_elem_of_singleton in H. discriminate. }
  rewrite (proxyRackTCP_long H4 H2).
  assert (∀ l, EvResourceProxy a r c ∈ EvResourceProxy app name cn :: l →
               (∀ a' r' c', EvResourceProxy a' r' c' ∉ l) →
               a = app ∧ r = name ∧ c = cn) as Hhead.
  { intros l H Hl. apply elem_of_cons in H as [H|H]; [|by apply Hl in H].
    by injection H as -> -> ->. }
  destruct (w_rack w); simpl.
  - destruct (String.eqb_spec kind "resource") as [Hk|Hk].
    + intros H. split; [done|]. split; [done|]. split; [done|].
      destruct (w_resource_proxy w app name); simpl in H;
        apply elem_of_cons in H as [H|H]; try discriminate H;
        (eapply Hhead; [exact H|]);
        intros a' r' c' Hin;
        repeat (apply elem_of_cons in Hin as [Hin|Hin]; [discriminate Hin|]);
        by apply elem_of_nil in Hin.
    + intros H.
      repeat (apply elem_of_cons in H as [H|H]; [discriminate H|]).
      by apply elem_of_nil in H.
  - intros H.
    repeat (apply elem_of_cons in H as [H|H]; [discriminate H|]).
    by apply elem_of_nil in H.
Qed.

End rack_target.

(** C9, as the code has it. For a rack target whose path has at least four
    segments and whose selector has at least two tokens. The TCP forwarder,
    once the rack client is there, accepts only kind [resource], for which
    it requests the resource tunnel of the path's application and name (the
    whole run is given), and fails every other kind, [service] included,
    with the unknown-proxy-type error; without a rack client it fails with
    the error of the client, whatever the kind. The HTTP forwarder, when the
    port token is an integer, accepts only kind [service], for which it
    returns its router for the path's application, name and port, and fails
    every other kind, [resource] included, with the unknown-proxy-type error;
    when the port token is not an integer it fails with the conversion
    error, whatever the kind. *)
Theorem rack_kinds_disjoint (w : World) (cn : Conn) (p : Proxy) :
  let path := url.Path (Target p) in
  let kind := kind_segment path in
  let app := idx (segments path) 1 in
  let name := idx (selector_tokens path) 0 in
  let port := idx (selector_tokens path) 1 in
  (4 ≤ length (segments path))%nat →
  (2 ≤ length (selector_tokens path))%nat →
  (∀ r, w_rack w = Ok r → kind ≠ "resource" →
     proxyRackTCP w cn (Target p)
     = Run [EvRackNewFromEnv; EvConnClose cn] (Err (ErrUnknownProxyType kind)))
  ∧ (∀ r, w_rack w = Ok r → kind = "resource" →
     proxyRackTCP w cn (Target p)
     = match w_resource_proxy w app name with
       | Err e =>
           Run [EvRackNewFromEnv; EvResourceProxy app name cn; EvConnClose cn]
             (Err e)
       | Ok pr =>
           Run [EvRackNewFromEnv; EvResourceProxy app name cn;
                EvStream cn pr; EvStreamClose pr; EvConnClose cn]
             (of_err (w_stream w))
       end)
  ∧ (∀ e, w_rack w = Err e →
     proxyRackTCP w cn (Target p)
     = Run [EvRackNewFromEnv; EvConnClose cn] (Err e))
  ∧ (∀ pi, Atoi port = Some pi → kind ≠ "service" →
     proxyRackHTTP p = Err (ErrUnknownProxyType kind))
  ∧ (∀ pi, Atoi port = Some pi → kind = "service" →
     proxyRackHTTP p
     = Ok (Handle
             (Handle NewRouter
                {| route_path := "/{path:.*}"; route_methods := ["GET"];
                   route_headers := [("Upgrade", "websocket")] |}
                (WebsocketHandler p app name pi))
             {| route_path := "/{path:.*}"; route_methods := [];
                route_headers := [] |}
             (ReverseProxy (RackDirector p) (ServiceTransport app name pi))))
  ∧ (Atoi port = None → proxyRackHTTP p = Err (ErrAtoi port)).
Proof.
  intros path kind app name port H4 H2.
  pose proof (proxyRackTCP_long w cn p H4 H2) as HT.
  pose proof (proxyRackHTTP_long p H4 H2) as HH.
  fold path in HT, HH. fold kind in HT, HH. fold app in HT, HH.
  fold name in HT, HH. fold port in HH.
  split; [|split; [|split; [|split; [|split]]]].
  - intros r Hr Hk. rewrite HT, Hr. apply String.eqb_neq in Hk. by rewrite Hk.
  - intros r Hr Hk. rewrite HT, Hr, Hk. by rewrite String.eqb_refl.
  - intros e He. by rewrite HT, He.
  - intros pi Hpi Hk. rewrite HH, Hpi. apply String.eqb_neq in Hk.
    by rewrite Hk.
  - intros pi Hpi Hk. rewrite HH, Hpi, Hk. by rewrite String.eqb_refl.
  - intros Hpi. by rewrite HH, Hpi.
Qed.

(** The two kinds, each on the forwarder that rejects it and on the one that
    takes it; a service target whose port token is a name is still rejected
    as an unknown type by the TCP forwarder. *)
Lemma rack_kinds_disjoint_witness :
  proxyRackTCP sample.world (Sock 1) sample.target_service
  = Run [EvRackNewFromEnv; EvConnClose (Sock 1)]
      (Err (ErrUnknownProxyType "service"))
  ∧ proxyRackTCP sample.world (Sock 1) cases.target_named_port
    = Run [EvRackNewFromEnv; EvConnClose (Sock 1)]
        (Err (ErrUnknownProxyType "service"))
  ∧ proxyRackHTTP (sample.proxy_to sample.target_resource)
    = Err (ErrUnknownProxyType "resource")
  ∧ proxyRackTCP sample.world (Sock 1) sample.target_resource
    = Run [EvRackNewFromEnv; EvResourceProxy "myapp" "db" (Sock 1);
           EvStream (Sock 1) 20%nat; EvStreamClose 20%nat;
           EvConnClose (Sock 1)] (Ok tt)
  ∧ proxyRackHTTP (sample.proxy_to sample.target_service)
    = Ok (Handle
            (Handle NewRouter
               {| route_path := "/{path:.*}"; route_methods := ["GET"];
                  route_headers := [("Upgrade", "websocket")] |}
               (WebsocketHandler (sample.proxy_to sample.target_service)
                  "myapp" "web" 3000))
            {| route_path := "/{path:.*}"; route_methods := [];
               route_headers := [] |}
            (ReverseProxy (RackDirector (sample.proxy_to sample.target_service))
               (ServiceTransport "myapp" "web" 3000))).
Proof.
  assert (4 ≤ 4)%nat as H4 by lia. assert (2 ≤ 2)%nat as H2 by lia.
  destruct (rack_kinds_disjoint sample.world (Sock 1)
              (sample.proxy_to sample.target_service) H4 H2)
    as (A & _ & _ & _ & E & _).
  destruct (rack_kinds_disjoint sample.world (Sock 1)
              (sample.proxy_to cases.target_named_port) H4 H2)
    as (A' & _).
  destruct (rack_kinds_disjoint sample.world (Sock 1)
              (sample.proxy_to sample.target_resource) H4 H2)
    as (_ & B & _ & D & _).
  split; [apply (A 7%nat); [reflexivity|discriminate]|].
  split; [apply (A' 7%nat); [reflexivity|discriminate]|].
  split; [apply (D 5432); [reflexivity|discriminate]|].
  split; [apply (B 7%nat); reflexivity|].
  apply (E 3000); reflexivity.
Defined.

(** What the claim leaves out. With kind [resource] and an empty port token
    the HTTP forwarder fails with the conversion error, not with the
    unknown-proxy-type error; with kind [service] and no rack client the TCP
    forwarder fails with the error of the client; and a path whose third
    segment is [service] but which has no fourth is rejected by the TCP
    forwarder as a malformed path. *)
Lemma rack_kinds_counterexample :
  (length (segments "/myapp/resource/db:") = 4%nat
   ∧ length (selector_tokens "/myapp/resource/db:") = 2%nat
   ∧ kind_segment "/myapp/resource/db:" = "resource"
   ∧ proxyRackHTTP (sample.proxy_to cases.target_no_port) = Err (ErrAtoi "")
   ∧ kind_of (proxyRackHTTP (sample.proxy_to cases.target_no_port))
     ≠ Some UnknownKind)
  ∧ (length (segments (url.Path sample.target_service)) = 4%nat
     ∧ length (selector_tokens (url.Path sample.target_service)) = 2%nat
     ∧ kind_segment (url.Path sample.target_service) = "service"
     ∧ proxyRackTCP cases.world_no_rack (Sock 1) sample.target_service
       = Run [EvRackNewFromEnv; EvConnClose (Sock 1)]
           (Err (ErrExternal "rack: no endpoint in the environment"))
     ∧ kind_of (outcome (proxyRackTCP cases.world_no_rack (Sock 1)
                           sample.target_service))
       ≠ Some UnknownKind)
  ∧ (length (segments "/myapp/service") = 3%nat
     ∧ kind_segment "/myapp/service" = "service"
     ∧ proxyRackTCP sample.world (Sock 1) cases.target_short
       = Run [EvConnClose (Sock 1)]
           (Err (ErrInvalidRackEndpointFor cases.target_short))
     ∧ kind_of (outcome (proxyRackTCP sample.world (Sock 1)
                           cases.target_short))
       ≠ Some UnknownKind).
Proof. repeat split; try reflexivity; discriminate. Qed.

(** C4, as the code has it. On both rack forwarders a target path is
    rejected as a malformed path when it has fewer than four segments;
    otherwise as a malformed selector when its fourth segment has fewer than
    two tokens; otherwise, when its kind is neither [service] nor [resource],
    as an unknown kind on the TCP forwarder once the rack client is there,
    and on the HTTP forwarder when the port token is an integer, a port token
    that is not one being reported first, as the conversion error. A handler
    is returned, and a tunnel requested, only for a path that passes every
    check, and only with the application, name and port the path holds. *)
Theorem rack_target_rejections (w : World) (cn : Conn) (p : Proxy) :
  let path := url.Path (Target p) in
  let kind := kind_segment path in
  let app := idx (segments path) 1 in
  let name := idx (selector_tokens path) 0 in
  let port := idx (selector_tokens path) 1 in
  ((length (segments path) < 4)%nat →
     kind_of (proxyRackHTTP p) = Some MalformedPath
     ∧ kind_of (outcome (proxyRackTCP w cn (Target p))) = Some MalformedPath)
  ∧ ((4 ≤ length (segments path))%nat →
     (length (selector_tokens path) < 2)%nat →
     kind_of (proxyRackHTTP p) = Some MalformedInstanceSelector
     ∧ kind_of (outcome (proxyRackTCP w cn (Target p)))
       = Some MalformedInstanceSelector)
  ∧ ((4 ≤ length (segments path))%nat →
     (2 ≤ length (selector_tokens path))%nat →
     kind ≠ "service" → kind ≠ "resource" →
     (∀ r, w_rack w = Ok r →
        kind_of (outcome (proxyRackTCP w cn (Target p))) = Some UnknownKind)
     ∧ (∀ pi, Atoi port = Some pi →
        kind_of (proxyRackHTTP p) = Some UnknownKind)
     ∧ (Atoi port = None → proxyRackHTTP p = Err (ErrAtoi port)))
  ∧ (∀ h, proxyRackHTTP p = Ok h →
     (4 ≤ length (segments path))%nat
     ∧ (2 ≤ length (selector_tokens path))%nat
     ∧ kind = "service"
     ∧ ∃ pi, Atoi port = Some pi
        ∧ h = Handle
                (Handle NewRouter
                   {| route_path := "/{path:.*}"; route_methods := ["GET"];
                      route_headers := [("Upgrade", "websocket")] |}
                   (WebsocketHandler p app name pi))
                {| route_path := "/{path:.*}"; route_methods := [];
                   route_headers := [] |}
                (ReverseProxy (RackDirector p) (ServiceTransport app name pi)))
  ∧ (∀ a r c,
     EvResourceProxy a r c ∈ trace (proxyRackTCP w cn (Target p)) →
     (4 ≤ length (segments path))%nat
     ∧ (2 ≤ length (selector_tokens path))%nat
     ∧ kind = "resource" ∧ a = app ∧ r = name ∧ c = cn).
Proof.
  intros path kind app name port.
  split; [|split; [|split; [|split]]].
  - intros H. rewrite (proxyRackHTTP_short p H), (proxyRackTCP_short w cn p H).
    by split.
  - intros H4 H2.
    rewrite (proxyRackHTTP_selector p H4 H2), (proxyRackTCP_selector w cn p H4 H2).
    by split.
  - intros H4 H2 Hs Hr.
    rewrite (proxyRackHTTP_long p H4 H2), (proxyRackTCP_long w cn p H4 H2).
    fold path kind app name port.
    apply String.eqb_neq in Hs, Hr. rewrite Hs, Hr.
    split; [|split].
    + by intros r ->.
    + by intros pi ->.
    + by intros ->.
  - intros h Hh.
    destruct (Nat.lt_ge_cases (length (segments path)) 4) as [H4|H4].
    { rewrite (proxyRackHTTP_short p H4) in Hh. discriminate. }
    destruct (Nat.lt_ge_cases (length (selector_tokens path)) 2) as [H2|H2].
    { rewrite (proxyRackHTTP_selector p H4 H2) in Hh. discriminate. }
    rewrite (proxyRackHTTP_long p H4 H2) in Hh. fold path kind app name port in Hh.
    destruct (Atoi port) as [pi|]; [|discriminate].
    destruct (String.eqb_spec kind "service") as [Hk|Hk]; [|discriminate].
    inversion Hh; subst h. eauto 10.
  - intros a r c. apply proxyRackTCP_tunnel.
Qed.

(** Three paths, one per rejection, and the accepted one. *)
Lemma rack_target_rejections_witness :
  kind_of (proxyRackHTTP (sample.proxy_to (sample.with_path "/myapp/service")))
    = Some MalformedPath
  ∧ kind_of (proxyRackHTTP
               (sample.proxy_to (sample.with_path "/myapp/service/web")))
    = Some MalformedInstanceSelector
  ∧ kind_of (proxyRackHTTP
               (sample.proxy_to (sample.with_path "/myapp/timer/web:3000")))
    = Some UnknownKind
  ∧ kind_of (outcome (proxyRackTCP sample.world (Sock 1)
                        (sample.with_path "/myapp/timer/web:3000")))
    = Some UnknownKind.
Proof.
  pose proof (rack_target_rejections sample.world (Sock 1)
                (sample.proxy_to (sample.with_path "/myapp/service")))
    as (A & _).
  pose proof (rack_target_rejections sample.world (Sock 1)
                (sample.proxy_to (sample.with_path "/myapp/service/web")))
    as (_ & B & _).
  pose proof (rack_target_rejections sample.world (Sock 1)
                (sample.proxy_to (sample.with_path "/myapp/timer/web:3000")))
    as (_ & _ & C & _).
  assert (3 < 4)%nat as H3 by lia. assert (4 ≤ 4)%nat as H4 by lia.
  assert (1 < 2)%nat as H1 by lia. assert (2 ≤ 2)%nat as H2 by lia.
  split; [apply (A H3)|].
  split; [apply (B H4 H1)|].
  destruct (C H4 H2) as (C1 & C2 & _); [discriminate|discriminate|].
  split; [apply (C2 3000); reflexivity|].
  apply (C1 7%nat); reflexivity.
Defined.

(** The rejection the claim misses: the kind [timer] is neither [service]
    nor [resource], the path has its four segments and the selector its two
    tokens, and the HTTP forwarder fails with the conversion error of the
    port token [http], which is not the unknown-kind error. *)
Lemma proxyRackHTTP_unknown_kind_counterexample :
  length (segments "/myapp/timer/web:http") = 4%nat
  ∧ length (selector_tokens "/myapp/timer/web:http") = 2%nat
  ∧ kind_segment "/myapp/timer/web:http" = "timer"
  ∧ proxyRackHTTP (sample.proxy_to (sample.with_path "/myapp/timer/web:http"))
    = Err (ErrAtoi "http")
  ∧ kind_of (proxyRackHTTP
               (sample.proxy_to (sample.with_path "/myapp/timer/web:http")))
    ≠ Some UnknownKind.
Proof. repeat split; try reflexivity. discriminate. Qed.

(** ** Backend selection *)

Section selection.

Variables (w : World) (app service : string) (port : Z)
          (network address : string) (r : Rack) (pss : list Process).
Hypothesis rack_ok : w_rack w = Ok r.
Hypothesis listed : w_process_list w app service = Ok pss.

Lemma DialContext_empty :
  pss = [] →
  serviceTransport_DialContext w app service port network address
  = Run [EvRackNewFromEnv; EvProcessList app service]
      (Err (ErrNoProcesses service)).
Proof.
  intros ->. unfold serviceTransport_DialContext, rack_NewFromEnv, ProcessList.
  rewrite rack_ok, bind_call_ok, listed, bind_call_ok. reflexivity.
Qed.

Lemma NetDial_empty :
  pss = [] →
  ws_NetDial w app service port network address
  = Run [EvRackNewFromEnv; EvProcessList app service]
      (Err (ErrNoProcesses service)).
Proof.
  intros ->. unfold ws_NetDial, rack_NewFromEnv, ProcessList.
  rewrite rack_ok, bind_call_ok, listed, bind_call_ok. reflexivity.
Qed.

Lemma pick_nonempty ps :
  pss !! w_intn w (length pss) = Some ps → (length pss <? 1)%nat = false.
Proof.
  intros H. apply Nat.ltb_ge. apply lookup_lt_Some in H. lia.
Qed.

Lemma DialContext_pick ps :
  pss !! w_intn w (length pss) = Some ps →
  serviceTransport_DialContext w app service port network address
  = Run [EvRackNewFromEnv; EvProcessList app service; EvIntn (length pss);
         EvNetPipe;
         EvGo (GoServiceProxy r app (Id ps) port (fst (w_net_pipe w)))]
      (Ok (snd (w_net_pipe w))).
Proof.
  intros H. unfold serviceTransport_DialContext, rack_NewFromEnv, ProcessList.
  rewrite rack_ok, bind_call_ok, listed, bind_call_ok.
  rewrite (pick_nonempty _ H). unfold Intn. rewrite bind_call_ok.
  unfold process_at. rewrite H. reflexivity.
Qed.

Lemma NetDial_pick ps :
  pss !! w_intn w (length pss) = Some ps →
  ws_NetDial w app service port network address
  = Run [EvRackNewFromEnv; EvProcessList app service; EvIntn (length pss);
         EvNetPipe;
         EvGo (GoServiceProxy r app (Id ps) port (fst (w_net_pipe w)))]
      (Ok (NopDeadlineConn (snd (w_net_pipe w)))).
Proof.
  intros H. unfold ws_NetDial, rack_NewFromEnv, ProcessList.
  rewrite rack_ok, bind_call_ok, listed, bind_call_ok.
  rewrite (pick_nonempty _ H). unfold Intn. rewrite bind_call_ok.
  unfold process_at. rewrite H. reflexivity.
Qed.

End selection.

(** As the draw goes through its values, a function of the draw that returns
    the element at the drawn position goes through the list. *)
Lemma over_draws {A B} (f : nat → B) (g : A → B) (l : list A) :
  (∀ i x, l !! i = Some x → f i = g x) →
  f <$> seq 0 (length l) = g <$> l.
Proof.
  intros H. apply list_eq. intros i. rewrite !list_lookup_fmap.
  destruct (l !! i) as [x|] eqn:Hi; simpl.
  - rewrite lookup_seq_lt; [|by eapply lookup_lt_Some]. simpl.
    f_equal. by apply H.
  - rewrite lookup_seq_ge; [done|]. by apply lookup_ge_None.
Qed.

(** C3. Resolving a service backend, on the HTTP transport and on the
    WebSocket dialer alike, with the rack client available and [pss] the
    listed processes. When the list is empty the call fails with the
    no-processes error after the single list query: no draw, no pipe, no
    tunnel, no second query. Otherwise it queries once, draws once in
    [Intn(len(pss))] and starts one tunnel, to the process at the drawn
    position. As the draw takes its [len(pss)] values the selected process
    goes through the list, position by position: every listed instance is
    the choice of exactly one of the equally likely draws. Each call does
    its own query and draw. *)
Theorem backend_selection
    (w : World) (app service : string) (port : Z) (network address : string)
    (r : Rack) (pss : list Process) :
  w_rack w = Ok r →
  w_process_list w app service = Ok pss →
  (pss = [] →
     serviceTransport_DialContext w app service port network address
     = Run [EvRackNewFromEnv; EvProcessList app service]
         (Err (ErrNoProcesses service))
     ∧ ws_NetDial w app service port network address
       = Run [EvRackNewFromEnv; EvProcessList app service]
           (Err (ErrNoProcesses service)))
  ∧ (∀ ps, pss !! w_intn w (length pss) = Some ps →
     serviceTransport_DialContext w app service port network address
     = Run [EvRackNewFromEnv; EvProcessList app service; EvIntn (length pss);
            EvNetPipe;
            EvGo (GoServiceProxy r app (Id ps) port (fst (w_net_pipe w)))]
         (Ok (snd (w_net_pipe w)))
     ∧ ws_NetDial w app service port network address
       = Run [EvRackNewFromEnv; EvProcessList app service; EvIntn (length pss);
              EvNetPipe;
              EvGo (GoServiceProxy r app (Id ps) port (fst (w_net_pipe w)))]
           (Ok (NopDeadlineConn (snd (w_net_pipe w)))))
  ∧ (λ d, selected (trace (serviceTransport_DialContext (with_draw w d)
                             app service port network address)))
      <$> seq 0 (length pss)
    = (λ ps, [Id ps]) <$> pss
  ∧ (λ d, selected (trace (ws_NetDial (with_draw w d)
                             app service port network address)))
      <$> seq 0 (length pss)
    = (λ ps, [Id ps]) <$> pss.
Proof.
  intros Hr Hl.
  split; [|split; [|split]].
  - intros He. split.
    + by apply DialContext_empty with (r := r) (pss := pss).
    + by apply NetDial_empty with (r := r) (pss := pss).
  - intros ps Hps. split.
    + by apply DialContext_pick with (pss := pss).
    + by apply NetDial_pick with (pss := pss).
  - apply over_draws. intros i ps Hi.
    rewrite (DialContext_pick (with_draw w i) app service port network address
               r pss Hr Hl ps Hi).
    reflexivity.
  - apply over_draws. intros i ps Hi.
    rewrite (NetDial_pick (with_draw w i) app service port network address
               r pss Hr Hl ps Hi).
    reflexivity.
Qed.

(** Three processes listed and the draw 1: the second one is tunnelled to;
    over the three draws, the three in turn. *)
Lemma backend_selection_witness :
  serviceTransport_DialContext sample.world "myapp" "web" 3000 "tcp" "rack:80"
  = Run [EvRackNewFromEnv; EvProcessList "myapp" "web"; EvIntn 3; EvNetPipe;
         EvGo (GoServiceProxy 7%nat "myapp" "p-two" 3000 (Sock 30))]
      (Ok (Sock 31))
  ∧ (λ d, selected (trace (serviceTransport_DialContext
                             (with_draw sample.world d)
                             "myapp" "web" 3000 "tcp" "rack:80")))
      <$> seq 0 3
    = [["p-one"]; ["p-two"]; ["p-three"]].
Proof.
  destruct (backend_selection sample.world "myapp" "web" 3000 "tcp" "rack:80"
              7%nat sample.processes eq_refl eq_refl) as (_ & A & B & _).
  split.
  - apply (A {| Id := "p-two" |}). reflexivity.
  - exact B.
Defined.

(** ** Header keys *)

Lemma valid_lower_byte c :
  validHeaderFieldByte (lower_byte c) = validHeaderFieldByte c.
Proof. by destruct c as [[] [] [] [] [] [] [] []]. Qed.

Lemma canon_lower_byte u c : canon_byte u (lower_byte c) = canon_byte u c.
Proof. by destruct u, c as [[] [] [] [] [] [] [] []]. Qed.

Lemma all_valid_lower s : all_valid (lower s) = all_valid s.
Proof.
  induction s as [|c s IH]; simpl; [done|].
  by rewrite valid_lower_byte, IH.
Qed.

Lemma canon_from_lower s : ∀ u, canon_from u (lower s) = canon_from u s.
Proof.
  induction s as [|c s IH]; intros u; simpl; [done|].
  by rewrite canon_lower_byte, IH.
Qed.

(** On keys made of header-field bytes the canonical form does not depend on
    the case the key is written in. *)
Lemma Canonical_same_header a b :
  all_valid b = true → same_header a b = true →
  CanonicalMIMEHeaderKey a = CanonicalMIMEHeaderKey b.
Proof.
  unfold same_header, CanonicalMIMEHeaderKey. intros Hb Hab.
  apply String.eqb_eq in Hab.
  assert (all_valid a = true) as Ha.
  { by rewrite <-all_valid_lower, Hab, all_valid_lower. }
  rewrite Ha, Hb.
  by rewrite <-(canon_from_lower a), Hab, canon_from_lower.
Qed.

(** In whatever case a negotiation header is written, the key it is stored
    under is one the copy loop skips. *)
Lemma negotiation_skipped n :
  is_negotiation n = true → ws_skip (CanonicalMIMEHeaderKey n) = true.
Proof.
  unfold is_negotiation, negotiation_headers. simpl.
  rewrite !orb_true_iff.
  intros [H|[H|[H|[H|[H|[H|H]]]]]]; try discriminate H;
    (apply Canonical_same_header in H; [by rewrite H|reflexivity]).
Qed.

(** The keys the copy loop skips are negotiation headers. *)
Lemma skipped_negotiation k : ws_skip k = true → is_negotiation k = true.
Proof.
  unfold ws_skip. rewrite !orb_true_iff.
  intros [[[[[H|H]|H]|H]|H]|H]; apply String.eqb_eq in H; by subst k.
Qed.

(** ** Header maps *)

Lemma lookup_Header_Add h key v k :
  Header_Add h key v !! k
  = if decide (CanonicalMIMEHeaderKey key = k)
    then Some (values h k ++ [v]) else h !! k.
Proof.
  unfold Header_Add. rewrite lookup_insert. by case_decide; subst.
Qed.

Lemma values_Header_Add h key v k :
  values (Header_Add h key v) k
  = if decide (CanonicalMIMEHeaderKey key = k)
    then values h k ++ [v] else values h k.
Proof.
  unfold values at 1. rewrite lookup_Header_Add. by case_decide.
Qed.

Lemma values_add_all vs : ∀ h key k,
  values (add_all h key vs) k
  = if decide (CanonicalMIMEHeaderKey key = k)
    then values h k ++ vs else values h k.
Proof.
  induction vs as [|v vs IH]; intros h key k; simpl.
  - case_decide; [by rewrite app_nil_r|done].
  - rewrite IH, values_Header_Add. case_decide; [|done].
    by rewrite <-app_assoc.
Qed.

Lemma lookup_add_all_None vs : ∀ h key k,
  h !! k = None → CanonicalMIMEHeaderKey key ≠ k →
  add_all h key vs !! k = None.
Proof.
  induction vs as [|v vs IH]; intros h key k Hh Hk; simpl; [done|].
  apply IH; [|done]. rewrite lookup_Header_Add. by case_decide.
Qed.

Lemma values_ws_copy entries : ∀ h k,
  values (ws_copy entries h) k = values h k ++ copied k entries.
Proof.
  induction entries as [|[k' vs] rest IH]; intros h k; simpl.
  - by rewrite app_nil_r.
  - unfold copied; simpl. fold (copied k rest).
    destruct (ws_skip k'); [by rewrite IH|].
    rewrite IH, values_add_all. case_decide; [by rewrite app_assoc|done].
Qed.

Lemma lookup_ws_copy_None entries : ∀ h k,
  h !! k = None →
  (∀ k' vs, (k', vs) ∈ entries → ws_skip k' = false →
            CanonicalMIMEHeaderKey k' ≠ k) →
  ws_copy entries h !! k = None.
Proof.
  induction entries as [|[k' vs] rest IH]; intros h k Hh Hent; simpl; [done|].
  assert (∀ k'' vs', (k'', vs') ∈ rest → ws_skip k'' = false →
                     CanonicalMIMEHeaderKey k'' ≠ k) as Hrest.
  { intros k'' vs' Hin. apply (Hent k'' vs'). apply elem_of_cons. by right. }
  destruct (ws_skip k') eqn:Hs; [by apply IH|].
  apply IH; [|done]. apply lookup_add_all_None; [done|].
  apply (Hent k' vs); [|done]. apply elem_of_cons. by left.
Qed.

Lemma values_ws_forwarded p r :
  values (ws_forwarded p r) "X-Forwarded-For" = [RemoteAddr r]
  ∧ values (ws_forwarded p r) "X-Forwarded-Port" = [url.Port (Listen p)]
  ∧ values (ws_forwarded p r) "X-Forwarded-Proto" = [url.Scheme (Listen p)].
Proof.
  unfold ws_forwarded. rewrite !values_Header_Add.
  repeat split; reflexivity.
Qed.

Lemma lookup_ws_forwarded_None p r k :
  is_negotiation k = true → ws_forwarded p r !! k = None.
Proof.
  intros Hk. unfold ws_forwarded. rewrite !lookup_Header_Add.
  repeat case_decide; subst; try discriminate Hk.
  apply lookup_empty.
Qed.

Lemma canonical_keys_entries h entries k vs :
  canonical_keys h = true → entries ≡ₚ map_to_list h →
  (k, vs) ∈ entries → CanonicalMIMEHeaderKey k = k.
Proof.
  unfold canonical_keys. intros Hc Hp Hin.
  rewrite forallb_forall in Hc. rewrite Hp in Hin.
  apply list_elem_of_In in Hin. apply Hc in Hin.
  by apply String.eqb_eq in Hin.
Qed.

(** The bridge, once the inbound connection is upgraded, hands the headers
    of [ws_headers] to the outbound handshake. *)
Lemma ws_dials_with_headers w ev p app service port r entries frontend :
  w_upgrade w = Ok frontend →
  ∃ rest,
    trace (ws w ev p app service port r entries)
    = EvUpgrade
      :: EvWSDial
           (urlfmt.String_
              {| url.Scheme := "wss";
                 url.Opaque := url.Opaque (reqURL r);
                 url.User := url.User (reqURL r);
                 url.Host := Host ev;
                 url.Path := url.Path (reqURL r);
                 url.RawPath := url.RawPath (reqURL r);
                 url.OmitHost := url.OmitHost (reqURL r);
                 url.ForceQuery := url.ForceQuery (reqURL r);
                 url.RawQuery := url.RawQuery (reqURL r);
                 url.Fragment := url.Fragment (reqURL r);
                 url.RawFragment := url.RawFragment (reqURL r) |})
           (ws_headers p r entries)
      :: rest.
Proof.
  intros Hup. unfold ws. rewrite Hup.
  set (u := urlfmt.String_ _).
  set (nd := ws_NetDial w app service port "tcp" _).
  unfold emit, lift, mbind, M_bind; simpl.
  destruct (outcome nd) eqn:Hnd; simpl.
  - destruct (w_handshake w); simpl; eauto.
  - eauto.
Qed.

(** C6. The headers the WebSocket bridge gives to the outbound handshake,
    for a request whose header keys are in the canonical form in which the
    HTTP server stores them, and for every order in which the header map is
    ranged over. They are the ones the bridge dials with; none of their keys
    is one of the six negotiation headers, compared without regard to case;
    in whatever case the inbound request spells a negotiation header, the key
    it is stored under is skipped; every value of every other inbound header
    is there under its key; and the three [X-Forwarded-*] headers are there
    with the remote address, the listen port and the listen scheme. *)
Theorem ws_handshake_headers
    (w : World) (ev : Endpoint) (p : Proxy) (app service : string) (port : Z)
    (r : Request) (entries : list (string * list string)) :
  entries ≡ₚ map_to_list (reqHeader r) →
  canonical_keys (reqHeader r) = true →
  let headers := ws_headers p r entries in
  (∀ frontend, w_upgrade w = Ok frontend →
     ∃ rest,
       trace (ws w ev p app service port r entries)
       = EvUpgrade
         :: EvWSDial
              (urlfmt.String_
                 {| url.Scheme := "wss";
                    url.Opaque := url.Opaque (reqURL r);
                    url.User := url.User (reqURL r);
                    url.Host := Host ev;
                    url.Path := url.Path (reqURL r);
                    url.RawPath := url.RawPath (reqURL r);
                    url.OmitHost := url.OmitHost (reqURL r);
                    url.ForceQuery := url.ForceQuery (reqURL r);
                    url.RawQuery := url.RawQuery (reqURL r);
                    url.Fragment := url.Fragment (reqURL r);
                    url.RawFragment := url.RawFragment (reqURL r) |})
              headers
         :: rest)
  ∧ (∀ k, is_negotiation k = true → headers !! k = None)
  ∧ (∀ n, is_negotiation n = true → ws_skip (CanonicalMIMEHeaderKey n) = true)
  ∧ (∀ k vs v, reqHeader r !! k = Some vs → is_negotiation k = false →
       v ∈ vs → v ∈ values headers k)
  ∧ RemoteAddr r ∈ values headers "X-Forwarded-For"
  ∧ url.Port (Listen p) ∈ values headers "X-Forwarded-Port"
  ∧ url.Scheme (Listen p) ∈ values headers "X-Forwarded-Proto".
Proof.
  intros Hperm Hcanon headers.
  destruct (values_ws_forwarded p r) as (Hfor & Hport & Hproto).
  split; [|split; [|split; [|split; [|split; [|split]]]]].
  - intros frontend. apply ws_dials_with_headers.
  - intros k Hk. unfold headers, ws_headers.
    apply lookup_ws_copy_None; [by apply lookup_ws_forwarded_None|].
    intros k' vs Hin Hskip Heq.
    pose proof (canonical_keys_entries _ _ _ _ Hcanon Hperm Hin) as Hc.
    rewrite Hc in Heq. subst k'.
    apply negotiation_skipped in Hk. rewrite Hc in Hk. congruence.
  - apply negotiation_skipped.
  - intros k vs v Hk Hneg Hv. unfold headers, ws_headers.
    rewrite values_ws_copy. apply elem_of_app. right.
    assert ((k, vs) ∈ entries) as Hin.
    { rewrite Hperm. by apply elem_of_map_to_list. }
    pose proof (canonical_keys_entries _ _ _ _ Hcanon Hperm Hin) as Hc.
    assert (ws_skip k = false) as Hskip.
    { destruct (ws_skip k) eqn:Hs; [|done].
      apply skipped_negotiation in Hs. congruence. }
    unfold copied. apply list_elem_of_join. exists vs. split; [done|].
    apply list_elem_of_fmap. exists (k, vs). split; [|done].
    simpl. rewrite Hskip. by case_decide.
  - unfold headers, ws_headers. rewrite values_ws_copy, Hfor.
    apply elem_of_cons. by left.
  - unfold headers, ws_headers. rewrite values_ws_copy, Hport.
    apply elem_of_cons. by left.
  - unfold headers, ws_headers. rewrite values_ws_copy, Hproto.
    apply elem_of_cons. by left.
Qed.

(** An upgrade request with its negotiation headers, a cookie and an
    origin. *)
Lemma ws_handshake_headers_witness :
  ws_headers sample.proxy sample.request
    (map_to_list (reqHeader sample.request)) !! "Sec-Websocket-Key" = None
  ∧ ws_headers sample.proxy sample.request
      (map_to_list (reqHeader sample.request)) !! "UPGRADE" = None
  ∧ "b=2" ∈ values (ws_headers sample.proxy sample.request
                      (map_to_list (reqHeader sample.request))) "Cookie"
  ∧ "10.0.0.9:51234"
    ∈ values (ws_headers sample.proxy sample.request
                (map_to_list (reqHeader sample.request))) "X-Forwarded-For".
Proof.
  assert (canonical_keys (reqHeader sample.request) = true) as Hc
    by (vm_compute; reflexivity).
  destruct (ws_handshake_headers sample.world sample.endpoint0 sample.proxy
              "myapp" "web" 3000 sample.request
              (map_to_list (reqHeader sample.request))
              (reflexivity _) Hc) as (_ & A & _ & B & C & _).
  split; [apply A; reflexivity|].
  split; [apply A; reflexivity|].
  split; [|exact C].
  apply (B "Cookie" ["a=1"; "b=2"]); [vm_compute; reflexivity|reflexivity|].
  apply elem_of_cons; right. apply elem_of_cons; by left.
Defined.

(** ** The duplex pump of the WebSocket bridge *)

Lemma pump_step_inv a s s' :
  pump_inv s → pump_step a s = Some s' → pump_inv s'.
Proof.
  unfold pump_inv, count_exited.
  destruct s as [dn up ch h]. destruct a as [[] err|[]|]; simpl.
  - destruct dn; intros Hi [= <-]; simpl in *; done.
  - destruct up; intros Hi [= <-]; simpl in *; done.
  - destruct dn; try discriminate.
    destruct (length ch <? 2)%nat; intros Hi [= <-]; simpl in *.
    rewrite length_app. simpl. lia.
  - destruct up; try discriminate.
    destruct (length ch <? 2)%nat; intros Hi [= <-]; simpl in *.
    rewrite length_app. simpl. lia.
  - destruct h; try discriminate. destruct ch; intros Hi [= <-]; simpl in *.
    lia.
Qed.

Lemma pump_run_inv sched : ∀ s s',
  pump_inv s → pump_run sched s = Some s' → pump_inv s'.
Proof.
  induction sched as [|a rest IH]; simpl; intros s s' Hi Hr.
  - by inversion Hr; subst.
  - destruct (pump_step a s) as [s1|] eqn:Hs; [|discriminate].
    eapply IH; [|exact Hr]. by eapply pump_step_inv.
Qed.

Lemma pump_init_inv : pump_inv pump_init.
Proof. reflexivity. Qed.

(** The handler has returned only if a copier has sent its result. *)
Lemma returned_after_exit sched s :
  pump_run sched pump_init = Some s → returned s = true →
  exited (cp_down s) || exited (cp_up s) = true.
Proof.
  intros Hr Hret. pose proof (pump_run_inv _ _ _ pump_init_inv Hr) as Hi.
  unfold pump_inv, count_exited, returned in *.
  destruct (handler s); [discriminate|].
  destruct (exited (cp_down s)), (exited (cp_up s)); simpl in *; try done; lia.
Qed.

(** A copier that has finished can always send: the channel has room. *)
Lemma send_never_blocks sched s d err :
  pump_run sched pump_init = Some s → get_cp d s = Finished err →
  is_Some (pump_step (Sends d) s).
Proof.
  intros Hr Hc. pose proof (pump_run_inv _ _ _ pump_init_inv Hr) as Hi.
  unfold pump_inv, count_exited in Hi. unfold pump_step. rewrite Hc.
  assert (length (errc s) < 2)%nat as Hlen.
  { destruct d; simpl in Hc; rewrite Hc in Hi; simpl in Hi;
      destruct (exited _), (handler s); simpl in Hi; lia. }
  apply Nat.ltb_lt in Hlen. rewrite Hlen. eauto.
Qed.

Lemma ws_NetDial_never_closes w app service port network address c :
  existsb (closes c) (trace (ws_NetDial w app service port network address))
  = false.
Proof.
  unfold ws_NetDial, rack_NewFromEnv, ProcessList, Intn, net_Pipe, process_at,
    call, fail, lift, emit, mbind, M_bind, mret, M_ret; simpl.
  world_cases; reflexivity.
Qed.

Lemma ws_never_closes w ev p app service port r entries c :
  existsb (closes c) (trace (ws w ev p app service port r entries)) = false.
Proof.
  pose proof (ws_NetDial_never_closes w app service port "tcp" (Host ev) c)
    as Hnd.
  unfold ws. set (nd := ws_NetDial w app service port "tcp" _) in *.
  simpl in nd. fold nd.
  unfold emit, lift, mbind, M_bind, mret, M_ret; simpl.
  destruct (w_upgrade w); simpl; [|reflexivity].
  destruct (outcome nd); simpl.
  - destruct (w_handshake w); simpl; rewrite ?app_nil_r, ?existsb_app, ?Hnd;
      simpl; [|reflexivity].
    destruct (w_errc w); simpl; rewrite ?existsb_app, ?Hnd; reflexivity.
  - rewrite ?existsb_app, ?Hnd; reflexivity.
Qed.

(** C7. The pump of the WebSocket bridge. The handler returns as soon as one
    copier has sent its result, with the other still copying, and never
    before one has; a copier that has finished is never blocked on the
    channel. But on no path does the handler close a connection: its trace
    holds no close of any connection, and in the run where upgrade, dial and
    handshake succeed it ends with the receive, both connections open.
    [proxyTCPConnection], for comparison, closes the dialed and the accepted
    connection after its pump. *)
Theorem ws_pump_returns_without_closing
    (w : World) (ev : Endpoint) (p : Proxy) (app service : string) (port : Z)
    (r : Request) (entries : list (string * list string)) (c : Conn) :
  (∀ d err,
     pump_run [CopyEnds d err; Sends d; Receives] pump_init
     = Some (set_cp d Exited
               {| cp_down := Copying; cp_up := Copying; errc := [];
                  handler := Returned err |}))
  ∧ (∀ sched s, pump_run sched pump_init = Some s → returned s = true →
       exited (cp_down s) || exited (cp_up s) = true)
  ∧ (∀ sched s d err, pump_run sched pump_init = Some s →
       get_cp d s = Finished err → is_Some (pump_step (Sends d) s))
  ∧ existsb (closes c) (trace (ws w ev p app service port r entries)) = false
  ∧ trace (ws sample.world sample.endpoint0 sample.proxy "myapp" "web" 3000
             sample.request entries)
    = [EvUpgrade;
       EvWSDial "wss://web.myapp.convox/socket"
         (ws_headers sample.proxy sample.request entries);
       EvRackNewFromEnv; EvProcessList "myapp" "web"; EvIntn 3; EvNetPipe;
       EvGo (GoServiceProxy 7%nat "myapp" "p-two" 3000 (Sock 30));
       EvGo (GoCopy (Sock 40) (Sock 41)); EvGo (GoCopy (Sock 41) (Sock 40));
       EvRecv]
  ∧ trace (proxyTCPConnection sample.world c sample.target_direct)
    = [EvDial "tcp" "127.0.0.1:9000"; EvPipe c (Sock 10);
       EvConnClose (Sock 10); EvConnClose c].
Proof.
  split; [by intros [] err|].
  split; [apply returned_after_exit|].
  split; [apply send_never_blocks|].
  split; [apply ws_never_closes|].
  split; reflexivity.
Qed.

(** ** Proxy.MarshalJSON *)

Lemma sorted_entries_listen_target l t :
  json.sorted_entries (<["target" := t]> (<["listen" := l]> ∅))
  = [("listen", l); ("target", t)].
Proof. vm_compute. reflexivity. Qed.

Lemma string_app_cons x (a b : string) : String x a +:+ b = String x (a +:+ b).
Proof. reflexivity. Qed.

Lemma string_app_assoc (a b c : string) : (a +:+ b) +:+ c = a +:+ b +:+ c.
Proof.
  induction a as [|x a IH]; [reflexivity|].
  rewrite !string_app_cons. f_equal. exact IH.
Qed.

Lemma appendString_safe s :
  forallb json.htmlSafe (list_ascii_of_string s) = true →
  json.appendString_from s (Keep 0) = s.
Proof.
  induction s as [|b s IH]; simpl; [done|].
  intros H. apply andb_true_iff in H as [Hb Hs].
  assert ((byte_val b <? 128) = true) as ->.
  { unfold json.htmlSafe, in_range in Hb. apply Z.ltb_lt.
    apply andb_true_iff in Hb as [Hb _]. apply andb_true_iff in Hb as [_ Hb].
    apply Z.leb_le in Hb. lia. }
  rewrite Hb. unfold str1. rewrite string_app_cons. change ("" +:+ ?x) with x.
  by rewrite IH.
Qed.

(** *** Every byte, for checks by enumeration *)

Lemma all_bytes (P : ascii → bool) :
  bytewise.all P = true → ∀ b, P b = true.
Proof.
  unfold bytewise.all, bytewise.bytes.
  intros H b. rewrite forallb_forall in H. apply H.
  rewrite <- (ascii_nat_embedding b). apply in_map. apply in_seq.
  pose proof (nat_ascii_bounded b). lia.
Qed.

Lemma all_bytes_in lo hi (P : ascii → bool) :
  bytewise.all_in lo hi P = true → ∀ b, in_range lo hi b = true → P b = true.
Proof.
  intros H b Hb. pose proof (all_bytes _ H b) as H'. cbn beta in H'.
  by rewrite Hb in H'.
Qed.

Ltac by_bytes := apply all_bytes; vm_compute; reflexivity.

(** *** The encoder, one rune at a time *)

Lemma appendString_keep b r k :
  json.appendString_from (String b r) (Keep (S k))
  = String b (json.appendString_from r (Keep k)).
Proof. reflexivity. Qed.

Lemma appendString_drop b r k :
  json.appendString_from (String b r) (Drop (S k))
  = json.appendString_from r (Drop k).
Proof. reflexivity. Qed.

Lemma appendString_drop0 s :
  json.appendString_from s (Drop 0) = json.appendString_from s (Keep 0).
Proof. destruct s; reflexivity. Qed.

Lemma appendString_ascii b r :
  (byte_val b <? 128) = true →
  json.appendString_from (String b r) (Keep 0)
  = (if json.htmlSafe b then str1 b else json.escape_ascii b)
    +:+ json.appendString_from r (Keep 0).
Proof. intros H. cbn [json.appendString_from]. by rewrite H. Qed.

Lemma appendString_rune b r :
  (byte_val b <? 128) = false →
  json.appendString_from (String b r) (Keep 0)
  = let '(c, size) := DecodeRuneInString (String b r) in
    if (c =? RuneError) && Nat.eqb size 1 then
      String backslash "ufffd" +:+ json.appendString_from r (Keep 0)
    else if (c =? 8232) || (c =? 8233) then
      String backslash ("u202" +:+ str1 (hex_digit false (Z.land c 15)))
      +:+ json.appendString_from r (Drop (size - 1))
    else String b (json.appendString_from r (Keep (size - 1))).
Proof. intros H. cbn [json.appendString_from]. by rewrite H. Qed.

(** *** The reader on what the encoder writes *)

Lemma read_chars_plain b x :
  ((32 <=? byte_val b) && negb (Ascii.eqb b dquote)
   && negb (Ascii.eqb b backslash)) = true →
  rfc8259.read_chars (String b x)
  = rfc8259.prepend (str1 b) (rfc8259.read_chars x).
Proof.
  intros H. apply andb_true_iff in H as [H H3].
  apply andb_true_iff in H as [H1 H2].
  apply negb_true_iff in H2, H3. apply Z.leb_le in H1.
  cbn [rfc8259.read_chars]. rewrite H2, H3.
  assert ((byte_val b <? 32) = false) as -> by (apply Z.ltb_ge; lia).
  reflexivity.
Qed.

Lemma safe_plain : ∀ b,
  implb (json.htmlSafe b)
    ((32 <=? byte_val b) && negb (Ascii.eqb b dquote)
     && negb (Ascii.eqb b backslash)) = true.
Proof. by_bytes. Qed.

Lemma high_plain : ∀ b,
  implb (128 <=? byte_val b)
    ((32 <=? byte_val b) && negb (Ascii.eqb b dquote)
     && negb (Ascii.eqb b backslash)) = true.
Proof. by_bytes. Qed.

Lemma read_chars_safe b x :
  json.htmlSafe b = true →
  rfc8259.read_chars (String b x)
  = rfc8259.prepend (str1 b) (rfc8259.read_chars x).
Proof.
  intros H. apply read_chars_plain. pose proof (safe_plain b) as Hb.
  by rewrite H in Hb.
Qed.

Lemma read_chars_high b x :
  (128 <=? byte_val b) = true →
  rfc8259.read_chars (String b x)
  = rfc8259.prepend (str1 b) (rfc8259.read_chars x).
Proof.
  intros H. apply read_chars_plain. pose proof (high_plain b) as Hb.
  by rewrite H in Hb.
Qed.

(** The escape of an ASCII byte that is not written as it is reads back as
    that byte. The check runs the reader on the escape followed by a closing
    quote; [read_chars_tail] carries it over to any text. *)
Lemma escape_reads_all : ∀ b, escape_reads b = true.
Proof. by_bytes. Qed.

Lemma read_chars_escape b x :
  (byte_val b <? 128) = true → json.htmlSafe b = false →
  rfc8259.read_chars (json.escape_ascii b +:+ x)
  = rfc8259.prepend (str1 b) (rfc8259.read_chars x).
Proof.
  intros Hlt Hsafe. pose proof (escape_reads_all b) as H.
  unfold escape_reads in H. rewrite Hlt, Hsafe in H. cbn [negb andb implb] in H.
  destruct (json.escape_ascii b) as [|c [|e r]]; try discriminate.
  apply andb_true_iff in H as [Hc H]. apply Ascii.eqb_eq in Hc. subst c.
  rewrite !string_app_cons. cbn [rfc8259.read_chars].
  change (Ascii.eqb backslash dquote) with false.
  change (Ascii.eqb backslash backslash) with true. cbn iota.
  destruct (rfc8259.simple_escape e) as [b'|].
  - apply andb_true_iff in H as [Hb Hr]. apply Ascii.eqb_eq in Hb.
    apply String.eqb_eq in Hr. subst b' r. reflexivity.
  - apply andb_true_iff in H as [He H]. rewrite He.
    destruct r as [|h1 [|h2 [|h3 [|h4 [|]]]]]; try discriminate.
    rewrite !string_app_cons. change ("" +:+ x) with x.
    destruct (rfc8259.hex4 h1 h2 h3 h4) as [cp|]; [|discriminate].
    apply andb_true_iff in H as [Hs Hu]. apply negb_true_iff in Hs.
    rewrite Hs. apply String.eqb_eq in Hu. by rewrite Hu.
Qed.

(** *** What [DecodeRuneInString] says about the bytes of a rune *)

Lemma rune2_check :
  bytewise.all_in 194 223 (λ b0,
    bytewise.all_in 128 191 (λ b1, negb (is_separator (rune2 b0 b1)))) = true.
Proof. vm_compute. reflexivity. Qed.

Lemma rune2_not_separator b0 b1 :
  in_range 194 223 b0 = true → in_range 128 191 b1 = true →
  is_separator (rune2 b0 b1) = false.
Proof.
  intros H0 H1.
  pose proof (all_bytes_in _ _ _ rune2_check b0 H0) as H. cbn beta in H.
  pose proof (all_bytes_in _ _ _ H b1 H1) as H'. cbn beta in H'. clear H.
  apply negb_true_iff. exact H'.
Qed.

Lemma rune3_check :
  bytewise.all_in 224 239 (λ b0,
    bytewise.all_in 128 191 (λ b1,
      bytewise.all_in 128 191 (λ b2,
        implb (is_separator (rune3 b0 b1 b2))
          (Ascii.eqb b0 (byte_of_Z 226) && Ascii.eqb b1 (byte_of_Z 128)
           && ((Ascii.eqb b2 (byte_of_Z 168) && (rune3 b0 b1 b2 =? 8232))
               || (Ascii.eqb b2 (byte_of_Z 169)
                   && (rune3 b0 b1 b2 =? 8233))))))) = true.
Proof. vm_compute. reflexivity. Qed.

Lemma rune3_separator b0 b1 b2 :
  in_range 224 239 b0 = true → in_range 128 191 b1 = true →
  in_range 128 191 b2 = true →
  is_separator (rune3 b0 b1 b2) = true →
  b0 = byte_of_Z 226 ∧ b1 = byte_of_Z 128
  ∧ (b2 = byte_of_Z 168 ∧ rune3 b0 b1 b2 = 8232
     ∨ b2 = byte_of_Z 169 ∧ rune3 b0 b1 b2 = 8233).
Proof.
  intros H0 H1 H2 Hs.
  pose proof (all_bytes_in _ _ _ rune3_check b0 H0) as Ha. cbn beta in Ha.
  pose proof (all_bytes_in _ _ _ Ha b1 H1) as Hb. cbn beta in Hb. clear Ha.
  pose proof (all_bytes_in _ _ _ Hb b2 H2) as H3. cbn beta in H3. clear Hb.
  rewrite Hs in H3. cbn [implb] in H3.
  apply andb_true_iff in H3 as [H3 H4]. apply andb_true_iff in H3 as [Ha Hb].
  apply Ascii.eqb_eq in Ha, Hb. split; [exact Ha|]. split; [exact Hb|].
  apply orb_true_iff in H4 as [H4|H4]; apply andb_true_iff in H4 as [Hc Hd];
    apply Ascii.eqb_eq in Hc; apply Z.eqb_eq in Hd; [left|right];
    (split; [exact Hc|exact Hd]).
Qed.

Lemma lor_not_separator a b :
  0 ≤ a → 0 ≤ b → 65536 ≤ a → is_separator (Z.lor a b) = false.
Proof.
  intros Ha Hb Hlarge.
  assert (16 ≤ Z.log2 (Z.lor a b)) as Hlog.
  { rewrite Z.log2_lor by assumption.
    pose proof (Z.log2_le_mono 65536 a Hlarge) as H.
    change (Z.log2 65536) with 16 in H. lia. }
  unfold is_separator.
  destruct (Z.eqb_spec (Z.lor a b) 8232) as [E|_].
  { rewrite E in Hlog. change (Z.log2 8232) with 13 in Hlog. lia. }
  destruct (Z.eqb_spec (Z.lor a b) 8233) as [E|_]; [|reflexivity].
  rewrite E in Hlog. change (Z.log2 8233) with 13 in Hlog. lia.
Qed.

Lemma rune4_check :
  bytewise.all_in 240 244 (λ b0,
    bytewise.all (λ b1,
      implb (in_range (if byte_val b0 =? 240 then 144 else 128)
               (if byte_val b0 =? 244 then 143 else 191) b1)
        (65536 <=? Z.lor (Z.shiftl (Z.land (byte_val b0) 7) 18)
                     (Z.shiftl (cont b1) 12)))) = true.
Proof. vm_compute. reflexivity. Qed.

Lemma cont_nonneg b : 0 ≤ cont b.
Proof. unfold cont. apply Z.land_nonneg. right. lia. Qed.

Lemma rune4_not_separator b0 b1 b2 b3 :
  in_range 240 244 b0 = true →
  in_range (if byte_val b0 =? 240 then 144 else 128)
    (if byte_val b0 =? 244 then 143 else 191) b1 = true →
  is_separator (rune4 b0 b1 b2 b3) = false.
Proof.
  intros H0 H1.
  pose proof (all_bytes_in _ _ _ rune4_check b0 H0) as Ha. cbn beta in Ha.
  pose proof (all_bytes _ Ha b1) as Hb. cbn beta in Hb. clear Ha.
  rewrite H1 in Hb. cbn [implb] in Hb. apply Z.leb_le in Hb.
  unfold rune4. rewrite Z.lor_assoc.
  pose proof (cont_nonneg b1). pose proof (cont_nonneg b2).
  pose proof (cont_nonneg b3).
  assert (0 ≤ Z.land (byte_val b0) 7) by (apply Z.land_nonneg; right; lia).
  apply lor_not_separator; [| |exact Hb].
  - apply Z.lor_nonneg. split; apply Z.shiftl_nonneg; assumption.
  - apply Z.lor_nonneg. split; [apply Z.shiftl_nonneg|]; assumption.
Qed.

Lemma Decode_ascii b r :
  (byte_val b <? 128) = true →
  DecodeRuneInString (String b r) = (byte_val b, 1%nat).
Proof. intros H. unfold DecodeRuneInString. by rewrite H. Qed.

Lemma in_range_high lo hi b :
  128 ≤ lo → in_range lo hi b = true → (128 <=? byte_val b) = true.
Proof.
  unfold in_range. intros Hlo H. apply andb_true_iff in H as [H _].
  apply Z.leb_le in H. apply Z.leb_le. lia.
Qed.

Lemma in_range_cont (lo hi : Z) b :
  128 ≤ lo → hi ≤ 191 → in_range lo hi b = true → in_range 128 191 b = true.
Proof.
  unfold in_range. intros Hlo Hhi H. apply andb_true_iff in H as [H1 H2].
  apply Z.leb_le in H1, H2. apply andb_true_iff.
  split; apply Z.leb_le; lia.
Qed.

Lemma Decode_high b r :
  (byte_val b <? 128) = false →
  rune_shape b r (DecodeRuneInString (String b r)).1
    (DecodeRuneInString (String b r)).2.
Proof.
  intros Hb. unfold DecodeRuneInString. rewrite Hb.
  destruct (in_range 194 223 b) eqn:H2.
  { destruct r as [|b1 r1]; [apply shape_invalid|].
    destruct (in_range 128 191 b1) eqn:H21; [|apply shape_invalid].
    cbn [fst snd]. eapply shape_two; [reflexivity| |].
    - eapply in_range_high; [|exact H21]. lia.
    - by apply rune2_not_separator. }
  destruct (in_range 224 239 b) eqn:H3.
  { destruct r as [|b1 [|b2 r2]]; try apply shape_invalid.
    match goal with
    | |- context [in_range ?lo ?hi b1 && _] =>
        destruct (in_range lo hi b1) eqn:H31; [|apply shape_invalid]
    end.
    destruct (in_range 128 191 b2) eqn:H32; [|apply shape_invalid].
    cbn [andb fst snd].
    assert (in_range 128 191 b1 = true) as H31'.
    { eapply in_range_cont; [| |exact H31].
      - destruct (byte_val b =? 224); lia.
      - destruct (byte_val b =? 237); lia. }
    eapply shape_three; [reflexivity| | |].
    - eapply in_range_high; [|exact H31']. lia.
    - eapply in_range_high; [|exact H32]. lia.
    - intros Hs. by apply rune3_separator. }
  destruct (in_range 240 244 b) eqn:H4; [|apply shape_invalid].
  destruct r as [|b1 [|b2 [|b3 r3]]]; try apply shape_invalid.
  match goal with
  | |- context [in_range ?lo ?hi b1 && _] =>
      destruct (in_range lo hi b1) eqn:H41; [|apply shape_invalid]
  end.
  destruct (in_range 128 191 b2) eqn:H42; [|apply shape_invalid].
  destruct (in_range 128 191 b3) eqn:H43; [|apply shape_invalid].
  cbn [andb fst snd].
  eapply shape_four; [reflexivity| | | |].
  - eapply in_range_high; [|exact H41]. destruct (byte_val b =? 240); lia.
  - eapply in_range_high; [|exact H42]. lia.
  - eapply in_range_high; [|exact H43]. lia.
  - by apply rune4_not_separator.
Qed.

(** *** Reading back an encoded string *)

Lemma read_chars_ufffd x :
  rfc8259.read_chars (String backslash "ufffd" +:+ x)
  = rfc8259.prepend utf8.replacement (rfc8259.read_chars x).
Proof. reflexivity. Qed.

Lemma read_chars_u2028 x :
  rfc8259.read_chars (String backslash "u2028" +:+ x)
  = rfc8259.prepend
      (String (byte_of_Z 226) (String (byte_of_Z 128) (str1 (byte_of_Z 168))))
      (rfc8259.read_chars x).
Proof. reflexivity. Qed.

Lemma read_chars_u2029 x :
  rfc8259.read_chars (String backslash "u2029" +:+ x)
  = rfc8259.prepend
      (String (byte_of_Z 226) (String (byte_of_Z 128) (str1 (byte_of_Z 169))))
      (rfc8259.read_chars x).
Proof. reflexivity. Qed.

(** What the encoder writes for [s], followed by a closing quote, reads back
    as [s] made valid UTF-8. *)
Lemma read_chars_appendString : ∀ (n : nat) (s : string),
  (String.length s ≤ n)%nat →
  ∀ x, rfc8259.read_chars
         (json.appendString_from s (Keep 0) +:+ String dquote x)
       = Some (utf8.coerce s, x).
Proof.
  induction n as [|n IH]; intros s Hn x.
  { destruct s; [reflexivity|]. simpl in Hn. lia. }
  destruct s as [|b r]; [reflexivity|].
  assert (∀ r', (String.length r' ≤ n)%nat →
            rfc8259.read_chars
              (json.appendString_from r' (Keep 0) +:+ String dquote x)
            = Some (utf8.coerce_from r' 0, x)) as IH'.
  { intros r' Hr'. apply (IH r' Hr' x). }
  clear IH. unfold utf8.coerce. cbn [utf8.coerce_from].
  destruct (byte_val b <? 128) eqn:Hb.
  - rewrite (appendString_ascii _ _ Hb), (Decode_ascii _ _ Hb).
    assert ((byte_val b =? RuneError) = false) as ->.
    { apply Z.ltb_lt in Hb. apply Z.eqb_neq. unfold RuneError. lia. }
    cbn [andb Nat.sub]. rewrite string_app_assoc.
    destruct (json.htmlSafe b) eqn:Hsafe.
    + unfold str1 at 1. rewrite string_app_cons.
      change ("" +:+ ?y) with y. rewrite (read_chars_safe _ _ Hsafe).
      rewrite IH' by (simpl in Hn; lia). reflexivity.
    + rewrite (read_chars_escape _ _ Hb Hsafe).
      rewrite IH' by (simpl in Hn; lia). reflexivity.
  - rewrite (appendString_rune _ _ Hb).
    pose proof (Decode_high b r Hb) as Hshape.
    assert ((128 <=? byte_val b) = true) as Hhigh.
    { apply Z.ltb_ge in Hb. by apply Z.leb_le. }
    destruct (DecodeRuneInString (String b r)) as [c size].
    cbn [fst snd] in Hshape. fold (is_separator c).
    destruct Hshape
      as [|b1 r1 c -> H1 Hsep|b1 b2 r2 c -> H1 H2 Hsep
          |b1 b2 b3 r3 c -> H1 H2 H3 Hsep].
    + change ((RuneError =? RuneError) && Nat.eqb 1 1) with true. cbn iota.
      rewrite string_app_assoc, read_chars_ufffd.
      rewrite IH' by (simpl in Hn; lia). reflexivity.
    + change (Nat.eqb 2 1) with false. rewrite andb_false_r, Hsep.
      cbn [Nat.sub]. rewrite appendString_keep.
      cbn [utf8.coerce_from]. rewrite !string_app_cons.
      rewrite (read_chars_high _ _ Hhigh), (read_chars_high _ _ H1).
      rewrite IH' by (simpl in Hn; lia). reflexivity.
    + change (Nat.eqb 3 1) with false. rewrite andb_false_r.
      cbn [Nat.sub utf8.coerce_from].
      destruct (is_separator c) eqn:Hc.
      * destruct (Hsep eq_refl) as (-> & -> & [[-> ->]|[-> ->]]);
          rewrite !appendString_drop, appendString_drop0, string_app_assoc.
        -- change (String backslash
                     ("u202" +:+ str1 (hex_digit false (Z.land 8232 15))))
             with (String backslash "u2028").
           rewrite read_chars_u2028.
           rewrite IH' by (simpl in Hn; lia). reflexivity.
        -- change (String backslash
                     ("u202" +:+ str1 (hex_digit false (Z.land 8233 15))))
             with (String backslash "u2029").
           rewrite read_chars_u2029.
           rewrite IH' by (simpl in Hn; lia). reflexivity.
      * rewrite !appendString_keep, !string_app_cons.
        rewrite (read_chars_high _ _ Hhigh), (read_chars_high _ _ H1),
          (read_chars_high _ _ H2).
        rewrite IH' by (simpl in Hn; lia). reflexivity.
    + change (Nat.eqb 4 1) with false. rewrite andb_false_r, Hsep.
      cbn [Nat.sub utf8.coerce_from].
      rewrite !appendString_keep, !string_app_cons.
      rewrite (read_chars_high _ _ Hhigh), (read_chars_high _ _ H1),
        (read_chars_high _ _ H2), (read_chars_high _ _ H3).
      rewrite IH' by (simpl in Hn; lia). reflexivity.
Qed.

Lemma read_chars_encodeString s x :
  rfc8259.read_chars (json.appendString_from s (Keep 0) +:+ String dquote x)
  = Some (utf8.coerce s, x).
Proof. by apply (read_chars_appendString (String.length s)). Qed.

(** Valid UTF-8 is left as it is. *)
Lemma coerce_from_valid : ∀ s k,
  utf8.valid_from s k = true → utf8.coerce_from s k = s.
Proof.
  induction s as [|b r IH]; intros k H; [reflexivity|].
  destruct k as [|k].
  - cbn [utf8.valid_from utf8.coerce_from] in *.
    destruct (DecodeRuneInString (String b r)) as [c size].
    apply andb_true_iff in H as [H1 H2]. apply negb_true_iff in H1.
    rewrite H1. f_equal. by apply IH.
  - cbn [utf8.valid_from utf8.coerce_from] in *. f_equal. by apply IH.
Qed.

Lemma coerce_valid s : utf8.ValidString s = true → utf8.coerce s = s.
Proof. apply coerce_from_valid. Qed.

(** Text of HTML-safe ASCII is valid UTF-8. *)
Lemma valid_safe s :
  forallb json.htmlSafe (list_ascii_of_string s) = true →
  utf8.ValidString s = true.
Proof.
  unfold utf8.ValidString.
  induction s as [|b s IH]; [reflexivity|].
  cbn [list_ascii_of_string forallb utf8.valid_from].
  intros H. apply andb_true_iff in H as [Hb Hs].
  assert ((byte_val b <? 128) = true) as Hlt.
  { unfold json.htmlSafe, in_range in Hb. apply Z.ltb_lt.
    apply andb_true_iff in Hb as [Hb _]. apply andb_true_iff in Hb as [_ Hb].
    apply Z.leb_le in Hb. lia. }
  rewrite (Decode_ascii _ _ Hlt).
  assert ((byte_val b =? RuneError) = false) as ->.
  { apply Z.ltb_lt in Hlt. apply Z.eqb_neq. unfold RuneError. lia. }
  cbn [andb negb Nat.sub]. by apply IH.
Qed.

Lemma read_string_encodeString s x :
  rfc8259.read_string (json.encodeString s +:+ x) = Some (utf8.coerce s, x).
Proof.
  unfold json.encodeString, rfc8259.read_string.
  rewrite string_app_cons, string_app_assoc. cbn [rfc8259.skip_ws].
  change (rfc8259.is_ws dquote) with false. cbn iota.
  change (Ascii.eqb dquote dquote) with true. cbn iota.
  apply read_chars_encodeString.
Qed.

Lemma skip_ws_colon x : rfc8259.skip_ws (":" +:+ x) = String ":"%char x.
Proof. reflexivity. Qed.

Lemma skip_ws_comma x : rfc8259.skip_ws ("," +:+ x) = String ","%char x.
Proof. reflexivity. Qed.

Lemma read_members_two fuel k1 v1 k2 v2 :
  rfc8259.read_members (S (S fuel))
    (json.encodeString k1 +:+ ":" +:+ json.encodeString v1
     +:+ "," +:+ json.encodeString k2 +:+ ":" +:+ json.encodeString v2
     +:+ "}")
  = Some [(utf8.coerce k1, utf8.coerce v1); (utf8.coerce k2, utf8.coerce v2)].
Proof.
  cbn [rfc8259.read_members].
  rewrite read_string_encodeString, skip_ws_colon.
  change (Ascii.eqb ":" ":") with true. cbn iota.
  rewrite read_string_encodeString, skip_ws_comma.
  change (Ascii.eqb "," ",") with true. cbn iota.
  rewrite read_string_encodeString, skip_ws_colon.
  change (Ascii.eqb ":" ":") with true. cbn iota.
  rewrite read_string_encodeString. reflexivity.
Qed.

(** The text of an object with two string members reads as these members,
    in the order of the text. *)
Lemma read_object_two k1 v1 k2 v2 :
  rfc8259.read_object
    ("{" +:+ json.encodeString k1 +:+ ":" +:+ json.encodeString v1
     +:+ "," +:+ json.encodeString k2 +:+ ":" +:+ json.encodeString v2
     +:+ "}")
  = Some [(utf8.coerce k1, utf8.coerce v1); (utf8.coerce k2, utf8.coerce v2)].
Proof.
  set (body := json.encodeString k1 +:+ _).
  assert (∃ y, body = String dquote y) as [y Hy].
  { unfold body, json.encodeString. rewrite string_app_cons. eauto. }
  change ("{" +:+ body) with (String "{"%char body).
  unfold rfc8259.read_object. cbn [rfc8259.skip_ws String.length].
  change (rfc8259.is_ws "{") with false. cbn iota.
  change (Ascii.eqb "{" "{") with true. cbn iota.
  rewrite Hy. cbn [rfc8259.skip_ws String.length].
  change (rfc8259.is_ws dquote) with false. cbn iota.
  change (Ascii.eqb dquote "}") with false. cbn iota.
  rewrite <- Hy. apply read_members_two.
Qed.

Lemma Marshal_listen_target (l t : string) :
  json.Marshal (<["target" := t]> (<["listen" := l]> ∅))
  = Ok ("{" +:+ json.encodeString "listen" +:+ ":" +:+ json.encodeString l
        +:+ "," +:+ json.encodeString "target" +:+ ":"
        +:+ json.encodeString t +:+ "}").
Proof.
  unfold json.Marshal. rewrite sorted_entries_listen_target.
  f_equal. unfold json.encodeEntry. cbn [fmap list_fmap Join fst snd].
  rewrite !string_app_assoc. reflexivity.
Qed.

(** C8, as the code has it. [MarshalJSON] of a proxy writes exactly the
    text of an object with the two members [listen] and [target], in this
    order and without blanks, whose values are the JSON strings the encoder
    writes for the listen and target URLs in their string form. Read as JSON
    (RFC 8259) the text is the object with these two members and no other,
    and the value of each is the URL's string form made valid UTF-8: the
    string form itself when it is valid UTF-8, which a URL text of HTML-safe
    ASCII is, and which is then written between quotes as it is. For
    [tcp://0.0.0.0:5000] and [tcp://rack/myapp/service/web:3000] the output
    is exactly the text the design gives. *)
Theorem MarshalJSON_listen_target (p : Proxy) :
  let l := urlfmt.String_ (Listen p) in
  let t := urlfmt.String_ (Target p) in
  let text :=
    "{" +:+ quoted "listen" +:+ ":" +:+ json.encodeString l
    +:+ "," +:+ quoted "target" +:+ ":" +:+ json.encodeString t +:+ "}" in
  MarshalJSON p = Ok text
  ∧ rfc8259.read_object text
    = Some [("listen", utf8.coerce l); ("target", utf8.coerce t)]
  ∧ (∀ s, utf8.ValidString s = true → utf8.coerce s = s)
  ∧ (∀ s, forallb json.htmlSafe (list_ascii_of_string s) = true →
       utf8.ValidString s = true ∧ json.encodeString s = quoted s)
  ∧ urlfmt.String_ sample.listen = "tcp://0.0.0.0:5000"
  ∧ urlfmt.String_ sample.target_service = "tcp://rack/myapp/service/web:3000"
  ∧ MarshalJSON sample.proxy
    = Ok ("{" +:+ quoted "listen" +:+ ":" +:+ quoted "tcp://0.0.0.0:5000"
          +:+ "," +:+ quoted "target" +:+ ":"
          +:+ quoted "tcp://rack/myapp/service/web:3000" +:+ "}").
Proof.
  intros l t text.
  split; [|split; [|split; [|split; [|split; [|split]]]]]; try reflexivity.
  - unfold MarshalJSON. apply Marshal_listen_target.
  - apply (read_object_two "listen" l "target" t).
  - apply coerce_valid.
  - intros s Hs. split.
    + by apply valid_safe.
    + unfold json.encodeString, quoted. by rewrite appendString_safe.
Qed.

(** What the claim leaves out: a proxy whose target has the query
    [q=caf] followed by the byte 0xE9. The string form of the target ends in
    that byte and is not valid UTF-8; the encoder writes the escape of
    U+FFFD for the byte, so the value of [target] in the object is not the
    string form of the target. *)
Lemma MarshalJSON_invalid_utf8_counterexample :
  urlfmt.String_ cases.target_latin1
  = "tcp://rack/myapp/service/web:3000?q=caf" +:+ str1 (byte_of_Z 233)
  ∧ utf8.ValidString (urlfmt.String_ cases.target_latin1) = false
  ∧ MarshalJSON (cases.proxy_on sample.listen cases.target_latin1)
    = Ok ("{" +:+ quoted "listen" +:+ ":" +:+ quoted "tcp://0.0.0.0:5000"
          +:+ "," +:+ quoted "target" +:+ ":"
          +:+ quoted ("tcp://rack/myapp/service/web:3000?q=caf"
                      +:+ String backslash "ufffd")
          +:+ "}")
  ∧ rfc8259.read_object
      ("{" +:+ quoted "listen" +:+ ":" +:+ quoted "tcp://0.0.0.0:5000"
       +:+ "," +:+ quoted "target" +:+ ":"
       +:+ quoted ("tcp://rack/myapp/service/web:3000?q=caf"
                   +:+ String backslash "ufffd")
       +:+ "}")
    = Some [("listen", "tcp://0.0.0.0:5000");
            ("target", "tcp://rack/myapp/service/web:3000?q=caf"
                       +:+ utf8.replacement)]
  ∧ "tcp://rack/myapp/service/web:3000?q=caf" +:+ utf8.replacement
    ≠ urlfmt.String_ cases.target_latin1.
Proof.
  split; [reflexivity|]. split; [reflexivity|].
  split; [vm_compute; reflexivity|]. split; [vm_compute; reflexivity|].
  apply String.eqb_neq. vm_compute. reflexivity.
Qed.

(** ** Service.BuildHash *)

Lemma hex_digit_lower n :
  0 ≤ n < 16 → fmt.is_lower_hex (hex_digit false n) = true.
Proof.
  intros H.
  assert (n = 0 ∨ n = 1 ∨ n = 2 ∨ n = 3 ∨ n = 4 ∨ n = 5 ∨ n = 6 ∨ n = 7
          ∨ n = 8 ∨ n = 9 ∨ n = 10 ∨ n = 11 ∨ n = 12 ∨ n = 13 ∨ n = 14
          ∨ n = 15) as Hn by lia.
  repeat (destruct Hn as [->|Hn]; [reflexivity|]). by subst.
Qed.

Lemma hex_bytes_length bs :
  String.length (fmt.hex_bytes bs) = (2 * length bs)%nat.
Proof.
  unfold fmt.hex_bytes.
  induction bs as [|b bs IH]; [reflexivity|].
  cbn [fmap list_fmap concat_strings]. unfold hex2 in *.
  rewrite !string_app_cons. change ("" +:+ ?x) with x.
  cbn [String.length length]. rewrite IH. lia.
Qed.

Lemma hex_bytes_lower bs :
  forallb fmt.is_lower_hex (list_ascii_of_string (fmt.hex_bytes bs)) = true.
Proof.
  unfold fmt.hex_bytes.
  induction bs as [|b bs IH]; [reflexivity|].
  cbn [fmap list_fmap concat_strings]. unfold hex2 in *.
  rewrite !string_app_cons. change ("" +:+ ?x) with x.
  cbn [list_ascii_of_string forallb].
  rewrite !hex_digit_lower by (apply Z.mod_pos_bound; lia).
  exact IH.
Qed.

Lemma Sum_length data : length (sha1.Sum data) = 20%nat.
Proof.
  unfold sha1.Sum.
  destruct (sha1.blocks _ _ _) as [[[[h0 h1] h2] h3] h4].
  rewrite !length_app. reflexivity.
Qed.

(** C10. Two services with the same build path, build arguments and image
    have the same build hash, whatever their names, environments and tests;
    the hash is a text of forty lower-case hexadecimal digits. *)
Theorem BuildHash_build_and_image_only (table : Z → bool) (s1 s2 : Service) :
  Path (Build s1) = Path (Build s2) →
  Args (Build s1) = Args (Build s2) →
  Image s1 = Image s2 →
  BuildHash table s1 = BuildHash table s2
  ∧ String.length (BuildHash table s1) = 40%nat
  ∧ forallb fmt.is_lower_hex (list_ascii_of_string (BuildHash table s1)) = true.
Proof.
  intros HP HA HI. split; [|split].
  - unfold BuildHash, build_text. by rewrite HP, HA, HI.
  - unfold BuildHash. by rewrite hex_bytes_length, Sum_length.
  - apply hex_bytes_lower.
Qed.

(** Two services that differ in name, environment and test only. *)
Lemma BuildHash_build_and_image_only_witness :
  BuildHash (λ _, true) sample.service = BuildHash (λ _, true) sample.service'
  ∧ String.length (BuildHash (λ _, true) sample.service) = 40%nat
  ∧ forallb fmt.is_lower_hex
      (list_ascii_of_string (BuildHash (λ _, true) sample.service)) = true.
Proof.
  apply (BuildHash_build_and_image_only (λ _, true) sample.service
           sample.service'); reflexivity.
Defined.

(** ** Endpoint.NewProxy, on the sample endpoint *)

(** A proxy on port 5000, then one on port 6000 and a second request for
    port 5000, then a third request for port 5000. *)
Lemma NewProxy_port_conflict_witness :
  NewProxy 0%nat sample.endpoint2 "web.myapp.convox" sample.listen
    sample.target_direct
  = (Err (ErrProxyExists 5000), sample.endpoint2)
  ∧ Proxies sample.endpoint1 !! 5000 = Some sample.proxy
  ∧ Proxies sample.endpoint2 !! 5000 = Some sample.proxy.
Proof.
  destruct (NewProxy_port_conflict 0%nat sample.endpoint0 sample.endpoint1
              sample.endpoint2 "web.myapp.convox" "web.myapp.convox"
              sample.listen sample.target_service sample.listen
              sample.target_direct sample.proxy 5000 sample.requests
              (fst (NewProxies 0%nat sample.endpoint1 sample.requests)))
    as (A & B & C & _); try (vm_compute; reflexivity).
  auto.
Defined.

(** * Further properties *)

(** ** Endpoint.NewProxy: what a call leaves alone *)

(** X1. Whatever its outcome, [NewProxy] keeps the endpoint's host and the
    entry of every port other than the listen port; a failed call leaves the
    endpoint as it was; a successful one adds exactly one entry, the proxy it
    returns, which holds the listen and target URLs and the endpoint pointer
    it was given. *)
Theorem NewProxy_frame
    (e : EndpointRef) (ev ev1 : Endpoint) (host : string) (listen target : URL)
    (res : result Proxy) :
  NewProxy e ev host listen target = (res, ev1) →
  Host ev1 = Host ev
  ∧ (∀ q, Atoi (url.Port listen) ≠ Some q → Proxies ev1 !! q = Proxies ev !! q)
  ∧ (∀ err, res = Err err → ev1 = ev)
  ∧ (∀ p, res = Ok p →
       size (Proxies ev1) = S (size (Proxies ev))
       ∧ listen_port p = Atoi (url.Port listen)
       ∧ (∀ pi, listen_port p = Some pi → Proxies ev1 !! pi = Some p)
       ∧ Listen p = listen ∧ Target p = target ∧ endpoint p = e).
Proof.
  unfold NewProxy. intros H.
  destruct (Atoi (url.Port listen)) as [pi|] eqn:Hpi.
  - destruct (Proxies ev !! pi) eqn:Hl; inversion H; subst; clear H.
    + repeat split; try done.
    + simpl. split; [done|]. split.
      { intros q Hq. apply lookup_insert_ne. congruence. }
      split; [discriminate|].
      intros p [= <-]. unfold listen_port. simpl.
      split; [by apply map_size_insert_None|]. split; [done|].
      split; [|done].
      intros pj Hpj. assert (pj = pi) as -> by congruence.
      apply lookup_insert_eq.
  - inversion H; subst. repeat split; try done.
Qed.

(** A second proxy on the sample endpoint, on port 6000: port 5000 keeps its
    proxy and the registry has two entries. *)
Lemma NewProxy_frame_witness :
  Proxies (snd (NewProxy 0%nat sample.endpoint1 "web.myapp.convox"
                  sample.listen_other sample.target_direct)) !! 5000
  = Some sample.proxy
  ∧ size (Proxies (snd (NewProxy 0%nat sample.endpoint1 "web.myapp.convox"
                          sample.listen_other sample.target_direct)))
    = 2%nat.
Proof.
  destruct (NewProxy_frame 0%nat sample.endpoint1
              (snd (NewProxy 0%nat sample.endpoint1 "web.myapp.convox"
                      sample.listen_other sample.target_direct))
              "web.myapp.convox" sample.listen_other sample.target_direct
              (Ok (cases.proxy_on sample.listen_other sample.target_direct))
              eq_refl) as (_ & A & _ & B).
  split.
  - rewrite (A 5000); [reflexivity|discriminate].
  - destruct (B _ eq_refl) as (-> & _). reflexivity.
Defined.

(** X2. Creating two proxies on different ports gives the same registry in
    either order, and each creation has the same result in both orders. *)
Theorem NewProxy_commutes
    (e : EndpointRef) (ev : Endpoint) (r1 r2 : NewProxyArgs) (a b : Z) :
  Atoi (url.Port (np_listen r1)) = Some a →
  Atoi (url.Port (np_listen r2)) = Some b →
  a ≠ b →
  snd (NewProxies e ev [r1; r2]) = snd (NewProxies e ev [r2; r1])
  ∧ fst (NewProxies e ev [r1; r2]) = reverse (fst (NewProxies e ev [r2; r1])).
Proof.
  intros Ha Hb Hab. unfold NewProxies, NewProxy. rewrite Ha, Hb. simpl.
  destruct (Proxies ev !! a) eqn:Hla, (Proxies ev !! b) eqn:Hlb; simpl;
    rewrite ?Ha, ?Hb; simpl;
    rewrite ?lookup_insert_ne by congruence; rewrite ?Hla, ?Hlb; simpl;
    try done.
  split; [|done]. unfold set_Proxies. simpl. f_equal.
  apply insert_insert_ne. congruence.
Qed.

Lemma NewProxy_commutes_witness :
  snd (NewProxies 0%nat sample.endpoint0
         [cases.req sample.listen sample.target_service;
          cases.req sample.listen_other sample.target_direct])
  = snd (NewProxies 0%nat sample.endpoint0
           [cases.req sample.listen_other sample.target_direct;
            cases.req sample.listen sample.target_service]).
Proof.
  apply (NewProxy_commutes 0%nat sample.endpoint0
           (cases.req sample.listen sample.target_service)
           (cases.req sample.listen_other sample.target_direct) 5000 6000);
    [reflexivity|reflexivity|discriminate].
Defined.

(** ** Proxy.Serve, scheme by scheme *)

Lemma accept_loop_run ln conns aerr target :
  accept_loop ln conns aerr target
  = Run (mjoin ((λ cn, [EvAccept ln; EvGo (GoProxyRackTCP cn target)]) <$> conns)
         ++ [EvAccept ln])
      (Err aerr).
Proof.
  induction conns as [|cn rest IH]; [reflexivity|].
  cbn [accept_loop]. rewrite IH. reflexivity.
Qed.

(** The accept loop only accepts and starts goroutines. *)
Lemma accept_events_none (f : event → bool) ln conns target :
  (∀ l, f (EvAccept l) = false) → (∀ t, f (EvGo t) = false) →
  existsb f
    (mjoin ((λ cn, [EvAccept ln; EvGo (GoProxyRackTCP cn target)]) <$> conns))
  = false.
Proof.
  intros Ha Hg. induction conns as [|cn rest IH]; [reflexivity|].
  cbn [fmap list_fmap mjoin list_join]. rewrite existsb_app.
  cbn [existsb]. rewrite Ha, Hg. exact IH.
Qed.

(** The listener [Serve] hands to the forwarder, and what it costs to get
    it: nothing for a plain scheme, a certificate for the endpoint's host
    for [https] and [tls]. *)
Lemma Serve_run w ev p :
  Serve w ev p
  = match w_listen w (url.Host (Listen p)) with
    | Some err => Run [EvListen "tcp" (url.Host (Listen p))] (Err err)
    | None =>
        let ln := TCPListener (url.Host (Listen p)) in
        let scheme := url.Scheme (Listen p) in
        let secure := String.eqb scheme "https" || String.eqb scheme "tls" in
        let body :=
          ln' ← (if secure then
                   cert ← generateCertificate w (Host ev);
                   mret (TLSListener ln {| Certificates := [cert];
                                           NextProtos := ["h2"] |})
                 else mret ln);
          if String.eqb scheme "http" || String.eqb scheme "https" then
            h ← lift (proxyHTTP p (Listen p) (Target p));
            http_Serve w ln' h
          else if String.eqb scheme "tcp" then proxyTCP w ln' (Target p)
          else fail (ErrUnknownListenerScheme scheme) in
        Run (EvListen "tcp" (url.Host (Listen p))
             :: trace body ++ [EvListenerClose ln])
          (outcome body)
    end.
Proof.
  unfold Serve, net_Listen.
  destruct (w_listen w (url.Host (Listen p))); reflexivity.
Qed.

(** X3. [Serve] releases what it binds. When the listen call fails nothing
    else happens and its error is returned. When it succeeds, the last thing
    [Serve] does, on every path (certificate failure, a target that cannot
    be parsed, the end of serving or accepting, an unknown scheme), is to
    close the listener it bound, and it closes no listener before that. *)
Theorem Serve_releases_listener (w : World) (ev : Endpoint) (p : Proxy) :
  match w_listen w (url.Host (Listen p)) with
  | Some err =>
      Serve w ev p = Run [EvListen "tcp" (url.Host (Listen p))] (Err err)
  | None =>
      ∃ body,
        trace (Serve w ev p)
        = EvListen "tcp" (url.Host (Listen p))
          :: body ++ [EvListenerClose (TCPListener (url.Host (Listen p)))]
        ∧ existsb closes_listener body = false
  end.
Proof.
  rewrite Serve_run.
  destruct (w_listen w (url.Host (Listen p))); [reflexivity|].
  cbv zeta. eexists. split; [reflexivity|].
  unfold generateCertificate, http_Serve, proxyTCP, call, fail, lift,
    mbind, M_bind, mret, M_ret.
  destruct (String.eqb (url.Scheme (Listen p)) "https"
            || String.eqb (url.Scheme (Listen p)) "tls"); simpl;
    [destruct (w_certificate w (Host ev)); simpl; [|reflexivity]|];
    (destruct (String.eqb (url.Scheme (Listen p)) "http"
               || String.eqb (url.Scheme (Listen p)) "https"); simpl;
     [destruct (proxyHTTP p (Listen p) (Target p)); simpl; reflexivity|]);
    (destruct (String.eqb (url.Scheme (Listen p)) "tcp"); simpl;
     [|reflexivity]);
    rewrite accept_loop_run; simpl; rewrite ?app_nil_r, !existsb_app;
    rewrite accept_events_none by done; reflexivity.
Qed.

(** X4. A listen scheme other than [http], [https], [tcp] and [tls] is
    found out only after the address is bound: [Serve] listens, closes the
    listener and returns the unknown-listener-scheme error for that scheme,
    without issuing a certificate, accepting or serving. *)
Theorem Serve_unknown_scheme (w : World) (ev : Endpoint) (p : Proxy) :
  let scheme := url.Scheme (Listen p) in
  scheme ≠ "http" → scheme ≠ "https" → scheme ≠ "tcp" → scheme ≠ "tls" →
  w_listen w (url.Host (Listen p)) = None →
  Serve w ev p
  = Run [EvListen "tcp" (url.Host (Listen p));
         EvListenerClose (TCPListener (url.Host (Listen p)))]
      (Err (ErrUnknownListenerScheme scheme)).
Proof.
  intros scheme H1 H2 H3 H4 Hl. rewrite Serve_run, Hl. subst scheme.
  apply String.eqb_neq in H1, H2, H3, H4. cbv zeta. rewrite H1, H2, H3, H4.
  reflexivity.
Qed.

Lemma Serve_unknown_scheme_witness :
  Serve sample.world sample.endpoint0
    (cases.proxy_on cases.listen_udp sample.target_direct)
  = Run [EvListen "tcp" "0.0.0.0:5000";
         EvListenerClose (TCPListener "0.0.0.0:5000")]
      (Err (ErrUnknownListenerScheme "udp")).
Proof.
  apply (Serve_unknown_scheme sample.world sample.endpoint0
           (cases.proxy_on cases.listen_udp sample.target_direct));
    (discriminate || reflexivity).
Defined.

(** X5. [Serve] on a [tcp] proxy, once bound, returns only when accepting
    fails, and then with that error, never with success: it accepts, starts
    one goroutine per accepted connection in the order of acceptance, and
    after the failed accept closes the listener. It issues no certificate
    and closes no connection itself. *)
Theorem Serve_tcp (w : World) (ev : Endpoint) (p : Proxy) :
  url.Scheme (Listen p) = "tcp" →
  w_listen w (url.Host (Listen p)) = None →
  let ln := TCPListener (url.Host (Listen p)) in
  Serve w ev p
  = Run (EvListen "tcp" (url.Host (Listen p))
         :: mjoin ((λ cn, [EvAccept ln; EvGo (GoProxyRackTCP cn (Target p))])
                   <$> w_accepts w)
         ++ [EvAccept ln; EvListenerClose ln])
      (Err (w_accept_err w))
  ∧ existsb closes_any (trace (Serve w ev p)) = false
  ∧ existsb issues_certificate (trace (Serve w ev p)) = false.
Proof.
  intros Hs Hl ln. rewrite Serve_run, Hl, Hs. cbv zeta.
  change (String.eqb "tcp" "https" || String.eqb "tcp" "tls") with false.
  change (String.eqb "tcp" "http" || String.eqb "tcp" "https") with false.
  change (String.eqb "tcp" "tcp") with true. cbv iota.
  unfold proxyTCP, mbind, M_bind, mret, M_ret. simpl outcome. cbv iota.
  rewrite accept_loop_run. fold ln. simpl trace. simpl outcome.
  rewrite <-app_assoc. split; [reflexivity|].
  simpl. rewrite !existsb_app. simpl.
  split; by rewrite accept_events_none.
Qed.

Lemma Serve_tcp_witness :
  Serve sample.world sample.endpoint0 (sample.proxy_to sample.target_resource)
  = Run [EvListen "tcp" "0.0.0.0:5000";
         EvAccept (TCPListener "0.0.0.0:5000");
         EvGo (GoProxyRackTCP (Sock 1) sample.target_resource);
         EvAccept (TCPListener "0.0.0.0:5000");
         EvGo (GoProxyRackTCP (Sock 2) sample.target_resource);
         EvAccept (TCPListener "0.0.0.0:5000");
         EvListenerClose (TCPListener "0.0.0.0:5000")]
      (Err (ErrExternal "use of closed network connection")).
Proof.
  apply (Serve_tcp sample.world sample.endpoint0
           (sample.proxy_to sample.target_resource)); reflexivity.
Defined.

(** X6. A target that [proxyHTTP] cannot turn into a handler fails [Serve]
    itself, not a later request: on an [http] or [https] proxy whose handler
    construction fails, [Serve] binds the address, for [https] issues the
    certificate first, then closes the listener and returns the construction
    error (or the certificate error, when issuance fails), and never
    serves. *)
Theorem Serve_handler_error
    (w : World) (ev : Endpoint) (p : Proxy) (e : error) :
  let scheme := url.Scheme (Listen p) in
  let host := url.Host (Listen p) in
  scheme = "http" ∨ scheme = "https" →
  w_listen w host = None →
  proxyHTTP p (Listen p) (Target p) = Err e →
  existsb serves (trace (Serve w ev p)) = false
  ∧ (scheme = "http" →
     Serve w ev p
     = Run [EvListen "tcp" host; EvListenerClose (TCPListener host)] (Err e))
  ∧ (scheme = "https" →
     Serve w ev p
     = Run [EvListen "tcp" host; EvGenerateCertificate (Host ev);
            EvListenerClose (TCPListener host)]
         (match w_certificate w (Host ev) with
          | Err ce => Err ce
          | Ok _ => Err e
          end)).
Proof.
  intros scheme host Hs Hl He. subst scheme host.
  rewrite Serve_run, Hl. cbv zeta. rewrite He.
  unfold generateCertificate, call, lift, mbind, M_bind, mret, M_ret.
  destruct Hs as [Hs|Hs]; rewrite Hs.
  - split; [reflexivity|]. split; [reflexivity|discriminate].
  - change (String.eqb "https" "https" || String.eqb "https" "tls") with true.
    change (String.eqb "https" "http" || String.eqb "https" "https") with true.
    cbv iota.
    destruct (w_certificate w (Host ev)); simpl;
      (split; [reflexivity|]); (split; [discriminate|reflexivity]).
Qed.

(** An [https] proxy whose rack target has too few path segments. *)
Lemma Serve_handler_error_witness :
  Serve sample.world sample.endpoint0
    (cases.proxy_on sample.listen_https cases.target_short)
  = Run [EvListen "tcp" "0.0.0.0:443";
         EvGenerateCertificate "web.myapp.convox";
         EvListenerClose (TCPListener "0.0.0.0:443")]
      (Err ErrInvalidRackEndpoint).
Proof.
  destruct (Serve_handler_error sample.world sample.endpoint0
              (cases.proxy_on sample.listen_https cases.target_short)
              ErrInvalidRackEndpoint (or_intror eq_refl) eq_refl eq_refl)
    as (_ & _ & A).
  apply A. reflexivity.
Defined.

(** X7. With a handler built, [Serve] serves it on the plain listener for
    [http], issuing no certificate, and for [https] on a TLS listener over
    the bound one, configured with the single certificate issued for the
    endpoint's host and with [h2] as next protocol; in both cases it returns
    what serving returns, after closing the bound listener. *)
Theorem Serve_http_serves
    (w : World) (ev : Endpoint) (p : Proxy) (h : Handler) :
  let scheme := url.Scheme (Listen p) in
  let host := url.Host (Listen p) in
  w_listen w host = None →
  proxyHTTP p (Listen p) (Target p) = Ok h →
  (scheme = "http" →
     Serve w ev p
     = Run [EvListen "tcp" host; EvHTTPServe (TCPListener host) h;
            EvListenerClose (TCPListener host)]
         (of_err (w_http_serve w)))
  ∧ (scheme = "https" →
     ∀ cert, w_certificate w (Host ev) = Ok cert →
     Serve w ev p
     = Run [EvListen "tcp" host; EvGenerateCertificate (Host ev);
            EvHTTPServe
              (TLSListener (TCPListener host)
                 {| Certificates := [cert]; NextProtos := ["h2"] |}) h;
            EvListenerClose (TCPListener host)]
         (of_err (w_http_serve w))).
Proof.
  intros scheme host Hl Hh. subst scheme host.
  rewrite Serve_run, Hl. cbv zeta. rewrite Hh.
  unfold generateCertificate, http_Serve, call, lift, mbind, M_bind, mret,
    M_ret.
  split; intros Hs; rewrite Hs.
  - reflexivity.
  - intros cert Hc. rewrite Hc. reflexivity.
Qed.

Lemma Serve_http_serves_witness :
  ∃ h,
    Serve sample.world sample.endpoint0
      (cases.proxy_on sample.listen_https sample.target_service)
    = Run [EvListen "tcp" "0.0.0.0:443";
           EvGenerateCertificate "web.myapp.convox";
           EvHTTPServe
             (TLSListener (TCPListener "0.0.0.0:443")
                {| Certificates := [{| cert_host := "web.myapp.convox" |}];
                   NextProtos := ["h2"] |}) h;
           EvListenerClose (TCPListener "0.0.0.0:443")]
        (Err (ErrExternal "http: Server closed")).
Proof.
  destruct (proxyHTTP (cases.proxy_on sample.listen_https sample.target_service)
              sample.listen_https sample.target_service) as [h|] eqn:Hh;
    [|discriminate Hh].
  exists h.
  destruct (Serve_http_serves sample.world sample.endpoint0
              (cases.proxy_on sample.listen_https sample.target_service) h
              eq_refl Hh) as (_ & A).
  apply (A eq_refl {| cert_host := "web.myapp.convox" |} eq_refl).
Defined.

(** ** The forwarders and what they release *)

(** X8. [proxyRackTCP] closes the accepted connection exactly once, as the
    last thing it does, on every path: rejected path, missing rack client,
    unknown kind, failed tunnel, end of streaming. The tunnel's stream is
    closed if and only if it was streamed from. *)
Theorem proxyRackTCP_closes_connection (w : World) (cn : Conn) (target : URL) :
  ∃ pre,
    trace (proxyRackTCP w cn target) = pre ++ [EvConnClose cn]
    ∧ existsb closes_any pre = false
    ∧ (∀ pr, EvStream cn pr ∈ pre ↔ EvStreamClose pr ∈ pre).
Proof.
  unfold proxyRackTCP, defer. eexists. split; [reflexivity|].
  unfold rack_NewFromEnv, ResourceProxy, helpers_Stream, call, fail, mbind,
    M_bind; simpl.
  world_cases; (split; [reflexivity|]); intros pr;
    rewrite ?elem_of_cons, ?elem_of_nil;
    (split; intros H;
     repeat match goal with
            | H : _ ∨ _ |- _ => destruct H as [H|H]
            end;
     try discriminate H; try contradiction;
     injection H as ->; tauto).
Qed.

(** X9. [proxyTCPConnection] on a target whose host name is not [rack]
    dials the target's host. When the dial fails it returns the dial error
    and pipes nothing; when it succeeds it pipes the two connections and
    returns what the pipe returns, closing the dialed connection first. In
    both cases the accepted connection is closed last. *)
Theorem proxyTCPConnection_direct (w : World) (cn : Conn) (target : URL) :
  url.Hostname target ≠ "rack" →
  proxyTCPConnection w cn target
  = match w_dial w (url.Host target) with
    | Ok oc =>
        Run [EvDial "tcp" (url.Host target); EvPipe cn oc; EvConnClose oc;
             EvConnClose cn] (of_err (w_pipe w cn oc))
    | Err e => Run [EvDial "tcp" (url.Host target); EvConnClose cn] (Err e)
    end.
Proof.
  intros Hh. apply String.eqb_neq in Hh.
  unfold proxyTCPConnection. rewrite Hh.
  unfold defer, net_Dial, helpers_Pipe, call, mbind, M_bind. simpl.
  destruct (w_dial w (url.Host target)); reflexivity.
Qed.

Lemma proxyTCPConnection_direct_witness :
  proxyTCPConnection sample.world (Sock 1) sample.target_direct
  = Run [EvDial "tcp" "127.0.0.1:9000"; EvPipe (Sock 1) (Sock 10);
         EvConnClose (Sock 10); EvConnClose (Sock 1)] (Ok tt).
Proof.
  apply (proxyTCPConnection_direct sample.world (Sock 1) sample.target_direct).
  discriminate.
Defined.

(** ** Resolving a backend: failures, and the tunnel goroutine *)

Lemma serviceProxy_run w rk app pid port rw :
  serviceProxy w rk app pid port rw
  = match w_process_proxy w app pid port with
    | Ok pr =>
        Run [EvProcessProxy app pid port rw; EvCopyStream rw pr;
             EvStreamClose pr] (of_err (w_copy w))
    | Err e => Run [EvProcessProxy app pid port rw] (Err e)
    end.
Proof.
  unfold serviceProxy, ProcessProxy, defer, call, mbind, M_bind. simpl.
  destruct (w_process_proxy w app pid port); reflexivity.
Qed.

Lemma DialContext_cases w app service port network address :
  serviceTransport_DialContext w app service port network address
  = match w_rack w with
    | Err e => Run [EvRackNewFromEnv] (Err e)
    | Ok r =>
        match w_process_list w app service with
        | Err e => Run [EvRackNewFromEnv; EvProcessList app service] (Err e)
        | Ok pss =>
            if (length pss <? 1)%nat then
              Run [EvRackNewFromEnv; EvProcessList app service]
                (Err (ErrNoProcesses service))
            else
              match pss !! w_intn w (length pss) with
              | None =>
                  Run [EvRackNewFromEnv; EvProcessList app service;
                       EvIntn (length pss)]
                    (Err (ErrExternal "panic: index out of range"))
              | Some ps =>
                  Run [EvRackNewFromEnv; EvProcessList app service;
                       EvIntn (length pss); EvNetPipe;
                       EvGo (GoServiceProxy r app (Id ps) port
                               (fst (w_net_pipe w)))]
                    (Ok (snd (w_net_pipe w)))
              end
        end
    end.
Proof.
  unfold serviceTransport_DialContext, rack_NewFromEnv, ProcessList, Intn,
    net_Pipe, process_at, call, fail, lift, emit, mbind, M_bind, mret, M_ret.
  simpl. world_cases; reflexivity.
Qed.

Lemma NetDial_cases w app service port network address :
  ws_NetDial w app service port network address
  = match w_rack w with
    | Err e => Run [EvRackNewFromEnv] (Err e)
    | Ok r =>
        match w_process_list w app service with
        | Err e => Run [EvRackNewFromEnv; EvProcessList app service] (Err e)
        | Ok pss =>
            if (length pss <? 1)%nat then
              Run [EvRackNewFromEnv; EvProcessList app service]
                (Err (ErrNoProcesses service))
            else
              match pss !! w_intn w (length pss) with
              | None =>
                  Run [EvRackNewFromEnv; EvProcessList app service;
                       EvIntn (length pss)]
                    (Err (ErrExternal "panic: index out of range"))
              | Some ps =>
                  Run [EvRackNewFromEnv; EvProcessList app service;
                       EvIntn (length pss); EvNetPipe;
                       EvGo (GoServiceProxy r app (Id ps) port
                               (fst (w_net_pipe w)))]
                    (Ok (NopDeadlineConn (snd (w_net_pipe w))))
              end
        end
    end.
Proof.
  unfold ws_NetDial, rack_NewFromEnv, ProcessList, Intn,
    net_Pipe, process_at, call, fail, lift, emit, mbind, M_bind, mret, M_ret.
  simpl. world_cases; reflexivity.
Qed.

(** X10. The goroutine that a backend resolution starts, on the HTTP
    transport or on the WebSocket dialer, is the tunnel to the selected
    process over the first end of the pipe. It closes the tunnel's stream
    exactly when the tunnel was opened, after copying from it, and it never
    closes a connection: the pipe end it was given stays open when the
    tunnel ends or cannot be opened. *)
Theorem tunnel_goroutine_keeps_pipe_open
    (w : World) (app service : string) (port : Z) (network address : string)
    (t : Task) :
  t ∈ spawned (trace (serviceTransport_DialContext w app service port
                        network address))
  ∨ t ∈ spawned (trace (ws_NetDial w app service port network address)) →
  ∃ rk pid,
    t = GoServiceProxy rk app pid port (fst (w_net_pipe w))
    ∧ run_task w t
      = match w_process_proxy w app pid port with
        | Ok pr =>
            Run [EvProcessProxy app pid port (fst (w_net_pipe w));
                 EvCopyStream (fst (w_net_pipe w)) pr; EvStreamClose pr]
              (of_err (w_copy w))
        | Err e =>
            Run [EvProcessProxy app pid port (fst (w_net_pipe w))] (Err e)
        end
    ∧ existsb closes_any (trace (run_task w t)) = false.
Proof.
  rewrite DialContext_cases, NetDial_cases.
  intros Hin.
  assert (∃ rk pid, t = GoServiceProxy rk app pid port (fst (w_net_pipe w)))
    as (rk & pid & ->).
  { destruct (w_rack w) as [r|]; simpl in Hin;
      [|destruct Hin as [Hin|Hin]; by apply elem_of_nil in Hin].
    destruct (w_process_list w app service) as [pss|]; simpl in Hin;
      [|destruct Hin as [Hin|Hin]; by apply elem_of_nil in Hin].
    destruct (length pss <? 1)%nat; simpl in Hin;
      [destruct Hin as [Hin|Hin]; by apply elem_of_nil in Hin|].
    destruct (pss !! w_intn w (length pss)) as [ps|]; simpl in Hin;
      [|destruct Hin as [Hin|Hin]; by apply elem_of_nil in Hin].
    exists r, (Id ps).
    destruct Hin as [Hin|Hin]; by apply list_elem_of_singleton in Hin. }
  exists rk, pid. split; [reflexivity|].
  simpl. rewrite serviceProxy_run.
  destruct (w_process_proxy w app pid port); by split.
Qed.

Lemma tunnel_goroutine_keeps_pipe_open_witness :
  ∃ rk pid,
    GoServiceProxy 7%nat "myapp" "p-two" 3000 (Sock 30)
    = GoServiceProxy rk "myapp" pid 3000 (fst (w_net_pipe sample.world))
    ∧ run_task sample.world
        (GoServiceProxy 7%nat "myapp" "p-two" 3000 (Sock 30))
      = match w_process_proxy sample.world "myapp" pid 3000 with
        | Ok pr =>
            Run [EvProcessProxy "myapp" pid 3000 (fst (w_net_pipe sample.world));
                 EvCopyStream (fst (w_net_pipe sample.world)) pr;
                 EvStreamClose pr]
              (of_err (w_copy sample.world))
        | Err e =>
            Run [EvProcessProxy "myapp" pid 3000 (fst (w_net_pipe sample.world))]
              (Err e)
        end
    ∧ existsb closes_any
        (trace (run_task sample.world
                  (GoServiceProxy 7%nat "myapp" "p-two" 3000 (Sock 30))))
      = false.
Proof.
  apply (tunnel_goroutine_keeps_pipe_open sample.world "myapp" "web" 3000
           "tcp" "rack:80").
  left. apply list_elem_of_singleton. reflexivity.
Defined.

(** X11. The dial function of the WebSocket bridge and the one of the HTTP
    transport do the same things in the same order, whatever network and
    address they are asked for; they differ only in that the bridge's
    returns its end of the pipe wrapped in [nopDeadlineConn]. *)
Theorem NetDial_wraps_DialContext
    (w : World) (app service : string) (port : Z)
    (network address network' address' : string) :
  trace (ws_NetDial w app service port network address)
  = trace (serviceTransport_DialContext w app service port network' address')
  ∧ outcome (ws_NetDial w app service port network address)
    = match outcome (serviceTransport_DialContext w app service port
                       network' address') with
      | Ok c => Ok (NopDeadlineConn c)
      | Err e => Err e
      end.
Proof.
  rewrite DialContext_cases, NetDial_cases.
  destruct (w_rack w); simpl; [|done].
  destruct (w_process_list w app service) as [pss|]; simpl; [|done].
  destruct (length pss <? 1)%nat; simpl; [done|].
  destruct (pss !! w_intn w (length pss)); done.
Qed.

(** X12. A backend resolution that fails leaves nothing behind, and one
    that succeeds tunnels to a listed process: [mrand.Intn] is never called
    with a bound below one; on an error no pipe has been made and no
    goroutine started; on success exactly one goroutine has been started,
    for a process that is in the list the rack client returned, over the
    first end of the pipe whose second end is the connection returned. *)
Theorem DialContext_outcomes
    (w : World) (app service : string) (port : Z) (network address : string) :
  let m := serviceTransport_DialContext w app service port network address in
  (∀ n, EvIntn n ∈ trace m → (1 ≤ n)%nat)
  ∧ match outcome m with
    | Err _ =>
        spawned (trace m) = [] ∧ existsb makes_pipe (trace m) = false
    | Ok b =>
        ∃ r pss ps,
          w_rack w = Ok r ∧ w_process_list w app service = Ok pss
          ∧ ps ∈ pss
          ∧ spawned (trace m)
            = [GoServiceProxy r app (Id ps) port (fst (w_net_pipe w))]
          ∧ b = snd (w_net_pipe w)
    end.
Proof.
  intros m. subst m. rewrite DialContext_cases.
  destruct (w_rack w) as [r|]; simpl.
  2:{ split; [|done]. intros n Hn. apply list_elem_of_singleton in Hn.
      discriminate. }
  destruct (w_process_list w app service) as [pss|]; simpl.
  2:{ split; [|done]. intros n Hn.
      repeat (apply elem_of_cons in Hn as [Hn|Hn]; [discriminate Hn|]).
      by apply elem_of_nil in Hn. }
  destruct (length pss <? 1)%nat eqn:Hlen; simpl.
  { split; [|done]. intros n Hn.
    repeat (apply elem_of_cons in Hn as [Hn|Hn]; [discriminate Hn|]).
    by apply elem_of_nil in Hn. }
  apply Nat.ltb_ge in Hlen.
  assert (∀ l n, EvIntn n ∈ EvRackNewFromEnv :: EvProcessList app service
                   :: EvIntn (length pss) :: l →
                 (∀ n', EvIntn n' ∉ l) → (1 ≤ n)%nat) as Hdraw.
  { intros l n Hn Hl.
    repeat (apply elem_of_cons in Hn as [Hn|Hn]; [try discriminate Hn|]).
    - by injection Hn as ->.
    - by apply Hl in Hn. }
  destruct (pss !! w_intn w (length pss)) as [ps|] eqn:Hps; simpl.
  - split.
    + intros n Hn. apply (Hdraw _ _ Hn). intros n' Hn'.
      repeat (apply elem_of_cons in Hn' as [Hn'|Hn']; [discriminate Hn'|]).
      by apply elem_of_nil in Hn'.
    + exists r, pss, ps. repeat split; try done.
      by eapply list_elem_of_lookup_2.
  - split; [|done].
    intros n Hn. apply (Hdraw _ _ Hn). intros n' Hn'.
    by apply elem_of_nil in Hn'.
Qed.

(** X13. On a rack target that passes the two length checks, the TCP
    forwarder reads the application, the kind and the resource name and
    nothing else: segments after the fourth, tokens after the second and
    the port token itself, which need not be a number, do not change what
    it does. *)
Theorem proxyRackTCP_reads_app_kind_name
    (w : World) (cn : Conn) (t t' : URL) :
  let segs := segments (url.Path t) in
  let segs' := segments (url.Path t') in
  let toks := selector_tokens (url.Path t) in
  let toks' := selector_tokens (url.Path t') in
  (4 ≤ length segs)%nat → (4 ≤ length segs')%nat →
  (2 ≤ length toks)%nat → (2 ≤ length toks')%nat →
  idx segs 1 = idx segs' 1 → idx segs 2 = idx segs' 2 →
  idx toks 0 = idx toks' 0 →
  proxyRackTCP w cn t = proxyRackTCP w cn t'.
Proof.
  intros segs segs' toks toks' H4 H4' H2 H2' Happ Hkind Hname.
  pose proof (proxyRackTCP_long w cn (sample.proxy_to t) H4 H2) as E.
  pose proof (proxyRackTCP_long w cn (sample.proxy_to t') H4' H2') as E'.
  simpl in E, E'. rewrite E, E'.
  unfold kind_segment. fold segs segs' toks toks'.
  by rewrite Happ, Hkind, Hname.
Qed.

Lemma proxyRackTCP_reads_app_kind_name_witness :
  proxyRackTCP sample.world (Sock 1) sample.target_resource
  = proxyRackTCP sample.world (Sock 1) cases.target_trailing
  ∧ proxyRackTCP sample.world (Sock 1) sample.target_resource
    = proxyRackTCP sample.world (Sock 1) cases.target_no_port.
Proof.
  split.
  - apply (proxyRackTCP_reads_app_kind_name sample.world (Sock 1)
             sample.target_resource cases.target_trailing);
      (reflexivity || (vm_compute; lia)).
  - apply (proxyRackTCP_reads_app_kind_name sample.world (Sock 1)
             sample.target_resource cases.target_no_port);
      (reflexivity || (vm_compute; lia)).
Defined.

(** ** Forwarding headers *)

(** X14. The director of the rack reverse proxy sends the request to the
    endpoint's host with the target's scheme and leaves the rest of its URL
    (path, query and the other fields) and its remote address alone. It appends the remote address, the listen port and the
    listen scheme to the values that the three [X-Forwarded-*] headers
    already have, after them, and touches no other header. *)
Theorem rackDirector_appends (ev : Endpoint) (p : Proxy) (r : Request) :
  let r' := rackDirector ev p r in
  RemoteAddr r' = RemoteAddr r
  ∧ reqURL r' = {| url.Scheme := url.Scheme (Target p);
                   url.Opaque := url.Opaque (reqURL r);
                   url.User := url.User (reqURL r);
                   url.Host := Host ev;
                   url.Path := url.Path (reqURL r);
                   url.RawPath := url.RawPath (reqURL r);
                   url.OmitHost := url.OmitHost (reqURL r);
                   url.ForceQuery := url.ForceQuery (reqURL r);
                   url.RawQuery := url.RawQuery (reqURL r);
                   url.Fragment := url.Fragment (reqURL r);
                   url.RawFragment := url.RawFragment (reqURL r) |}
  ∧ values (reqHeader r') "X-Forwarded-For"
    = values (reqHeader r) "X-Forwarded-For" ++ [RemoteAddr r]
  ∧ values (reqHeader r') "X-Forwarded-Port"
    = values (reqHeader r) "X-Forwarded-Port" ++ [url.Port (Listen p)]
  ∧ values (reqHeader r') "X-Forwarded-Proto"
    = values (reqHeader r) "X-Forwarded-Proto" ++ [url.Scheme (Listen p)]
  ∧ (∀ k, k ≠ "X-Forwarded-For" → k ≠ "X-Forwarded-Port" →
          k ≠ "X-Forwarded-Proto" →
          reqHeader r' !! k = reqHeader r !! k).
Proof.
  intros r'. subst r'. unfold rackDirector. simpl.
  split; [done|]. split; [done|].
  split; [by rewrite !values_Header_Add|].
  split; [by rewrite !values_Header_Add|].
  split; [by rewrite !values_Header_Add|].
  intros k H1 H2 H3. rewrite !lookup_Header_Add.
  change (CanonicalMIMEHeaderKey "X-Forwarded-For") with "X-Forwarded-For".
  change (CanonicalMIMEHeaderKey "X-Forwarded-Port") with "X-Forwarded-Port".
  change (CanonicalMIMEHeaderKey "X-Forwarded-Proto") with "X-Forwarded-Proto".
  repeat case_decide; congruence.
Qed.

Lemma lookup_add_all vs : ∀ h key k,
  add_all h key vs !! k
  = if decide (CanonicalMIMEHeaderKey key = k)
    then match vs with [] => h !! k | _ => Some (values h k ++ vs) end
    else h !! k.
Proof.
  induction vs as [|v vs IH]; intros h key k; simpl.
  - by case_decide.
  - rewrite IH, lookup_Header_Add, values_Header_Add.
    destruct (decide (CanonicalMIMEHeaderKey key = k)); [|done].
    destruct vs; [done|]. f_equal. symmetry. apply (app_assoc _ [v]).
Qed.

(** The entry of the result of the copy loop under a key: the values the
    map had, then the copied ones; no entry when there are neither. *)
Lemma lookup_ws_copy entries : ∀ h k,
  ws_copy entries h !! k
  = match h !! k, copied k entries with
    | Some l, c => Some (l ++ c)
    | None, [] => None
    | None, c => Some c
    end.
Proof.
  induction entries as [|[k' vs] rest IH]; intros h k.
  - simpl. destruct (h !! k); [by rewrite app_nil_r|done].
  - cbn [ws_copy]. unfold copied. cbn [fmap list_fmap mjoin list_join fst snd].
    fold (copied k rest).
    destruct (ws_skip k'); [apply IH|].
    rewrite IH, lookup_add_all. case_decide as Hk; [|done].
    unfold values. destruct vs as [|v vs]; [done|].
    destruct (h !! k) as [l|]; [|done].
    f_equal. symmetry. apply (app_assoc l (v :: vs)).
Qed.

(** With one entry per key and the keys canonical, the copy loop adds under
    a key the values of that key's entry, unless the key is skipped. *)
Lemma copied_cons k k' vs rest :
  copied k ((k', vs) :: rest)
  = (if ws_skip k' then []
     else if decide (CanonicalMIMEHeaderKey k' = k) then vs else [])
    ++ copied k rest.
Proof. reflexivity. Qed.

Lemma copied_entry entries k :
  NoDup (fst <$> entries) →
  (∀ k' vs, (k', vs) ∈ entries → CanonicalMIMEHeaderKey k' = k') →
  (∀ vs, (k, vs) ∈ entries → copied k entries = if ws_skip k then [] else vs)
  ∧ (k ∉ fst <$> entries → copied k entries = []).
Proof.
  induction entries as [|[k' vs'] rest IH]; intros Hnd Hc.
  - split; [|done]. intros vs Hin. by apply elem_of_nil in Hin.
  - rewrite fmap_cons in Hnd. apply NoDup_cons in Hnd as [Hk' Hnd].
    cbn [fst] in Hk'.
    assert (CanonicalMIMEHeaderKey k' = k') as Hck'.
    { apply (Hc k' vs'). apply elem_of_cons. by left. }
    destruct IH as [IH1 IH2]; [done| |].
    { intros k'' vs Hin. apply (Hc k'' vs). apply elem_of_cons. by right. }
    rewrite copied_cons, Hck'.
    split.
    + intros vs Hin. apply elem_of_cons in Hin as [Heq|Hin].
      * injection Heq as Hk Hvs. subst k' vs'.
        rewrite IH2 by done. rewrite app_nil_r.
        destruct (ws_skip k); [done|]. by case_decide.
      * assert (k' ≠ k) as Hne.
        { intros ->. apply Hk'. apply list_elem_of_fmap. by exists (k, vs). }
        rewrite (IH1 vs Hin).
        destruct (ws_skip k'); [done|]. by case_decide.
    + rewrite fmap_cons. intros Hnin.
      apply not_elem_of_cons in Hnin as [Hne Hnin]. cbn [fst] in Hne.
      rewrite IH2 by done.
      destruct (ws_skip k'); [done|]. case_decide; [congruence|done].
Qed.

Lemma copied_request (h : Header) entries k :
  entries ≡ₚ map_to_list h → canonical_keys h = true →
  copied k entries = if ws_skip k then [] else values h k.
Proof.
  intros Hp Hc.
  destruct (copied_entry entries k) as [H1 H2].
  { rewrite Hp. apply NoDup_fst_map_to_list. }
  { intros k' vs. by apply canonical_keys_entries with (h := h). }
  unfold values. destruct (h !! k) as [vs|] eqn:Hk; simpl.
  - apply H1. rewrite Hp. by apply elem_of_map_to_list.
  - rewrite H2; [by destruct (ws_skip k)|].
    intros Hin. apply list_elem_of_fmap in Hin as ([k' vs] & -> & Hin).
    rewrite Hp in Hin. apply elem_of_map_to_list in Hin. simpl in Hk.
    congruence.
Qed.

(** X15. The headers of the outbound WebSocket handshake are determined by
    the request, not by the order in which its header map is ranged over:
    under every key they hold the bridge's own [X-Forwarded-*] value for
    that key, if any, followed by the values the request has under the key,
    in the request's order, unless the key is one the loop skips; and there
    is no other value. In particular an inbound [X-Forwarded-For] chain
    comes after the bridge's own value. *)
Theorem ws_headers_exact
    (p : Proxy) (r : Request) (entries : list (string * list string)) :
  entries ≡ₚ map_to_list (reqHeader r) →
  canonical_keys (reqHeader r) = true →
  (∀ k, values (ws_headers p r entries) k
        = values (ws_forwarded p r) k
          ++ (if ws_skip k then [] else values (reqHeader r) k))
  ∧ (∀ entries', entries' ≡ₚ map_to_list (reqHeader r) →
       ws_headers p r entries' = ws_headers p r entries).
Proof.
  intros Hp Hc. split.
  - intros k. unfold ws_headers. rewrite values_ws_copy.
    by rewrite (copied_request (reqHeader r)).
  - intros entries' Hp'. unfold ws_headers. apply map_eq. intros k.
    rewrite !lookup_ws_copy.
    by rewrite !(copied_request (reqHeader r)).
Qed.

(** A request that already carries an [X-Forwarded-For] value. *)
Lemma ws_headers_exact_witness :
  values (ws_headers sample.proxy cases.request_forwarded
            (map_to_list (reqHeader cases.request_forwarded)))
    "X-Forwarded-For"
  = ["10.0.0.9:51234"; "203.0.113.7"]
  ∧ values (ws_headers sample.proxy cases.request_forwarded
              (map_to_list (reqHeader cases.request_forwarded)))
      "Accept"
    = ["text/html"].
Proof.
  assert (canonical_keys (reqHeader cases.request_forwarded) = true) as Hc
    by (vm_compute; reflexivity).
  destruct (ws_headers_exact sample.proxy cases.request_forwarded
              (map_to_list (reqHeader cases.request_forwarded))
              (reflexivity _) Hc) as (A & _).
  split; rewrite A; vm_compute; reflexivity.
Defined.

(** ** The WebSocket bridge, path by path *)

Lemma copiers_app a b : copiers (a ++ b) = copiers a ++ copiers b.
Proof.
  induction a as [|[] a IH]; simpl; try done.
  destruct t; simpl; by rewrite ?IH.
Qed.

Lemma printed_app a b : printed (a ++ b) = printed a ++ printed b.
Proof. induction a as [|[] a IH]; simpl; by rewrite ?IH. Qed.

Lemma NetDial_quiet w app service port network address :
  copiers (trace (ws_NetDial w app service port network address)) = []
  ∧ printed (trace (ws_NetDial w app service port network address)) = [].
Proof.
  rewrite NetDial_cases.
  destruct (w_rack w); simpl; [|done].
  destruct (w_process_list w app service) as [pss|]; simpl; [|done].
  destruct (length pss <? 1)%nat; simpl; [done|].
  destruct (pss !! w_intn w (length pss)); done.
Qed.

(** X16. The handler of the WebSocket bridge never fails its caller; what
    goes wrong is printed, once. When the upgrade fails it prints that and
    does nothing else: no backend is resolved. When the dial or the
    handshake fails it prints that and starts no copier. Only when upgrade,
    dial and handshake succeed does it start its copiers, exactly two, one
    per direction between the two connections, and it prints the first copy
    result if that is an error. *)
Theorem ws_starts_copiers
    (w : World) (ev : Endpoint) (p : Proxy) (app service : string) (port : Z)
    (r : Request) (entries : list (string * list string)) :
  let run := ws w ev p app service port r entries in
  let nd := ws_NetDial w app service port "tcp" (Host ev) in
  match w_upgrade w with
  | Err e => run = Run [EvUpgrade; EvPrint "ws.upgrader" e] (Ok tt)
  | Ok f =>
      outcome run = Ok tt
      ∧ match outcome nd, w_handshake w with
        | Ok _, Ok b =>
            copiers (trace run) = [(f, b); (b, f)]
            ∧ printed (trace run)
              = match w_errc w with
                | Some e => [("ws.cp", e)]
                | None => []
                end
        | Ok _, Err e | Err e, _ =>
            copiers (trace run) = [] ∧ printed (trace run) = [("ws.dial", e)]
        end
  end.
Proof.
  intros run nd. subst run. unfold ws.
  destruct (w_upgrade w) as [f|e]; [|reflexivity].
  destruct (NetDial_quiet w app service port "tcp" (Host ev)) as [Hc Hp].
  cbn [url.Host url.set_Scheme url.set_Host]. fold nd in Hc, Hp |- *.
  unfold emit, lift, mbind, M_bind, mret, M_ret. simpl.
  destruct (outcome nd) eqn:Hnd; simpl.
  - destruct (w_handshake w) as [b|e]; simpl.
    + destruct (w_errc w); simpl;
        rewrite ?app_nil_r, ?copiers_app, ?printed_app, ?Hc, ?Hp; done.
    + rewrite ?app_nil_r, ?copiers_app, ?printed_app, ?Hc, ?Hp. done.
  - rewrite ?app_nil_r, ?copiers_app, ?printed_app, ?Hc, ?Hp. done.
Qed.

(** X17. Only the first copy result is ever received. Once the handler of
    the bridge has returned with a result, no step of either copier changes
    what it returned and nothing receives from the channel again: the result
    of the copier that finishes second, error or not, stays in the channel,
    which then holds exactly that one result. *)
Theorem pump_first_result_final (sched : list action) (s : pump)
    (e : option error) :
  pump_run sched pump_init = Some s →
  handler s = Returned e →
  pump_step Receives s = None
  ∧ (∀ a s', pump_step a s = Some s' → handler s' = Returned e)
  ∧ (length (errc s) ≤ 1)%nat
  ∧ (exited (cp_down s) = true → exited (cp_up s) = true →
     length (errc s) = 1%nat).
Proof.
  intros Hr Hh. pose proof (pump_run_inv _ _ _ pump_init_inv Hr) as Hi.
  unfold pump_inv, count_exited in Hi. rewrite Hh in Hi.
  split; [by unfold pump_step; rewrite Hh|].
  split.
  { intros a s'. destruct s as [dn up ch h]. simpl in Hh. subst h.
    destruct a as [[] err|[]|]; simpl.
    - destruct dn; intros [= <-]; done.
    - destruct up; intros [= <-]; done.
    - destruct dn; try discriminate.
      destruct (length ch <? 2)%nat; intros [= <-]; done.
    - destruct up; try discriminate.
      destruct (length ch <? 2)%nat; intros [= <-]; done.
    - discriminate. }
  split.
  - destruct (exited (cp_down s)), (exited (cp_up s)); simpl in Hi; lia.
  - intros Hd Hu. rewrite Hd, Hu in Hi. simpl in Hi. lia.
Qed.

(** The download ends first and is received; the upload then ends with an
    error, which is sent and stays in the channel. *)
Lemma pump_first_result_final_witness :
  pump_step Receives
    {| cp_down := Exited; cp_up := Exited;
       errc := [Some (ErrExternal "broken pipe")]; handler := Returned None |}
  = None
  ∧ length (errc {| cp_down := Exited; cp_up := Exited;
                    errc := [Some (ErrExternal "broken pipe")];
                    handler := Returned None |}) = 1%nat.
Proof.
  destruct (pump_first_result_final
              [CopyEnds true None; Sends true; Receives;
               CopyEnds false (Some (ErrExternal "broken pipe")); Sends false]
              {| cp_down := Exited; cp_up := Exited;
                 errc := [Some (ErrExternal "broken pipe")];
                 handler := Returned None |}
              None eq_refl eq_refl) as (A & _ & _ & B).
  split; [exact A|]. apply B; reflexivity.
Defined.

(** ** Service.BuildHash and the build arguments *)

(** X18. The build hash reads the build arguments only through their text
    joined by spaces: two services with the same build path and image whose
    argument lists join to the same text have the same hash, also when the
    lists differ, as one argument with a space and the two arguments it
    splits into do. *)
Theorem BuildHash_args_joined (table : Z → bool) (s1 s2 : Service) :
  Path (Build s1) = Path (Build s2) →
  Image s1 = Image s2 →
  Join (Args (Build s1)) " " = Join (Args (Build s2)) " " →
  BuildHash table s1 = BuildHash table s2.
Proof.
  intros HP HI HA. unfold BuildHash, build_text, fmt.v_strings.
  by rewrite HP, HI, HA.
Qed.

Lemma BuildHash_args_joined_witness :
  Args (Build sample.service) = ["A=1"; "B=2"]
  ∧ Args (Build cases.service_joined) = ["A=1 B=2"]
  ∧ BuildHash (λ _, true) sample.service
    = BuildHash (λ _, true) cases.service_joined.
Proof.
  split; [reflexivity|]. split; [reflexivity|].
  apply (BuildHash_args_joined (λ _, true) sample.service
           cases.service_joined); reflexivity.
Defined.

(** ** The ways the rack forwarders fail *)

(** X19. [proxyHTTP], called on the proxy's own target as [Serve] calls it,
    fails for rack targets only, and in four ways only: a path of fewer than
    four segments, a selector of fewer than two tokens, a port token that is
    not an integer, a kind other than [service]. *)
Theorem proxyHTTP_errors (p : Proxy) (listen : URL) (e : error) :
  let path := url.Path (Target p) in
  let kind := kind_segment path in
  let port := idx (selector_tokens path) 1 in
  proxyHTTP p listen (Target p) = Err e →
  url.Hostname (Target p) = "rack"
  ∧ ((e = ErrInvalidRackEndpoint ∧ (length (segments path) < 4)%nat)
     ∨ (e = ErrInvalidEndpoint kind kind
        ∧ (length (selector_tokens path) < 2)%nat)
     ∨ (e = ErrAtoi port ∧ Atoi port = None)
     ∨ (e = ErrUnknownProxyType kind ∧ kind ≠ "service")).
Proof.
  intros path kind port. unfold proxyHTTP.
  destruct (String.eqb_spec (url.Hostname (Target p)) "rack") as [Hh|Hh];
    [|discriminate].
  destruct (proxyRackHTTP p) as [h|e'] eqn:Hr; [discriminate|].
  intros [= ->]. split; [done|].
  destruct (Nat.lt_ge_cases (length (segments path)) 4) as [H4|H4].
  { rewrite (proxyRackHTTP_short p H4) in Hr. injection Hr as <-. auto. }
  destruct (Nat.lt_ge_cases (length (selector_tokens path)) 2) as [H2|H2].
  { rewrite (proxyRackHTTP_selector p H4 H2) in Hr. injection Hr as <-.
    right. left. auto. }
  rewrite (proxyRackHTTP_long p H4 H2) in Hr. fold path kind port in Hr.
  destruct (Atoi port) eqn:Hp.
  - destruct (String.eqb_spec kind "service") as [Hk|Hk]; [discriminate|].
    injection Hr as <-. right. right. right. auto.
  - injection Hr as <-. right. right. left. auto.
Qed.

(** The resource target, which only the TCP forwarder takes. *)
Lemma proxyHTTP_errors_witness :
  proxyHTTP (sample.proxy_to sample.target_resource) sample.listen
    sample.target_resource
  = Err (ErrUnknownProxyType "resource")
  ∧ url.Hostname sample.target_resource = "rack".
Proof.
  split; [reflexivity|].
  apply (proxyHTTP_errors (sample.proxy_to sample.target_resource)
           sample.listen (ErrUnknownProxyType "resource") eq_refl).
Defined.

(** X20. [proxyRackTCP] returns an error in six ways only: the two
    rejections of the path, the error of building the rack client, a kind
    other than [resource], the error of opening the resource tunnel and the
    error of streaming. When it returns without error the kind was
    [resource] and the connection was streamed through the tunnel. *)
Theorem proxyRackTCP_errors (w : World) (cn : Conn) (target : URL) :
  let path := url.Path target in
  let kind := kind_segment path in
  let app := idx (segments path) 1 in
  let name := idx (selector_tokens path) 0 in
  match outcome (proxyRackTCP w cn target) with
  | Err e =>
      (e = ErrInvalidRackEndpointFor target ∧ (length (segments path) < 4)%nat)
      ∨ (e = ErrInvalidEndpoint kind kind
         ∧ (length (selector_tokens path) < 2)%nat)
      ∨ w_rack w = Err e
      ∨ (e = ErrUnknownProxyType kind ∧ kind ≠ "resource")
      ∨ w_resource_proxy w app name = Err e
      ∨ w_stream w = Some e
  | Ok _ =>
      kind = "resource"
      ∧ ∃ pr, w_resource_proxy w app name = Ok pr
              ∧ EvStream cn pr ∈ trace (proxyRackTCP w cn target)
  end.
Proof.
  intros path kind app name.
  pose proof (proxyRackTCP_short w cn (sample.proxy_to target)) as E1.
  pose proof (proxyRackTCP_selector w cn (sample.proxy_to target)) as E2.
  pose proof (proxyRackTCP_long w cn (sample.proxy_to target)) as E3.
  cbn [Target sample.proxy_to] in E1, E2, E3.
  fold path in E1, E2, E3. fold kind in E2, E3. fold app name in E3.
  destruct (Nat.lt_ge_cases (length (segments path)) 4) as [H4|H4].
  { rewrite (E1 H4). simpl. auto. }
  destruct (Nat.lt_ge_cases (length (selector_tokens path)) 2) as [H2|H2].
  { rewrite (E2 H4 H2). simpl. auto. }
  rewrite (E3 H4 H2).
  destruct (w_rack w) as [r|e] eqn:Hr; simpl; [|auto].
  destruct (String.eqb_spec kind "resource") as [Hk|Hk]; [|simpl; auto 6].
  destruct (w_resource_proxy w app name) as [pr|e] eqn:Hp; simpl; [|auto 6].
  destruct (w_stream w) as [e|] eqn:Hs; simpl; [auto 7|].
  split; [done|]. exists pr. split; [done|].
  do 2 (apply elem_of_cons; right). apply elem_of_cons. by left.
Qed.
